(** * Device.LocalAgent.MTP: the agent MTP table of [src/core/device_mtp.c]

    A shallow embedding of the slot table [agent_mtps] and of the handlers
    that the data model calls on it, followed by the properties of the
    handlers.  The C array is a list of records, a pointer [agent_mtp_t *]
    into the array is the index of the slot, and the calls into the other
    modules of the agent (STOMP, CoAP, the data model) are recorded, in
    order, in a list of calls carried by the state. *)

From Stdlib Require Import ZArith Bool Lia.
From stdpp Require Import base list strings.

Local Open Scope string_scope.
Local Open Scope Z_scope.

(** ** Constants of [src/vendor/vendor_defs.h] *)

Definition MAX_CONTROLLERS : nat := 5.
Definition MAX_AGENT_MTPS : nat := MAX_CONTROLLERS.

(** ** Types *)

(** [mtp_protocol_t]: the enumeration behind the table [mtp_protocols]. *)
Inductive mtp_protocol_t : Type :=
| kMtpProtocol_None
| kMtpProtocol_STOMP
| kMtpProtocol_CoAP.

(** [mtp_status_t]: the enumeration behind the table [mtp_statuses]. *)
Inductive mtp_status_t : Type :=
| kMtpStatus_Error
| kMtpStatus_Down
| kMtpStatus_Up.

(** The [USP_ERR_] codes the file names; every other code a collaborator may
    return is [USP_ERR_OTHER]. *)
Inductive usp_err : Type :=
| USP_ERR_OK
| USP_ERR_INTERNAL_ERROR
| USP_ERR_RESOURCES_EXCEEDED
| USP_ERR_INVALID_VALUE
| USP_ERR_OTHER (code : Z).

Definition is_ok (err : usp_err) : bool :=
  match err with USP_ERR_OK => true | _ => false end.

Definition protocol_eqb (a b : mtp_protocol_t) : bool :=
  match a, b with
  | kMtpProtocol_None, kMtpProtocol_None => true
  | kMtpProtocol_STOMP, kMtpProtocol_STOMP => true
  | kMtpProtocol_CoAP, kMtpProtocol_CoAP => true
  | _, _ => false
  end.

(** [agent_mtp_t].  A [char *] field is [None] when it is [NULL]. The two
    CoAP fields exist in the C structure only under [ENABLE_COAP]; without it
    nothing reads or writes them. *)
Record agent_mtp_t : Type := Build_agent_mtp {
  instance : Z;
  enable : bool;
  protocol : mtp_protocol_t;
  stomp_connection_instance : Z;
  stomp_agent_queue : option string;
  coap_port : Z;
  coap_path : option string
}.

Definition set_instance (v : Z) (mtp : agent_mtp_t) : agent_mtp_t :=
  Build_agent_mtp v (enable mtp) (protocol mtp) (stomp_connection_instance mtp)
                  (stomp_agent_queue mtp) (coap_port mtp) (coap_path mtp).
Definition set_enable (v : bool) (mtp : agent_mtp_t) : agent_mtp_t :=
  Build_agent_mtp (instance mtp) v (protocol mtp) (stomp_connection_instance mtp)
                  (stomp_agent_queue mtp) (coap_port mtp) (coap_path mtp).
Definition set_protocol (v : mtp_protocol_t) (mtp : agent_mtp_t) : agent_mtp_t :=
  Build_agent_mtp (instance mtp) (enable mtp) v (stomp_connection_instance mtp)
                  (stomp_agent_queue mtp) (coap_port mtp) (coap_path mtp).
Definition set_stomp_connection_instance (v : Z) (mtp : agent_mtp_t) : agent_mtp_t :=
  Build_agent_mtp (instance mtp) (enable mtp) (protocol mtp) v
                  (stomp_agent_queue mtp) (coap_port mtp) (coap_path mtp).
Definition set_stomp_agent_queue (v : option string) (mtp : agent_mtp_t) : agent_mtp_t :=
  Build_agent_mtp (instance mtp) (enable mtp) (protocol mtp) (stomp_connection_instance mtp)
                  v (coap_port mtp) (coap_path mtp).
Definition set_coap_port (v : Z) (mtp : agent_mtp_t) : agent_mtp_t :=
  Build_agent_mtp (instance mtp) (enable mtp) (protocol mtp) (stomp_connection_instance mtp)
                  (stomp_agent_queue mtp) v (coap_path mtp).
Definition set_coap_path (v : option string) (mtp : agent_mtp_t) : agent_mtp_t :=
  Build_agent_mtp (instance mtp) (enable mtp) (protocol mtp) (stomp_connection_instance mtp)
                  (stomp_agent_queue mtp) (coap_port mtp) v.

(** What [memset(mtp, 0, sizeof(agent_mtp_t))] leaves in a slot. *)
Definition zeroed_mtp : agent_mtp_t :=
  Build_agent_mtp 0 false kMtpProtocol_None 0 None 0 None.

(** The parameters of one row of the table.  A data model path such as
    ["Device.LocalAgent.MTP.3.STOMP.Reference"], which the C code prints with
    [USP_SNPRINTF], is the pair of the instance number and the parameter. *)
Inductive mtp_param : Type :=
| Param_Enable
| Param_Protocol
| Param_STOMP_Reference
| Param_STOMP_Destination
| Param_CoAP_Port
| Param_CoAP_Path.

Record dm_path : Type := MTP_path { path_instance : Z; path_param : mtp_param }.

(** The calls that leave this module, in the order they are made. *)
Inductive call : Type :=
| Call_DEVICE_STOMP_ScheduleReconnect (stomp_instance : Z)
| Call_COAP_StartServer (inst : Z) (port : Z) (path : option string)
| Call_COAP_StopServer (inst : Z)
| Call_DATA_MODEL_SetParameterValue (path : dm_path) (value : string)
| Call_USP_ERR_SetMessage (msg : string).

(** The answers of the collaborators: the reads of the database, the result
    of starting a CoAP server, the status of the transports and the
    conversion of enumerations to text. None of them is in this file. A
    function that returns through an out parameter answers with the error
    code and the value it leaves there. *)
Record dm_env : Type := Build_dm_env {
  DM_ACCESS_GetBool : dm_path -> usp_err * bool;
  DM_ACCESS_GetEnum : dm_path -> usp_err * mtp_protocol_t;
  DATA_MODEL_GetParameterValue : dm_path -> usp_err * string;
  DM_ACCESS_ValidateReference : string -> usp_err * Z;
  DM_ACCESS_GetString : dm_path -> usp_err * option string;
  DM_ACCESS_GetUnsigned : dm_path -> usp_err * Z;
  COAP_StartServer_result : Z -> Z -> option string -> usp_err;
  DEVICE_STOMP_GetMtpStatus : Z -> mtp_status_t;
  COAP_GetServerStatus : Z -> mtp_status_t;
  TEXT_UTILS_EnumToString : mtp_status_t -> list (mtp_status_t * string) -> string;
  TEXT_UTILS_StringToEnum : string -> list (mtp_protocol_t * string) -> option mtp_protocol_t;
  USP_STRNCPY : string -> Z -> string;
  USP_REGISTER_result : usp_err;
  DATA_MODEL_SetParameterValue_result : dm_path -> string -> usp_err
}.

(** ** State and effects *)

Record world : Type := Build_world {
  agent_mtps : list agent_mtp_t;
  calls : list call
}.

(** A computation either ends with a value and a new state, or stops the
    process ([None]): a failed [USP_ASSERT], or the use of a pointer that
    does not point into the table or is [NULL]. *)
Definition M (A : Type) : Type := world -> option (A * world).

Definition ret {A : Type} (a : A) : M A := fun w => Some (a, w).

Definition bind {A B : Type} (m : M A) (k : A -> M B) : M B :=
  fun w => match m w with
           | Some (a, w') => k a w'
           | None => None
           end.

Definition crash {A : Type} : M A := fun _ => None.

Declare Scope mtp_scope.
Delimit Scope mtp_scope with mtp.
Notation "x <- m ;; k" := (bind m (fun x => k))
  (at level 100, m at next level, right associativity) : mtp_scope.
Notation "m ;;; k" := (bind m (fun _ => k))
  (at level 100, right associativity) : mtp_scope.
Local Open Scope mtp_scope.

Definition get_table : M (list agent_mtp_t) := fun w => Some (agent_mtps w, w).

Definition emit (c : call) : M unit :=
  fun w => Some (tt, Build_world (agent_mtps w) (calls w ++ [c])).

(** [*mtp] for the pointer [mtp = &agent_mtps[i]]. *)
Definition load (i : nat) : M agent_mtp_t :=
  fun w => match agent_mtps w !! i with
           | Some mtp => Some (mtp, w)
           | None => None
           end.

(** An assignment to fields of [*mtp]. *)
Definition update (i : nat) (f : agent_mtp_t -> agent_mtp_t) : M unit :=
  fun w => match agent_mtps w !! i with
           | Some mtp => Some (tt, Build_world (<[i := f mtp]> (agent_mtps w)) (calls w))
           | None => None
           end.

(** [USP_ASSERT(mtp != NULL)], after which [mtp] is used as a slot. *)
Definition USP_ASSERT_not_NULL (mtp : option nat) : M nat :=
  match mtp with
  | Some i => ret i
  | None => crash
  end.

Definition when (b : bool) (m : M unit) : M unit := if b then m else ret tt.

Definition DEVICE_STOMP_ScheduleReconnect (stomp_instance : Z) : M unit :=
  emit (Call_DEVICE_STOMP_ScheduleReconnect stomp_instance).

Definition COAP_StopServer (inst : Z) : M unit :=
  emit (Call_COAP_StopServer inst).

Definition USP_ERR_SetMessage (msg : string) : M unit :=
  emit (Call_USP_ERR_SetMessage msg).

(** ** The functions of [device_mtp.c] *)

Section DeviceMtp.

(** [INVALID] is defined in a header that is not part of these sources; the
    functions are read for any value of it. *)
Variable INVALID : Z.
(** Whether the file is compiled with [ENABLE_COAP]. *)
Variable ENABLE_COAP : bool.
Variable E : dm_env.

Definition mtp_protocols : list (mtp_protocol_t * string) :=
  [(kMtpProtocol_None, EmptyString); (kMtpProtocol_STOMP, "STOMP")]
  ++ (if ENABLE_COAP then [(kMtpProtocol_CoAP, "CoAP")] else []).

Definition mtp_statuses : list (mtp_status_t * string) :=
  [(kMtpStatus_Error, "Error"); (kMtpStatus_Down, "Down"); (kMtpStatus_Up, "Up")].

(** [COAP_StartServer(instance, AF_INET, "0.0.0.0", port, path)]: the
    address family and the address are the same in every call. *)
Definition COAP_StartServer (inst port : Z) (path : option string) : M usp_err :=
  emit (Call_COAP_StartServer inst port path) ;;;
  ret (COAP_StartServer_result E inst port path).

(** The loop [for (i=0; i<MAX_AGENT_MTPS; i++)] that returns the first
    slot [&agent_mtps[i]] which passes the test [p], or [NULL]. It is
    entered with [i = 0] and [n = MAX_AGENT_MTPS] iterations to go. The C
    array has [MAX_AGENT_MTPS] elements, so every index of the loop is in
    the table (see [table_ok]); an index outside the list is passed over. *)
Fixpoint find_slot (p : agent_mtp_t -> bool) (tbl : list agent_mtp_t) (i n : nat)
  : option nat :=
  match n with
  | O => None
  | S n' =>
      match tbl !! i with
      | Some mtp => if p mtp then Some i else find_slot p tbl (S i) n'
      | None => find_slot p tbl (S i) n'
      end
  end.

Definition FindUnusedAgentMtp : M (option nat) :=
  tbl <- get_table ;;
  match find_slot (fun mtp => instance mtp =? INVALID) tbl 0 MAX_AGENT_MTPS with
  | Some i => ret (Some i)
  | None =>
      USP_ERR_SetMessage "FindUnusedAgentMtp: Only 5 agent MTPs are supported." ;;;
      ret None
  end.

Definition FindAgentMtpByInstance (inst : Z) : M (option nat) :=
  tbl <- get_table ;;
  ret (find_slot (fun mtp => instance mtp =? inst) tbl 0 MAX_AGENT_MTPS).

(** The slot after [DestroyAgentMtp]; [USP_SAFE_FREE] frees the string and
    leaves [NULL] in the field. *)
Definition destroyed (mtp : agent_mtp_t) : agent_mtp_t :=
  let mtp := set_instance INVALID mtp in
  let mtp := set_protocol kMtpProtocol_None mtp in
  let mtp := set_enable false mtp in
  let mtp := set_stomp_connection_instance INVALID mtp in
  let mtp := set_stomp_agent_queue None mtp in
  if ENABLE_COAP then set_coap_port 0 (set_coap_path None mtp) else mtp.

Definition DestroyAgentMtp (i : nat) : M unit := update i destroyed.

Fixpoint DEVICE_MTP_Init_loop (i n : nat) : M unit :=
  match n with
  | O => ret tt
  | S n' => update i (set_instance INVALID) ;;; DEVICE_MTP_Init_loop (S i) n'
  end.

(** [memset(agent_mtps, 0, sizeof(agent_mtps))]. *)
Definition memset_agent_mtps : M unit :=
  fun w => Some (tt, Build_world (replicate MAX_AGENT_MTPS zeroed_mtp) (calls w)).

(** The registrations are calls into the data model; [USP_REGISTER_result]
    is the [|=] of their results. *)
Definition DEVICE_MTP_Init : M usp_err :=
  memset_agent_mtps ;;;
  DEVICE_MTP_Init_loop 0 MAX_AGENT_MTPS ;;;
  if negb (is_ok (USP_REGISTER_result E))
  then ret USP_ERR_INTERNAL_ERROR
  else ret USP_ERR_OK.

Fixpoint DEVICE_MTP_Stop_loop (i n : nat) : M unit :=
  match n with
  | O => ret tt
  | S n' =>
      mtp <- load i ;;
      when (negb (instance mtp =? INVALID)) (DestroyAgentMtp i) ;;;
      DEVICE_MTP_Stop_loop (S i) n'
  end.

Definition DEVICE_MTP_Stop : M unit := DEVICE_MTP_Stop_loop 0 MAX_AGENT_MTPS.

Definition is_empty (s : string) : bool :=
  match s with
  | EmptyString => true
  | String _ _ => false
  end.

(** The loop of [DEVICE_MTP_GetAgentStompQueue]. The outer [None] is the
    read of [stomp_agent_queue[0]] through a [NULL] pointer, which [&&]
    reaches only when the tests before it hold. *)
Fixpoint DEVICE_MTP_GetAgentStompQueue_loop (tbl : list agent_mtp_t) (inst : Z) (i n : nat)
  : option (option string) :=
  match n with
  | O => Some None
  | S n' =>
      match tbl !! i with
      | Some mtp =>
          if negb (instance mtp =? INVALID) && enable mtp
             && (stomp_connection_instance mtp =? inst)
             && protocol_eqb (protocol mtp) kMtpProtocol_STOMP
          then match stomp_agent_queue mtp with
               | None => None
               | Some q =>
                   if negb (is_empty q) then Some (Some q)
                   else DEVICE_MTP_GetAgentStompQueue_loop tbl inst (S i) n'
               end
          else DEVICE_MTP_GetAgentStompQueue_loop tbl inst (S i) n'
      | None => DEVICE_MTP_GetAgentStompQueue_loop tbl inst (S i) n'
      end
  end.

Definition DEVICE_MTP_GetAgentStompQueue (inst : Z) : M (option string) :=
  tbl <- get_table ;;
  match DEVICE_MTP_GetAgentStompQueue_loop tbl inst 0 MAX_AGENT_MTPS with
  | Some r => ret r
  | None => crash
  end.

Definition DEVICE_MTP_ValidateStompReference (value : string) : usp_err :=
  if is_empty value then USP_ERR_OK
  else fst (DM_ACCESS_ValidateReference E value).

(** The error code and the value left in [*stomp_connection_instance]. *)
Definition DEVICE_MTP_GetStompReference (path : dm_path) : usp_err * Z :=
  let '(err, value) := DATA_MODEL_GetParameterValue E path in
  if negb (is_ok err) then (err, INVALID)
  else if is_empty value then (USP_ERR_OK, INVALID)
  else
    let '(err, stomp_connection_instance) := DM_ACCESS_ValidateReference E value in
    if negb (is_ok err) then (err, stomp_connection_instance)
    else (USP_ERR_OK, stomp_connection_instance).

Definition ValidateAdd_AgentMtp : M usp_err :=
  mtp <- FindUnusedAgentMtp ;;
  match mtp with
  | None => ret USP_ERR_RESOURCES_EXCEEDED
  | Some _ => ret USP_ERR_OK
  end.

Definition Notify_AgentMtpDeleted (inst1 : Z) : M usp_err :=
  mtp <- FindAgentMtpByInstance inst1 ;;
  match mtp with
  | None => ret USP_ERR_OK
  | Some i =>
      m <- load i ;;
      if negb (enable m) then ret USP_ERR_OK
      else
        match protocol m with
        | kMtpProtocol_STOMP =>
            when (negb (stomp_connection_instance m =? INVALID))
                 (DEVICE_STOMP_ScheduleReconnect (stomp_connection_instance m))
        | kMtpProtocol_CoAP =>
            when ENABLE_COAP (COAP_StopServer (instance m))
        | kMtpProtocol_None => ret tt
        end ;;;
        DestroyAgentMtp i ;;;
        ret USP_ERR_OK
  end.

Definition Validate_AgentMtpProtocol (value : string) : M usp_err :=
  match TEXT_UTILS_StringToEnum E value mtp_protocols with
  | None =>
      USP_ERR_SetMessage (String.append "Validate_AgentMtpProtocol: Invalid protocol " value) ;;;
      ret USP_ERR_INVALID_VALUE
  | Some _ => ret USP_ERR_OK
  end.

Definition NotifyChange_AgentMtpEnable (inst1 : Z) (val_bool : bool) : M usp_err :=
  mtp <- FindAgentMtpByInstance inst1 ;;
  i <- USP_ASSERT_not_NULL mtp ;;
  m <- load i ;;
  if Bool.eqb val_bool (enable m) then ret USP_ERR_OK
  else
    update i (set_enable val_bool) ;;;
    m <- load i ;;
    match protocol m with
    | kMtpProtocol_STOMP =>
        when (negb (stomp_connection_instance m =? INVALID))
             (DEVICE_STOMP_ScheduleReconnect (stomp_connection_instance m)) ;;;
        ret USP_ERR_OK
    | kMtpProtocol_CoAP =>
        if ENABLE_COAP then
          if enable m then
            err <- COAP_StartServer (instance m) (coap_port m) (coap_path m) ;;
            if negb (is_ok err) then ret err else ret USP_ERR_OK
          else
            COAP_StopServer (instance m) ;;;
            ret USP_ERR_OK
        else ret USP_ERR_OK
    | kMtpProtocol_None => ret USP_ERR_OK
    end.

Definition NotifyChange_AgentMtpProtocol (inst1 : Z) (value : string) : M usp_err :=
  mtp <- FindAgentMtpByInstance inst1 ;;
  i <- USP_ASSERT_not_NULL mtp ;;
  m <- load i ;;
  let old_protocol := protocol m in
  match TEXT_UTILS_StringToEnum E value mtp_protocols with
  | None => crash
  | Some new_protocol =>
      update i (set_protocol new_protocol) ;;;
      m <- load i ;;
      if negb (enable m) then ret USP_ERR_OK
      else if protocol_eqb (protocol m) old_protocol then ret USP_ERR_OK
      else
        when (enable m && negb (stomp_connection_instance m =? INVALID))
             (DEVICE_STOMP_ScheduleReconnect (stomp_connection_instance m)) ;;;
        if ENABLE_COAP then
          when (protocol_eqb old_protocol kMtpProtocol_CoAP && enable m)
               (COAP_StopServer (instance m)) ;;;
          if protocol_eqb (protocol m) kMtpProtocol_CoAP && enable m then
            err <- COAP_StartServer (instance m) (coap_port m) (coap_path m) ;;
            if negb (is_ok err) then ret err else ret USP_ERR_OK
          else ret USP_ERR_OK
        else ret USP_ERR_OK
  end.

(** The restart that ends both CoAP handlers. *)
Definition restart_CoAP_server (inst1 : Z) (i : nat) : M usp_err :=
  m <- load i ;;
  if protocol_eqb (protocol m) kMtpProtocol_CoAP && enable m then
    COAP_StopServer inst1 ;;;
    err <- COAP_StartServer (instance m) (coap_port m) (coap_path m) ;;
    if negb (is_ok err) then ret err else ret USP_ERR_OK
  else ret USP_ERR_OK.

(** Compiled only under [ENABLE_COAP]. *)
Definition NotifyChange_AgentMtpCoAPPort (inst1 : Z) (val_uint : Z) : M usp_err :=
  mtp <- FindAgentMtpByInstance inst1 ;;
  i <- USP_ASSERT_not_NULL mtp ;;
  m <- load i ;;
  if val_uint =? coap_port m then ret USP_ERR_OK
  else
    update i (set_coap_port val_uint) ;;;
    restart_CoAP_server inst1 i.

(** Compiled only under [ENABLE_COAP]. [USP_STRDUP] gives a fresh copy of
    [value]. *)
Definition NotifyChange_AgentMtpCoAPPath (inst1 : Z) (value : string) : M usp_err :=
  mtp <- FindAgentMtpByInstance inst1 ;;
  i <- USP_ASSERT_not_NULL mtp ;;
  update i (set_coap_path None) ;;;
  update i (set_coap_path (Some value)) ;;;
  restart_CoAP_server inst1 i.

(** The handler reads the new value back from the database, at the path of
    the parameter, and does not use [value]. *)
Definition NotifyChange_AgentMtpStompReference (inst1 : Z) (value : string) : M usp_err :=
  mtp <- FindAgentMtpByInstance inst1 ;;
  i <- USP_ASSERT_not_NULL mtp ;;
  let '(err, new_connection_instance) :=
    DEVICE_MTP_GetStompReference (MTP_path inst1 Param_STOMP_Reference) in
  if negb (is_ok err) then
    update i (set_stomp_connection_instance INVALID) ;;;
    ret err
  else
    m <- load i ;;
    let last_connection_instance := stomp_connection_instance m in
    update i (set_stomp_connection_instance new_connection_instance) ;;;
    m <- load i ;;
    when (enable m && protocol_eqb (protocol m) kMtpProtocol_STOMP
          && negb (last_connection_instance =? new_connection_instance))
         (when (negb (last_connection_instance =? INVALID))
               (DEVICE_STOMP_ScheduleReconnect last_connection_instance) ;;;
          when (negb (new_connection_instance =? INVALID))
               (DEVICE_STOMP_ScheduleReconnect new_connection_instance)) ;;;
    ret err.

(** [strcmp] reads [stomp_agent_queue]; it is reached only when the two
    tests before it hold. *)
Definition NotifyChange_AgentMtpStompDestination (inst1 : Z) (value : string) : M usp_err :=
  mtp <- FindAgentMtpByInstance inst1 ;;
  i <- USP_ASSERT_not_NULL mtp ;;
  m <- load i ;;
  schedule_reconnect <-
    (if enable m && protocol_eqb (protocol m) kMtpProtocol_STOMP then
       match stomp_agent_queue m with
       | None => crash
       | Some q =>
           ret (negb (String.eqb q value)
                && negb (stomp_connection_instance m =? INVALID))
       end
     else ret false) ;;
  update i (set_stomp_agent_queue None) ;;;
  update i (set_stomp_agent_queue (Some value)) ;;;
  m <- load i ;;
  when schedule_reconnect
       (DEVICE_STOMP_ScheduleReconnect (stomp_connection_instance m)) ;;;
  ret USP_ERR_OK.

(** The status that [Get_MtpStatus] computes for a slot. *)
Definition Get_MtpStatus_status (m : agent_mtp_t) : mtp_status_t :=
  if enable m then
    match protocol m with
    | kMtpProtocol_STOMP => DEVICE_STOMP_GetMtpStatus E (stomp_connection_instance m)
    | kMtpProtocol_CoAP =>
        if ENABLE_COAP then COAP_GetServerStatus E (instance m)
        else kMtpStatus_Error
    | kMtpProtocol_None => kMtpStatus_Error
    end
  else kMtpStatus_Down.

(** The error code and the text left in [buf]. *)
Definition Get_MtpStatus (inst1 : Z) (len : Z) : M (usp_err * string) :=
  mtp <- FindAgentMtpByInstance inst1 ;;
  i <- USP_ASSERT_not_NULL mtp ;;
  m <- load i ;;
  let status := Get_MtpStatus_status m in
  let str := TEXT_UTILS_EnumToString E status mtp_statuses in
  ret (USP_ERR_OK, USP_STRNCPY E str len).

(** The reads of [ProcessAgentMtpAdded], from the first one to the label
    [exit]: the value of [err] there. Each read writes through a pointer
    into the slot. *)
Definition ProcessAgentMtpAdded_reads (i : nat) (inst : Z) : M usp_err :=
  let '(err, v) := DM_ACCESS_GetBool E (MTP_path inst Param_Enable) in
  update i (set_enable v) ;;;
  if negb (is_ok err) then ret err else
  let '(err, v) := DM_ACCESS_GetEnum E (MTP_path inst Param_Protocol) in
  update i (set_protocol v) ;;;
  if negb (is_ok err) then ret err else
  let '(err, v) := DEVICE_MTP_GetStompReference (MTP_path inst Param_STOMP_Reference) in
  update i (set_stomp_connection_instance v) ;;;
  if negb (is_ok err) then ret err else
  let '(err, v) := DM_ACCESS_GetString E (MTP_path inst Param_STOMP_Destination) in
  update i (set_stomp_agent_queue v) ;;;
  if negb (is_ok err) then ret err else
  if ENABLE_COAP then
    let '(err, v) := DM_ACCESS_GetUnsigned E (MTP_path inst Param_CoAP_Port) in
    update i (set_coap_port v) ;;;
    if negb (is_ok err) then ret err else
    let '(err, v) := DM_ACCESS_GetString E (MTP_path inst Param_CoAP_Path) in
    update i (set_coap_path v) ;;;
    if negb (is_ok err) then ret err else
    m <- load i ;;
    if protocol_eqb (protocol m) kMtpProtocol_CoAP && enable m then
      err <- COAP_StartServer (instance m) (coap_port m) (coap_path m) ;;
      if negb (is_ok err) then ret err else ret USP_ERR_OK
    else ret USP_ERR_OK
  else ret USP_ERR_OK.

Definition ProcessAgentMtpAdded (inst : Z) : M usp_err :=
  mtp <- FindUnusedAgentMtp ;;
  match mtp with
  | None => ret USP_ERR_RESOURCES_EXCEEDED
  | Some i =>
      update i (fun _ => set_stomp_connection_instance INVALID
                           (set_instance inst zeroed_mtp)) ;;;
      err <- ProcessAgentMtpAdded_reads i inst ;;
      when (negb (is_ok err)) (DestroyAgentMtp i) ;;;
      m <- load i ;;
      when (enable m && protocol_eqb (protocol m) kMtpProtocol_STOMP
            && negb (stomp_connection_instance m =? INVALID))
           (DEVICE_STOMP_ScheduleReconnect (stomp_connection_instance m)) ;;;
      ret err
  end.

Definition Notify_AgentMtpAdded (inst1 : Z) : M usp_err :=
  ProcessAgentMtpAdded inst1.

(** Modelled from the spec: [DATA_MODEL_SetParameterValue] belongs to the
    data model, whose code is not part of these sources. Writing the
    reference of a slot through the persisted store re-enters the
    reference change handler, which [DEVICE_MTP_Init] registers for that
    parameter; the store may also refuse the write, and then notifies
    nobody. Only the parameter that this file writes is dispatched. *)
Definition DATA_MODEL_SetParameterValue (path : dm_path) (value : string) : M usp_err :=
  emit (Call_DATA_MODEL_SetParameterValue path value) ;;;
  let err := DATA_MODEL_SetParameterValue_result E path value in
  if negb (is_ok err) then ret err
  else
    match path_param path with
    | Param_STOMP_Reference =>
        NotifyChange_AgentMtpStompReference (path_instance path) value
    | _ => ret err
    end.

Fixpoint DEVICE_MTP_NotifyStompConnDeleted_loop (stomp_instance : Z) (i n : nat) : M unit :=
  match n with
  | O => ret tt
  | S n' =>
      mtp <- load i ;;
      when (negb (instance mtp =? INVALID)
            && protocol_eqb (protocol mtp) kMtpProtocol_STOMP
            && (stomp_connection_instance mtp =? stomp_instance))
           (_ <- DATA_MODEL_SetParameterValue
                   (MTP_path (instance mtp) Param_STOMP_Reference) EmptyString ;;
            ret tt) ;;;
      DEVICE_MTP_NotifyStompConnDeleted_loop stomp_instance (S i) n'
  end.

Definition DEVICE_MTP_NotifyStompConnDeleted (stomp_instance : Z) : M unit :=
  DEVICE_MTP_NotifyStompConnDeleted_loop stomp_instance 0 MAX_AGENT_MTPS.

End DeviceMtp.

(** ** Notions used by the statements *)

(** The table has the size of the C array. *)
Definition table_ok (w : world) : Prop := length (agent_mtps w) = MAX_AGENT_MTPS.

(** A slot that [DEVICE_MTP_GetAgentStompQueue] may answer with: in use,
    enabled, on STOMP, bound to connection [c], with the non-empty queue
    name [q]. *)
Definition queue_candidate (INVALID c : Z) (mtp : agent_mtp_t) (q : string) : Prop :=
  instance mtp <> INVALID /\ enable mtp = true /\
  protocol mtp = kMtpProtocol_STOMP /\ stomp_connection_instance mtp = c /\
  stomp_agent_queue mtp = Some q /\ q <> EmptyString.

(** Every slot in use owns its queue name. *)
Definition queues_owned (INVALID : Z) (tbl : list agent_mtp_t) : Prop :=
  forall i mtp, tbl !! i = Some mtp -> instance mtp <> INVALID ->
                stomp_agent_queue mtp <> None.

(** ** Tables and collaborators used as examples *)

Definition free_mtp : agent_mtp_t :=
  Build_agent_mtp (-1) false kMtpProtocol_None (-1) None 0 None.

Definition stomp_mtp (inst : Z) (en : bool) (conn : Z) (q : string) : agent_mtp_t :=
  Build_agent_mtp inst en kMtpProtocol_STOMP conn (Some q) 5683 (Some EmptyString).

Definition coap_mtp (inst : Z) (en : bool) (port : Z) (path : string) : agent_mtp_t :=
  Build_agent_mtp inst en kMtpProtocol_CoAP (-1) (Some EmptyString) port (Some path).

Definition full_world : world :=
  Build_world [stomp_mtp 1 true 1 "agent/1"; stomp_mtp 2 false 1 "agent/2";
               coap_mtp 3 true 5683 "usp"; stomp_mtp 4 true 2 EmptyString;
               stomp_mtp 5 true 2 "agent/5"] [].

Definition partial_world : world :=
  Build_world [stomp_mtp 1 true 1 EmptyString; stomp_mtp 2 false 1 "agent/2";
               free_mtp; stomp_mtp 4 true 1 "agent/4"; free_mtp] [].

Definition mtp_status_eqb (a b : mtp_status_t) : bool :=
  match a, b with
  | kMtpStatus_Error, kMtpStatus_Error => true
  | kMtpStatus_Down, kMtpStatus_Down => true
  | kMtpStatus_Up, kMtpStatus_Up => true
  | _, _ => false
  end.

(** A table lookup for the conversion of a status to its text. *)
Definition example_EnumToString (st : mtp_status_t) (tbl : list (mtp_status_t * string)) : string :=
  match List.find (fun e => mtp_status_eqb (fst e) st) tbl with
  | Some e => snd e
  | None => "UNKNOWN"
  end.

(** Collaborators for the examples. Every row of the database is on STOMP
    with a reference to connection 1, which is up; [enabled] is the value of
    its Enable, [destination] the answer to the read of its
    STOMP.Destination and [start] the result of starting a CoAP server. *)
Definition example_env_with (enabled : bool) (destination : usp_err * option string)
                            (start : usp_err) : dm_env :=
  Build_dm_env
    (fun _ => (USP_ERR_OK, enabled))
    (fun _ => (USP_ERR_OK, kMtpProtocol_STOMP))
    (fun _ => (USP_ERR_OK, "Device.STOMP.Connection.1"%string))
    (fun _ => (USP_ERR_OK, 1))
    (fun p => match path_param p with
              | Param_STOMP_Destination => destination
              | _ => (USP_ERR_OK, Some EmptyString)
              end)
    (fun _ => (USP_ERR_OK, 5683))
    (fun _ _ _ => start)
    (fun _ => kMtpStatus_Up)
    (fun _ => kMtpStatus_Up)
    example_EnumToString
    (fun _ _ => None)
    (fun s _ => s)
    USP_ERR_OK
    (fun _ _ => USP_ERR_OK).

Definition example_env : dm_env :=
  example_env_with true (USP_ERR_OK, Some "agent/7"%string) USP_ERR_OK.

(** The reconnect scheduled for a connection, if the reference is set. *)
Definition reconnect_if_set (INVALID c : Z) : list call :=
  if c =? INVALID then [] else [Call_DEVICE_STOMP_ScheduleReconnect c].

(** What a caller observes of a run: the value returned and the calls made
    so far. *)
Definition outcome {A : Type} (r : option (A * world)) : option (A * list call) :=
  match r with
  | Some (a, w) => Some (a, calls w)
  | None => None
  end.

(** The slot that [DestroyAgentMtp] leaves behind. *)
Definition released_mtp (INVALID : Z) : agent_mtp_t :=
  Build_agent_mtp INVALID false kMtpProtocol_None INVALID None 0 None.

(** The values that the reads of a population run resolve for the row
    [inst] of the database. *)
Definition resolved_mtp (INVALID : Z) (ENABLE_COAP : bool) (E : dm_env) (inst : Z)
  : agent_mtp_t :=
  Build_agent_mtp
    inst
    (snd (DM_ACCESS_GetBool E (MTP_path inst Param_Enable)))
    (snd (DM_ACCESS_GetEnum E (MTP_path inst Param_Protocol)))
    (snd (DEVICE_MTP_GetStompReference INVALID E (MTP_path inst Param_STOMP_Reference)))
    (snd (DM_ACCESS_GetString E (MTP_path inst Param_STOMP_Destination)))
    (if ENABLE_COAP then snd (DM_ACCESS_GetUnsigned E (MTP_path inst Param_CoAP_Port)) else 0)
    (if ENABLE_COAP then snd (DM_ACCESS_GetString E (MTP_path inst Param_CoAP_Path)) else None).

(** A population run of the row [inst] meets a failure: one of the reads
    fails or, with CoAP compiled in and the row enabled on CoAP, the server
    does not start. *)
Definition population_fails (INVALID : Z) (ENABLE_COAP : bool) (E : dm_env) (inst : Z)
  : Prop :=
  fst (DM_ACCESS_GetBool E (MTP_path inst Param_Enable)) <> USP_ERR_OK \/
  fst (DM_ACCESS_GetEnum E (MTP_path inst Param_Protocol)) <> USP_ERR_OK \/
  fst (DEVICE_MTP_GetStompReference INVALID E (MTP_path inst Param_STOMP_Reference))
    <> USP_ERR_OK \/
  fst (DM_ACCESS_GetString E (MTP_path inst Param_STOMP_Destination)) <> USP_ERR_OK \/
  (ENABLE_COAP = true /\
   (fst (DM_ACCESS_GetUnsigned E (MTP_path inst Param_CoAP_Port)) <> USP_ERR_OK \/
    fst (DM_ACCESS_GetString E (MTP_path inst Param_CoAP_Path)) <> USP_ERR_OK \/
    (let m := resolved_mtp INVALID ENABLE_COAP E inst in
     protocol m = kMtpProtocol_CoAP /\ enable m = true /\
     COAP_StartServer_result E inst (coap_port m) (coap_path m) <> USP_ERR_OK))).

Definition is_reconnect (c : call) : bool :=
  match c with
  | Call_DEVICE_STOMP_ScheduleReconnect _ => true
  | _ => false
  end.

(** The table that [DEVICE_MTP_Init] builds, with no call made yet. *)
Definition initial_world (INVALID : Z) : world :=
  Build_world (replicate MAX_AGENT_MTPS (set_instance INVALID zeroed_mtp)) [].

(** The test that ends [ProcessAgentMtpAdded]. *)
Definition affects_STOMP_connection (INVALID : Z) (m : agent_mtp_t) : bool :=
  enable m && protocol_eqb (protocol m) kMtpProtocol_STOMP
  && negb (stomp_connection_instance m =? INVALID).

(** Collaborators for which the read of STOMP.Destination fails. *)
Definition failing_env : dm_env :=
  example_env_with true (USP_ERR_INTERNAL_ERROR, None) USP_ERR_OK.

(** The calls by which [Notify_AgentMtpDeleted] turns off the protocol of an
    enabled slot. *)
Definition teardown (INVALID : Z) (ENABLE_COAP : bool) (m : agent_mtp_t) : list call :=
  match protocol m with
  | kMtpProtocol_STOMP => reconnect_if_set INVALID (stomp_connection_instance m)
  | kMtpProtocol_CoAP => if ENABLE_COAP then [Call_COAP_StopServer (instance m)] else []
  | kMtpProtocol_None => []
  end.

(** The calls by which the CoAP handlers restart the server of a slot. *)
Definition restart (inst1 : Z) (m : agent_mtp_t) : list call :=
  if protocol_eqb (protocol m) kMtpProtocol_CoAP && enable m
  then [Call_COAP_StopServer inst1;
        Call_COAP_StartServer (instance m) (coap_port m) (coap_path m)]
  else [].

(** The database row 7 is disabled. *)
Definition disabled_env : dm_env :=
  example_env_with false (USP_ERR_OK, Some "agent/7"%string) USP_ERR_OK.

(** The test of [DEVICE_MTP_NotifyStompConnDeleted] on a slot: in use, on
    STOMP, and referring to the deleted connection. *)
Definition refers_to (INVALID stomp_instance : Z) (mtp : agent_mtp_t) : bool :=
  negb (instance mtp =? INVALID)
  && protocol_eqb (protocol mtp) kMtpProtocol_STOMP
  && (stomp_connection_instance mtp =? stomp_instance).

(** The write that clears the persisted reference of a slot. *)
Definition clear_reference (mtp : agent_mtp_t) : call :=
  Call_DATA_MODEL_SetParameterValue (MTP_path (instance mtp) Param_STOMP_Reference) EmptyString.

Definition is_write (c : call) : bool :=
  match c with
  | Call_DATA_MODEL_SetParameterValue _ _ => true
  | _ => false
  end.

(** The state in which slot [i] of the table holds [m] and the calls made
    are [cs]. *)
Definition at_slot (tbl : list agent_mtp_t) (i : nat) (m : agent_mtp_t) (cs : list call)
  : world :=
  Build_world (<[i := m]> tbl) cs.

(** ** The start of the component and the other accessor *)

(** The answers of the collaborators that only these functions use: the
    instance numbers of the table in the database, the result of deleting
    an instance from it, and the destination that the STOMP server gave for
    a connection, as it is left in a buffer of the given length. *)
Record dm_table_env : Type := Build_dm_table_env {
  DATA_MODEL_GetInstances : usp_err * list Z;
  DATA_MODEL_DeleteInstance_result : Z -> usp_err;
  DEVICE_STOMP_GetDestinationFromServer : Z -> Z -> string
}.

Section DeviceMtpStart.

Variable INVALID : Z.
Variable ENABLE_COAP : bool.
Variable E : dm_env.
Variable T : dm_table_env.

(** Modelled from the spec: [DATA_MODEL_DeleteInstance] belongs to the data
    model, whose code is not part of these sources. Deleting the instance
    ["Device.LocalAgent.MTP.<inst>"] from the persisted store, when the
    store accepts it, notifies the delete handler that [DEVICE_MTP_Init]
    registers for the table, [Notify_AgentMtpDeleted]; that handler expects
    this call at startup, for an instance that was never added. *)
Definition DATA_MODEL_DeleteInstance (inst : Z) : M usp_err :=
  let err := DATA_MODEL_DeleteInstance_result T inst in
  if negb (is_ok err) then ret err
  else Notify_AgentMtpDeleted INVALID ENABLE_COAP inst.

(** The loop of [DEVICE_MTP_Start] over the vector [iv], from the entry
    that heads the list. Beside the error code, the result lists the
    instances that the function has asked the data model to delete, in
    order ([deleted] holds those of the entries already passed). *)
Fixpoint DEVICE_MTP_Start_loop (iv : list Z) (deleted : list Z) : M (usp_err * list Z) :=
  match iv with
  | [] => ret (USP_ERR_OK, deleted)
  | inst :: rest =>
      err <- ProcessAgentMtpAdded INVALID ENABLE_COAP E inst ;;
      if negb (is_ok err) then
        err <- DATA_MODEL_DeleteInstance inst ;;
        if negb (is_ok err) then ret (err, (deleted ++ [inst])%list)
        else DEVICE_MTP_Start_loop rest (deleted ++ [inst])%list
      else DEVICE_MTP_Start_loop rest deleted
  end.

Definition DEVICE_MTP_Start : M (usp_err * list Z) :=
  let '(err, iv) := DATA_MODEL_GetInstances T in
  if negb (is_ok err) then ret (err, [])
  else
    match iv with
    | [] => ret (USP_ERR_OK, [])
    | _ :: _ => DEVICE_MTP_Start_loop iv []
    end.

(** The error code and the text left in [buf]. *)
Definition Get_StompDestFromServer (inst1 : Z) (len : Z) : M (usp_err * string) :=
  let buf := EmptyString in
  mtp <- FindAgentMtpByInstance inst1 ;;
  i <- USP_ASSERT_not_NULL mtp ;;
  m <- load i ;;
  if enable m && protocol_eqb (protocol m) kMtpProtocol_STOMP then
    ret (USP_ERR_OK,
         DEVICE_STOMP_GetDestinationFromServer T (stomp_connection_instance m) len)
  else ret (USP_ERR_OK, buf).

End DeviceMtpStart.

(** ** Further notions used by the statements *)

(** One of the handlers that [DEVICE_MTP_Init] registers for the change of
    a parameter of the row [inst1]. *)
Inductive change_handler (INVALID : Z) (ENABLE_COAP : bool) (E : dm_env) (inst1 : Z)
  : M usp_err -> Prop :=
| change_Enable (val_bool : bool) :
    change_handler INVALID ENABLE_COAP E inst1
      (NotifyChange_AgentMtpEnable INVALID ENABLE_COAP E inst1 val_bool)
| change_Protocol (value : string) :
    change_handler INVALID ENABLE_COAP E inst1
      (NotifyChange_AgentMtpProtocol INVALID ENABLE_COAP E inst1 value)
| change_StompReference (value : string) :
    change_handler INVALID ENABLE_COAP E inst1
      (NotifyChange_AgentMtpStompReference INVALID E inst1 value)
| change_StompDestination (value : string) :
    change_handler INVALID ENABLE_COAP E inst1
      (NotifyChange_AgentMtpStompDestination INVALID inst1 value)
| change_CoAPPort (val_uint : Z) :
    change_handler INVALID ENABLE_COAP E inst1
      (NotifyChange_AgentMtpCoAPPort E inst1 val_uint)
| change_CoAPPath (value : string) :
    change_handler INVALID ENABLE_COAP E inst1
      (NotifyChange_AgentMtpCoAPPath E inst1 value).

(** A run that changed at most the slot [i], from [m] to [m'], kept its
    instance number, and made the calls [made]. *)
Definition changed_slot (w w' : world) (i : nat) (m m' : agent_mtp_t) (made : list call)
  : Prop :=
  agent_mtps w !! i = Some m /\
  w' = Build_world (<[i := m']> (agent_mtps w)) (calls w ++ made) /\
  instance m' = instance m.

(** What [DEVICE_MTP_Stop] does to a slot. *)
Definition stopped_mtp (INVALID : Z) (ENABLE_COAP : bool) (m : agent_mtp_t) : agent_mtp_t :=
  if instance m =? INVALID then m else destroyed INVALID ENABLE_COAP m.

(** The calls of the CoAP server that follow a change of protocol. *)
Definition protocol_switch (ENABLE_COAP : bool) (old_protocol : mtp_protocol_t)
                           (m : agent_mtp_t) : list call :=
  ((if ENABLE_COAP && protocol_eqb old_protocol kMtpProtocol_CoAP
    then [Call_COAP_StopServer (instance m)] else [])
   ++ (if ENABLE_COAP && protocol_eqb (protocol m) kMtpProtocol_CoAP
       then [Call_COAP_StartServer (instance m) (coap_port m) (coap_path m)] else []))%list.

(** The slot [mtp] after the cascade for the connection [c], and the calls
    that the cascade makes for it, when the store accepts the write and
    reads the reference back as empty. *)
Definition cascaded_mtp (INVALID c : Z) (mtp : agent_mtp_t) : agent_mtp_t :=
  if refers_to INVALID c mtp then set_stomp_connection_instance INVALID mtp else mtp.

Definition cascade_calls (INVALID c : Z) (mtp : agent_mtp_t) : list call :=
  if refers_to INVALID c mtp
  then clear_reference mtp
       :: (if enable mtp then [Call_DEVICE_STOMP_ScheduleReconnect c] else [])
  else [].

(** The instance numbers of the slots in use are pairwise distinct. *)
Definition instances_unique (INVALID : Z) (tbl : list agent_mtp_t) : Prop :=
  forall j k mj mk, tbl !! j = Some mj -> tbl !! k = Some mk ->
                    instance mj <> INVALID -> instance mj = instance mk -> j = k.

(** The reconnect that ends a successful population run of the row
    [inst]. *)
Definition population_reconnect (INVALID : Z) (ENABLE_COAP : bool) (E : dm_env) (inst : Z)
  : list call :=
  let r := resolved_mtp INVALID ENABLE_COAP E inst in
  if affects_STOMP_connection INVALID r
  then [Call_DEVICE_STOMP_ScheduleReconnect (stomp_connection_instance r)]
  else [].

(** Collaborators of the start for the examples: the rows 7, 8 and 9. *)
Definition example_table_env : dm_table_env :=
  Build_dm_table_env (USP_ERR_OK, [7; 8; 9]) (fun _ => USP_ERR_OK) (fun _ _ => "agent/reply"%string).

(** A store in which every reference reads back as empty. *)
Definition cleared_env : dm_env :=
  Build_dm_env
    (fun _ => (USP_ERR_OK, true))
    (fun _ => (USP_ERR_OK, kMtpProtocol_STOMP))
    (fun _ => (USP_ERR_OK, EmptyString))
    (fun _ => (USP_ERR_OK, 1))
    (fun _ => (USP_ERR_OK, Some EmptyString))
    (fun _ => (USP_ERR_OK, 5683))
    (fun _ _ _ => USP_ERR_OK)
    (fun _ => kMtpStatus_Up)
    (fun _ => kMtpStatus_Up)
    example_EnumToString
    (fun s _ => if String.eqb s "STOMP" then Some kMtpProtocol_STOMP
                else if String.eqb s "CoAP" then Some kMtpProtocol_CoAP else None)
    (fun s _ => s)
    USP_ERR_OK
    (fun _ _ => USP_ERR_OK).

(** The start of the CoAP server in a successful population run of the row
    [inst]. *)
Definition population_start (INVALID : Z) (ENABLE_COAP : bool) (E : dm_env) (inst : Z)
  : list call :=
  let r := resolved_mtp INVALID ENABLE_COAP E inst in
  if ENABLE_COAP && protocol_eqb (protocol r) kMtpProtocol_CoAP && enable r
  then [Call_COAP_StartServer inst (coap_port r) (coap_path r)]
  else [].

(** The call that [FindUnusedAgentMtp] makes when the table is full. *)
Definition no_slot_message : call :=
  Call_USP_ERR_SetMessage "FindUnusedAgentMtp: Only 5 agent MTPs are supported.".

(** The calls of a successful population run of the row [inst]. *)
Definition population_calls (INVALID : Z) (ENABLE_COAP : bool) (E : dm_env) (inst : Z)
  : list call :=
  (population_start INVALID ENABLE_COAP E inst
   ++ population_reconnect INVALID ENABLE_COAP E inst)%list.

(** A database with one row more than the table has slots. *)
Definition crowded_table_env : dm_table_env :=
  Build_dm_table_env (USP_ERR_OK, [1; 2; 3; 4; 5; 6]) (fun _ => USP_ERR_OK)
                     (fun _ _ => EmptyString).

Section FindSlot.
Variable p : agent_mtp_t -> bool.
Variable tbl : list agent_mtp_t.

Lemma find_slot_Some i n k :
  find_slot p tbl i n = Some k ->
  (i <= k < i + n)%nat /\
  (exists mtp, tbl !! k = Some mtp /\ p mtp = true) /\
  (forall j m, (i <= j < k)%nat -> tbl !! j = Some m -> p m = false).
Proof.
  revert i. induction n as [|n IH]; intros i H; simpl in H; [discriminate|].
  destruct (tbl !! i) as [mtp|] eqn:Hi.
  - destruct (p mtp) eqn:Hp.
    + inversion H; subst k. split; [lia|]. split; [eauto|]. intros; lia.
    + apply IH in H as (Hr & Hk & Hb). split; [lia|]. split; [exact Hk|].
      intros j m Hj Hm. destruct (decide (j = i)) as [->|Hne].
      * rewrite Hi in Hm. inversion Hm; subst. exact Hp.
      * apply (Hb j m); [lia|exact Hm].
  - apply IH in H as (Hr & Hk & Hb). split; [lia|]. split; [exact Hk|].
    intros j m Hj Hm. destruct (decide (j = i)) as [->|Hne].
    * rewrite Hi in Hm. discriminate.
    * apply (Hb j m); [lia|exact Hm].
Qed.

Lemma find_slot_None i n :
  find_slot p tbl i n = None ->
  forall j m, (i <= j < i + n)%nat -> tbl !! j = Some m -> p m = false.
Proof.
  revert i. induction n as [|n IH]; intros i H j m Hj Hm; [lia|].
  simpl in H. destruct (decide (j = i)) as [->|Hne].
  - rewrite Hm in H. destruct (p m); [discriminate|reflexivity].
  - destruct (tbl !! i) as [mtp|]; [destruct (p mtp); [discriminate|]|];
      apply (IH (S i) H j m); auto; lia.
Qed.

Lemma find_slot_first i n k mtp :
  (i <= k < i + n)%nat ->
  tbl !! k = Some mtp -> p mtp = true ->
  (forall j m, (i <= j < k)%nat -> tbl !! j = Some m -> p m = false) ->
  find_slot p tbl i n = Some k.
Proof.
  intros Hr Hk Hp Hb.
  destruct (find_slot p tbl i n) as [k'|] eqn:Hf.
  - apply find_slot_Some in Hf as (Hr' & (m' & Hk' & Hp') & Hb').
    f_equal. destruct (Nat.lt_trichotomy k' k) as [Hlt|[Heq|Hgt]]; [|exact Heq|].
    + rewrite (Hb k' m') in Hp'; [discriminate|lia|exact Hk'].
    + rewrite (Hb' k mtp) in Hp; [discriminate|lia|exact Hk].
  - rewrite (find_slot_None i n Hf k mtp) in Hp; [discriminate|lia|exact Hk].
Qed.

Lemma find_slot_exists i n k mtp :
  (i <= k < i + n)%nat -> tbl !! k = Some mtp -> p mtp = true ->
  exists k', find_slot p tbl i n = Some k'.
Proof.
  intros Hr Hk Hp. destruct (find_slot p tbl i n) as [k'|] eqn:Hf; [eauto|].
  rewrite (find_slot_None i n Hf k mtp) in Hp; [discriminate|lia|exact Hk].
Qed.
End FindSlot.

(** ** Running the handlers *)

Lemma bind_Some {A B} (m : M A) (k : A -> M B) w a w' :
  m w = Some (a, w') -> bind m k w = k a w'.
Proof. unfold bind. intros ->. reflexivity. Qed.

Lemma bind_ret {A B} (a : A) (k : A -> M B) w : bind (ret a) k w = k a w.
Proof. reflexivity. Qed.

Lemma bind_assoc {A B C} (m : M A) (f : A -> M B) (k : B -> M C) w :
  bind (bind m f) k w = bind m (fun x => bind (f x) k) w.
Proof. unfold bind. destruct (m w) as [[a w']|]; reflexivity. Qed.

Lemma load_Some i w m :
  agent_mtps w !! i = Some m -> load i w = Some (m, w).
Proof. unfold load. intros ->. reflexivity. Qed.

Lemma update_Some i f w m :
  agent_mtps w !! i = Some m ->
  update i f w = Some (tt, Build_world (<[i := f m]> (agent_mtps w)) (calls w)).
Proof. unfold update. intros ->. reflexivity. Qed.

Lemma lookup_updated (tbl : list agent_mtp_t) i m m' :
  tbl !! i = Some m -> <[i := m']> tbl !! i = Some m'.
Proof. intros H. apply list_lookup_insert_eq. eapply lookup_lt_Some, H. Qed.

Lemma FindAgentMtpByInstance_Some inst w i w' :
  FindAgentMtpByInstance inst w = Some (Some i, w') ->
  w' = w /\ exists m, agent_mtps w !! i = Some m /\ instance m = inst.
Proof.
  intros H.
  change (Some (find_slot (fun mtp => instance mtp =? inst) (agent_mtps w) 0 MAX_AGENT_MTPS, w)
          = Some (Some i, w')) in H.
  assert (Hw : w' = w) by congruence.
  assert (Hf : find_slot (fun mtp => instance mtp =? inst) (agent_mtps w) 0 MAX_AGENT_MTPS
               = Some i) by congruence.
  clear H. split; [exact Hw|].
  apply find_slot_Some in Hf as (_ & (m & Hm & Hp) & _).
  exists m. split; [exact Hm|]. apply Z.eqb_eq. exact Hp.
Qed.

(** One step of a handler whose next action is a read or a write of the
    slot [i], known to hold [m]. *)
Ltac run_slot :=
  repeat first
    [ erewrite (bind_Some (load _)) by (apply load_Some; cbn [agent_mtps];
                                        first [eassumption | eapply lookup_updated; eassumption])
    | erewrite (bind_Some (update _ _)) by (apply update_Some; cbn [agent_mtps];
                                            first [eassumption | eapply lookup_updated; eassumption])
    | rewrite list_insert_insert_eq
    | progress cbn [agent_mtps calls] ].

(** ** The slot store *)

Lemma FindUnusedAgentMtp_table INVALID w r w' :
  FindUnusedAgentMtp INVALID w = Some (r, w') -> agent_mtps w' = agent_mtps w.
Proof.
  unfold FindUnusedAgentMtp, bind, get_table.
  destruct (find_slot _ _ _ _); cbn; intros H; inversion H; reflexivity.
Qed.

(** C5: with every slot of the table in use, the add validation fails with
    [USP_ERR_RESOURCES_EXCEEDED]; with a free slot it succeeds; in both
    cases it returns and leaves every slot as it was. *)
Theorem ValidateAdd_AgentMtp_capacity (INVALID : Z) (w : world) :
  table_ok w ->
  exists err w',
    ValidateAdd_AgentMtp INVALID w = Some (err, w') /\
    agent_mtps w' = agent_mtps w /\
    ((forall i mtp, agent_mtps w !! i = Some mtp -> instance mtp <> INVALID) ->
       err = USP_ERR_RESOURCES_EXCEEDED) /\
    ((exists i mtp, agent_mtps w !! i = Some mtp /\ instance mtp = INVALID) ->
       err = USP_ERR_OK).
Proof.
  intros Hlen. unfold ValidateAdd_AgentMtp, FindUnusedAgentMtp, bind, get_table.
  destruct (find_slot _ (agent_mtps w) 0 MAX_AGENT_MTPS) as [k|] eqn:Hf; cbn.
  - exists USP_ERR_OK, w. repeat split; auto.
    intros Hfull. apply find_slot_Some in Hf as (_ & (mtp & Hk & Hp) & _).
    apply Z.eqb_eq in Hp. elim (Hfull k mtp Hk Hp).
  - eexists _, _. split; [reflexivity|]. repeat split; auto.
    intros (i & mtp & Hi & Hfree).
    apply lookup_lt_Some in Hi as Hlt. rewrite Hlen in Hlt.
    assert (Hp : (instance mtp =? INVALID) = false)
      by (apply (find_slot_None _ _ _ _ Hf i mtp); [lia|exact Hi]).
    apply Z.eqb_neq in Hp. contradiction.
Qed.

Lemma ValidateAdd_AgentMtp_capacity_witness :
  exists err w',
    ValidateAdd_AgentMtp (-1) full_world = Some (err, w') /\
    agent_mtps w' = agent_mtps full_world /\
    ((forall i mtp, agent_mtps full_world !! i = Some mtp -> instance mtp <> -1) ->
       err = USP_ERR_RESOURCES_EXCEEDED) /\
    ((exists i mtp, agent_mtps full_world !! i = Some mtp /\ instance mtp = -1) ->
       err = USP_ERR_OK).
Proof. apply (ValidateAdd_AgentMtp_capacity (-1) full_world). reflexivity. Defined.

(** C10: the search by instance looks only at the instance number, so with
    the value [INVALID], which free slots carry, it returns the first free
    slot of the table instead of [NULL]. *)
Theorem FindAgentMtpByInstance_INVALID_returns_free_slot (INVALID : Z) (w : world) :
  table_ok w ->
  (exists k mtp, agent_mtps w !! k = Some mtp /\ instance mtp = INVALID) ->
  exists i mtp,
    FindAgentMtpByInstance INVALID w = Some (Some i, w) /\
    agent_mtps w !! i = Some mtp /\ instance mtp = INVALID /\
    (forall j m, (j < i)%nat -> agent_mtps w !! j = Some m -> instance m <> INVALID).
Proof.
  intros Hlen (k & mtp & Hk & Hfree).
  apply lookup_lt_Some in Hk as Hlt. rewrite Hlen in Hlt.
  destruct (find_slot_exists (fun m => instance m =? INVALID) (agent_mtps w)
              0 MAX_AGENT_MTPS k mtp) as [i Hf];
    [lia | exact Hk | apply Z.eqb_eq; exact Hfree |].
  unfold FindAgentMtpByInstance, bind, get_table, ret. rewrite Hf.
  apply find_slot_Some in Hf as (_ & (m & Hi & Hp) & Hb).
  exists i, m. repeat split; auto.
  - apply Z.eqb_eq. exact Hp.
  - intros j m' Hj Hm'. apply Z.eqb_neq. apply (Hb j m'); [lia|exact Hm'].
Qed.

Lemma FindAgentMtpByInstance_INVALID_returns_free_slot_witness :
  exists i mtp,
    FindAgentMtpByInstance (-1) partial_world = Some (Some i, partial_world) /\
    agent_mtps partial_world !! i = Some mtp /\ instance mtp = -1 /\
    (forall j m, (j < i)%nat -> agent_mtps partial_world !! j = Some m -> instance m <> -1).
Proof.
  apply (FindAgentMtpByInstance_INVALID_returns_free_slot (-1) partial_world).
  - reflexivity.
  - exists 2%nat, free_mtp. split; reflexivity.
Defined.

Example DEVICE_MTP_Init_initial_world :
  DEVICE_MTP_Init (-1) example_env (Build_world [] [])
  = Some (USP_ERR_OK, initial_world (-1)).
Proof. reflexivity. Qed.

(** After [DEVICE_MTP_Init] the search for [INVALID] answers with slot 0. *)
Lemma FindAgentMtpByInstance_INVALID_after_Init INVALID E w :
  exists w', DEVICE_MTP_Init INVALID E w = Some (if is_ok (USP_REGISTER_result E)
                                                 then USP_ERR_OK
                                                 else USP_ERR_INTERNAL_ERROR, w') /\
             table_ok w' /\
             FindAgentMtpByInstance INVALID w' = Some (Some 0%nat, w').
Proof.
  unfold DEVICE_MTP_Init, bind. cbn.
  eexists. split.
  - destruct (is_ok (USP_REGISTER_result E)); reflexivity.
  - split; [reflexivity|].
    unfold FindAgentMtpByInstance, bind, get_table, ret. cbn.
    rewrite Z.eqb_refl. reflexivity.
Qed.

Section QueueLoop.
Variable INVALID : Z.
Variable tbl : list agent_mtp_t.
Variable c : Z.
Hypothesis Howned : queues_owned INVALID tbl.

Lemma queue_candidate_test mtp q :
  stomp_agent_queue mtp = Some q ->
  (negb (instance mtp =? INVALID) && enable mtp
   && (stomp_connection_instance mtp =? c)
   && protocol_eqb (protocol mtp) kMtpProtocol_STOMP = true /\ is_empty q = false)
  <-> queue_candidate INVALID c mtp q.
Proof.
  intros Hq. unfold queue_candidate. rewrite !andb_true_iff, negb_true_iff.
  rewrite Z.eqb_neq, Z.eqb_eq. split.
  - intros ((((H1 & H2) & H3) & H4) & H5). repeat split; auto.
    + destruct (protocol mtp); try discriminate; reflexivity.
    + intros ->. discriminate.
  - intros (H1 & H2 & H3 & H4 & _ & H6). repeat split; auto.
    + rewrite H3. reflexivity.
    + destruct q; [contradiction|reflexivity].
Qed.

Lemma DEVICE_MTP_GetAgentStompQueue_loop_spec i n :
  exists r,
    DEVICE_MTP_GetAgentStompQueue_loop INVALID tbl c i n = Some r /\
    match r with
    | Some q =>
        exists k mtp, (i <= k < i + n)%nat /\ tbl !! k = Some mtp /\
          queue_candidate INVALID c mtp q /\
          (forall j m q', (i <= j < k)%nat -> tbl !! j = Some m ->
                          ~ queue_candidate INVALID c m q')
    | None =>
        forall j m q', (i <= j < i + n)%nat -> tbl !! j = Some m ->
                       ~ queue_candidate INVALID c m q'
    end.
Proof.
  revert i. induction n as [|n IH]; intros i; simpl.
  - exists None. split; [reflexivity|]. intros; lia.
  - destruct (IH (S i)) as (r & Hr & Hspec).
    assert (Hskip : (forall q', tbl !! i = None \/
                       exists m, tbl !! i = Some m /\ ~ queue_candidate INVALID c m q') ->
              match r with
              | Some q =>
                  exists k mtp, (i <= k < i + S n)%nat /\ tbl !! k = Some mtp /\
                    queue_candidate INVALID c mtp q /\
                    (forall j m q', (i <= j < k)%nat -> tbl !! j = Some m ->
                                    ~ queue_candidate INVALID c m q')
              | None =>
                  forall j m q', (i <= j < i + S n)%nat -> tbl !! j = Some m ->
                                 ~ queue_candidate INVALID c m q'
              end).
    { intros Hi. destruct r as [q|].
      - destruct Hspec as (k & mtp & Hk & Hl & Hc & Hb).
        exists k, mtp. split; [lia|]. split; [exact Hl|]. split; [exact Hc|].
        intros j m q' Hj Hm. destruct (decide (j = i)) as [->|Hne].
        + destruct (Hi q') as [Hn|(m' & Hm' & Hnc)]; [congruence|].
          rewrite Hm in Hm'. inversion Hm'; subst. exact Hnc.
        + apply (Hb j m q'); [lia|exact Hm].
      - intros j m q' Hj Hm. destruct (decide (j = i)) as [->|Hne].
        + destruct (Hi q') as [Hn|(m' & Hm' & Hnc)]; [congruence|].
          rewrite Hm in Hm'. inversion Hm'; subst. exact Hnc.
        + apply (Hspec j m q'); [lia|exact Hm]. }
    destruct (tbl !! i) as [mtp|] eqn:Hi.
    + destruct (negb (instance mtp =? INVALID) && enable mtp
                && (stomp_connection_instance mtp =? c)
                && protocol_eqb (protocol mtp) kMtpProtocol_STOMP) eqn:Ht.
      * destruct (stomp_agent_queue mtp) as [q|] eqn:Hq.
        -- destruct (is_empty q) eqn:He; simpl.
           ++ exists r. split; [exact Hr|]. apply Hskip. intros q'. right.
              exists mtp. split; [reflexivity|].
              intros (_ & _ & _ & _ & Hq' & Hne). rewrite Hq in Hq'.
              inversion Hq'; subst. destruct q'; [contradiction|discriminate].
           ++ exists (Some q). split; [reflexivity|].
              exists i, mtp. split; [lia|]. split; [exact Hi|].
              split; [apply queue_candidate_test; auto|]. intros; lia.
        -- exfalso. apply (Howned i mtp Hi); [|exact Hq].
           rewrite !andb_true_iff, negb_true_iff in Ht.
           apply Z.eqb_neq. tauto.
      * exists r. split; [exact Hr|]. apply Hskip. intros q'. right.
        exists mtp. split; [reflexivity|].
        intros Hc. pose proof Hc as (_ & _ & _ & _ & Hq' & _).
        apply (queue_candidate_test mtp q' Hq') in Hc as [Hc _]. congruence.
    + exists r. split; [exact Hr|]. apply Hskip. intros q'. left. reflexivity.
Qed.
End QueueLoop.

(** C8: the queue name for a STOMP connection is the one stored in the
    first slot, in the order of the table, that is in use, enabled, on
    STOMP, bound to that connection and has a non-empty queue name; the
    answer is [NULL] exactly when the table has no such slot. *)
Theorem DEVICE_MTP_GetAgentStompQueue_first_match (INVALID c : Z) (w : world) :
  table_ok w ->
  queues_owned INVALID (agent_mtps w) ->
  exists r,
    DEVICE_MTP_GetAgentStompQueue INVALID c w = Some (r, w) /\
    (forall q, r = Some q <->
       exists i mtp, agent_mtps w !! i = Some mtp /\
         queue_candidate INVALID c mtp q /\
         (forall j m q', (j < i)%nat -> agent_mtps w !! j = Some m ->
                         ~ queue_candidate INVALID c m q')) /\
    (r = None <->
       forall i mtp q, agent_mtps w !! i = Some mtp -> ~ queue_candidate INVALID c mtp q).
Proof.
  intros Hlen Howned.
  destruct (DEVICE_MTP_GetAgentStompQueue_loop_spec INVALID (agent_mtps w) c Howned
              0 MAX_AGENT_MTPS) as (r & Hr & Hspec).
  exists r. unfold DEVICE_MTP_GetAgentStompQueue, bind, get_table. cbv beta iota.
  rewrite Hr.
  split; [reflexivity|].
  assert (Hin : forall i mtp, agent_mtps w !! i = Some mtp -> (0 <= i < 0 + MAX_AGENT_MTPS)%nat).
  { intros i mtp Hi. apply lookup_lt_Some in Hi. rewrite Hlen in Hi. lia. }
  destruct r as [q0|].
  - destruct Hspec as (k & mtp & Hk & Hl & Hc & Hb). split.
    + intros q. split.
      * intros Hq. inversion Hq; subst q0. exists k, mtp. split; [exact Hl|].
        split; [exact Hc|]. intros j m q' Hj Hm. apply (Hb j m q'); [lia|exact Hm].
      * intros (i & m & Hi & Hci & Hbi).
        destruct (Nat.lt_trichotomy i k) as [Hlt|[Heq|Hgt]].
        -- elim (Hb i m q); [lia|exact Hi|exact Hci].
        -- subst i. rewrite Hl in Hi. inversion Hi; subst m.
           destruct Hc as (_ & _ & _ & _ & Hq1 & _).
           destruct Hci as (_ & _ & _ & _ & Hq2 & _). congruence.
        -- elim (Hbi k mtp q0); [lia|exact Hl|exact Hc].
    + split; [discriminate|]. intros Hnone. elim (Hnone k mtp q0 Hl Hc).
  - split.
    + intros q. split; [discriminate|].
      intros (i & m & Hi & Hci & _). elim (Hspec i m q (Hin i m Hi) Hi Hci).
    + split; [|reflexivity]. intros _ i mtp q Hi. apply (Hspec i mtp q (Hin i mtp Hi) Hi).
Qed.

Lemma DEVICE_MTP_GetAgentStompQueue_first_match_witness :
  exists r,
    DEVICE_MTP_GetAgentStompQueue (-1) 1 partial_world = Some (r, partial_world) /\
    (forall q, r = Some q <->
       exists i mtp, agent_mtps partial_world !! i = Some mtp /\
         queue_candidate (-1) 1 mtp q /\
         (forall j m q', (j < i)%nat -> agent_mtps partial_world !! j = Some m ->
                         ~ queue_candidate (-1) 1 m q')) /\
    (r = None <->
       forall i mtp q, agent_mtps partial_world !! i = Some mtp ->
                       ~ queue_candidate (-1) 1 mtp q).
Proof.
  apply (DEVICE_MTP_GetAgentStompQueue_first_match (-1) 1 partial_world).
  - reflexivity.
  - intros i mtp Hi Hused.
    destruct i as [|[|[|[|[|i]]]]]; simpl in Hi; inversion Hi; subst mtp;
      solve [discriminate | elim Hused; reflexivity].
Defined.

(** On [partial_world] slot 0 is bound to connection 1 but its queue name is
    empty and slot 1 is disabled: the answer is the queue of slot 3. *)
Example DEVICE_MTP_GetAgentStompQueue_partial_world :
  DEVICE_MTP_GetAgentStompQueue (-1) 1 partial_world
  = Some (Some "agent/4"%string, partial_world).
Proof. reflexivity. Qed.

(** ** The status of an MTP *)

(** C7: the status reported for a slot is Down when the slot is disabled,
    whatever its protocol and whatever the transports report; when it is
    enabled, it is the status of the STOMP connection on STOMP, the status of
    the CoAP server on CoAP (when CoAP is compiled in) and Error with no
    protocol. *)
Theorem Get_MtpStatus_by_enable_and_protocol
    (ENABLE_COAP : bool) (E : dm_env) (w : world) (inst1 len : Z) (i : nat) (m : agent_mtp_t) :
  FindAgentMtpByInstance inst1 w = Some (Some i, w) ->
  agent_mtps w !! i = Some m ->
  exists status,
    Get_MtpStatus ENABLE_COAP E inst1 len w
    = Some ((USP_ERR_OK,
             USP_STRNCPY E (TEXT_UTILS_EnumToString E status mtp_statuses) len), w) /\
    (enable m = false -> status = kMtpStatus_Down) /\
    (enable m = true -> protocol m = kMtpProtocol_STOMP ->
     status = DEVICE_STOMP_GetMtpStatus E (stomp_connection_instance m)) /\
    (enable m = true -> protocol m = kMtpProtocol_CoAP -> ENABLE_COAP = true ->
     status = COAP_GetServerStatus E (instance m)) /\
    (enable m = true -> protocol m = kMtpProtocol_None -> status = kMtpStatus_Error).
Proof.
  intros Hfind Hm. exists (Get_MtpStatus_status ENABLE_COAP E m). split.
  - unfold Get_MtpStatus. rewrite (bind_Some _ _ _ _ _ Hfind).
    cbn [USP_ASSERT_not_NULL]. rewrite bind_ret.
    run_slot. reflexivity.
  - unfold Get_MtpStatus_status.
    repeat split; intros He; rewrite He; try reflexivity.
    + intros ->. reflexivity.
    + intros -> ->. reflexivity.
    + intros ->. reflexivity.
Qed.

Lemma Get_MtpStatus_by_enable_and_protocol_witness :
  exists status,
    Get_MtpStatus true example_env 2 16 full_world
    = Some ((USP_ERR_OK,
             USP_STRNCPY example_env
               (TEXT_UTILS_EnumToString example_env status mtp_statuses) 16), full_world) /\
    (enable (stomp_mtp 2 false 1 "agent/2") = false -> status = kMtpStatus_Down) /\
    (enable (stomp_mtp 2 false 1 "agent/2") = true ->
     protocol (stomp_mtp 2 false 1 "agent/2") = kMtpProtocol_STOMP ->
     status = DEVICE_STOMP_GetMtpStatus example_env
                (stomp_connection_instance (stomp_mtp 2 false 1 "agent/2"))) /\
    (enable (stomp_mtp 2 false 1 "agent/2") = true ->
     protocol (stomp_mtp 2 false 1 "agent/2") = kMtpProtocol_CoAP -> true = true ->
     status = COAP_GetServerStatus example_env (instance (stomp_mtp 2 false 1 "agent/2"))) /\
    (enable (stomp_mtp 2 false 1 "agent/2") = true ->
     protocol (stomp_mtp 2 false 1 "agent/2") = kMtpProtocol_None ->
     status = kMtpStatus_Error).
Proof.
  apply (Get_MtpStatus_by_enable_and_protocol true example_env full_world 2 16 1%nat);
    reflexivity.
Defined.

(** The disabled slot 2 of [full_world] reports Down although its STOMP
    connection is up. *)
Example Get_MtpStatus_disabled_slot :
  Get_MtpStatus true example_env 2 16 full_world = Some ((USP_ERR_OK, "Down"%string), full_world)
  /\ DEVICE_STOMP_GetMtpStatus example_env 1 = kMtpStatus_Up.
Proof. split; reflexivity. Qed.

(** ** The change of the STOMP reference *)

Lemma protocol_eqb_eq a b : protocol_eqb a b = true <-> a = b.
Proof. destruct a, b; simpl; split; congruence. Qed.

Lemma protocol_eqb_neq a b : protocol_eqb a b = false <-> a <> b.
Proof. destruct a, b; simpl; split; congruence. Qed.

Lemma is_ok_true err : is_ok err = true <-> err = USP_ERR_OK.
Proof. destruct err; simpl; split; congruence. Qed.

Lemma is_ok_false err : is_ok err = false <-> err <> USP_ERR_OK.
Proof. destruct err; simpl; split; congruence. Qed.

(** The two ways in which the reference change handler ends, for a slot
    that is found. *)
Lemma NotifyChange_AgentMtpStompReference_run
    (INVALID : Z) (E : dm_env) (w : world) (inst1 : Z) (value : string)
    (i : nat) (m : agent_mtp_t) (err : usp_err) (new_ref : Z) :
  FindAgentMtpByInstance inst1 w = Some (Some i, w) ->
  agent_mtps w !! i = Some m ->
  DEVICE_MTP_GetStompReference INVALID E (MTP_path inst1 Param_STOMP_Reference)
  = (err, new_ref) ->
  (err <> USP_ERR_OK ->
   NotifyChange_AgentMtpStompReference INVALID E inst1 value w
   = Some (err, Build_world (<[i := set_stomp_connection_instance INVALID m]> (agent_mtps w))
                            (calls w))) /\
  (err = USP_ERR_OK ->
   exists scheduled,
     NotifyChange_AgentMtpStompReference INVALID E inst1 value w
     = Some (USP_ERR_OK,
             Build_world (<[i := set_stomp_connection_instance new_ref m]> (agent_mtps w))
                         (calls w ++ scheduled)) /\
     (enable m = true -> protocol m = kMtpProtocol_STOMP ->
      stomp_connection_instance m <> new_ref ->
      scheduled = (reconnect_if_set INVALID (stomp_connection_instance m)
                   ++ reconnect_if_set INVALID new_ref)%list) /\
     (enable m = false \/ protocol m <> kMtpProtocol_STOMP \/
      stomp_connection_instance m = new_ref ->
      scheduled = [])).
Proof.
  intros Hfind Hm Hget.
  unfold NotifyChange_AgentMtpStompReference.
  rewrite (bind_Some _ _ _ _ _ Hfind). cbn [USP_ASSERT_not_NULL].
  rewrite bind_ret. rewrite Hget.
  split.
  - intros Herr. apply is_ok_false in Herr. rewrite Herr. cbn [negb].
    run_slot. reflexivity.
  - intros ->. cbn [is_ok negb]. run_slot.
    set (last := stomp_connection_instance m).
    cbn [set_stomp_connection_instance enable protocol].
    exists (if enable m && protocol_eqb (protocol m) kMtpProtocol_STOMP
               && negb (last =? new_ref)
            then (reconnect_if_set INVALID last ++ reconnect_if_set INVALID new_ref)%list
            else []).
    split; [|split].
    + unfold when, reconnect_if_set, DEVICE_STOMP_ScheduleReconnect, emit, bind, ret.
      destruct (enable m), (protocol_eqb (protocol m) kMtpProtocol_STOMP),
        (last =? new_ref), (last =? INVALID), (new_ref =? INVALID);
        cbn; rewrite <- ?app_assoc, ?app_nil_r; reflexivity.
    + intros -> Hp Hne. apply protocol_eqb_eq in Hp. rewrite Hp.
      apply Z.eqb_neq in Hne. fold last in Hne. rewrite Hne. reflexivity.
    + intros [He|[Hp|Heq]].
      * rewrite He. reflexivity.
      * apply protocol_eqb_neq in Hp. rewrite Hp, andb_false_r. reflexivity.
      * apply Z.eqb_eq in Heq. fold last in Heq. rewrite Heq, andb_false_r. reflexivity.
Qed.

(** C4: when the new reference cannot be resolved, the reference of the
    slot becomes [INVALID] and the error is returned; when it resolves, it is
    stored, and if the slot is enabled, on STOMP, and the reference differs
    from the previous one, a reconnect is scheduled for the previous
    connection if it was set and then for the new one if it is set; in every
    other case nothing is scheduled. *)
Theorem NotifyChange_AgentMtpStompReference_reconnects
    (INVALID : Z) (E : dm_env) (w : world) (inst1 : Z) (value : string)
    (i : nat) (m : agent_mtp_t) (err : usp_err) (new_ref : Z) :
  FindAgentMtpByInstance inst1 w = Some (Some i, w) ->
  agent_mtps w !! i = Some m ->
  DEVICE_MTP_GetStompReference INVALID E (MTP_path inst1 Param_STOMP_Reference)
  = (err, new_ref) ->
  (err <> USP_ERR_OK ->
   NotifyChange_AgentMtpStompReference INVALID E inst1 value w
   = Some (err, Build_world (<[i := set_stomp_connection_instance INVALID m]> (agent_mtps w))
                            (calls w))) /\
  (err = USP_ERR_OK ->
   exists scheduled,
     NotifyChange_AgentMtpStompReference INVALID E inst1 value w
     = Some (USP_ERR_OK,
             Build_world (<[i := set_stomp_connection_instance new_ref m]> (agent_mtps w))
                         (calls w ++ scheduled)) /\
     (enable m = true -> protocol m = kMtpProtocol_STOMP ->
      stomp_connection_instance m <> new_ref ->
      scheduled = (reconnect_if_set INVALID (stomp_connection_instance m)
                   ++ reconnect_if_set INVALID new_ref)%list) /\
     (enable m = false \/ protocol m <> kMtpProtocol_STOMP \/
      stomp_connection_instance m = new_ref ->
      scheduled = [])).
Proof. apply NotifyChange_AgentMtpStompReference_run. Qed.

Lemma NotifyChange_AgentMtpStompReference_reconnects_witness :
  (USP_ERR_OK <> USP_ERR_OK ->
   NotifyChange_AgentMtpStompReference (-1) example_env 4 EmptyString full_world
   = Some (USP_ERR_OK,
           Build_world (<[3%nat := set_stomp_connection_instance (-1)
                                      (stomp_mtp 4 true 2 EmptyString)]> (agent_mtps full_world))
                       (calls full_world))) /\
  (USP_ERR_OK = USP_ERR_OK ->
   exists scheduled,
     NotifyChange_AgentMtpStompReference (-1) example_env 4 EmptyString full_world
     = Some (USP_ERR_OK,
             Build_world (<[3%nat := set_stomp_connection_instance 1
                                        (stomp_mtp 4 true 2 EmptyString)]> (agent_mtps full_world))
                         (calls full_world ++ scheduled)) /\
     (enable (stomp_mtp 4 true 2 EmptyString) = true ->
      protocol (stomp_mtp 4 true 2 EmptyString) = kMtpProtocol_STOMP ->
      stomp_connection_instance (stomp_mtp 4 true 2 EmptyString) <> 1 ->
      scheduled = (reconnect_if_set (-1) (stomp_connection_instance (stomp_mtp 4 true 2 EmptyString))
                   ++ reconnect_if_set (-1) 1)%list) /\
     (enable (stomp_mtp 4 true 2 EmptyString) = false \/
      protocol (stomp_mtp 4 true 2 EmptyString) <> kMtpProtocol_STOMP \/
      stomp_connection_instance (stomp_mtp 4 true 2 EmptyString) = 1 ->
      scheduled = [])).
Proof.
  apply (NotifyChange_AgentMtpStompReference_reconnects
           (-1) example_env full_world 4 EmptyString 3%nat (stomp_mtp 4 true 2 EmptyString) USP_ERR_OK 1);
    reflexivity.
Defined.

(** Slot 4 of [full_world] moves from connection 2 to connection 1: two
    reconnects, the previous connection first. *)
Example NotifyChange_AgentMtpStompReference_two_reconnects :
  outcome (NotifyChange_AgentMtpStompReference (-1) example_env 4 EmptyString full_world)
  = Some (USP_ERR_OK,
          [Call_DEVICE_STOMP_ScheduleReconnect 2; Call_DEVICE_STOMP_ScheduleReconnect 1]).
Proof. reflexivity. Qed.

(** ** Population of a slot *)

Section AtSlot.
Variable tbl : list agent_mtp_t.
Variable i : nat.
Hypothesis Hi : (i < length tbl)%nat.

Lemma at_slot_load {B} (k : agent_mtp_t -> M B) m cs :
  bind (load i) k (at_slot tbl i m cs) = k m (at_slot tbl i m cs).
Proof.
  unfold bind, load, at_slot. cbn [agent_mtps].
  rewrite list_lookup_insert_eq by exact Hi. reflexivity.
Qed.

Lemma at_slot_update {B} f (k : unit -> M B) m cs :
  bind (update i f) k (at_slot tbl i m cs) = k tt (at_slot tbl i (f m) cs).
Proof.
  unfold bind, update, at_slot. cbn [agent_mtps calls].
  rewrite list_lookup_insert_eq by exact Hi.
  rewrite list_insert_insert_eq. reflexivity.
Qed.

Lemma at_slot_emit {B} c (k : unit -> M B) m cs :
  bind (emit c) k (at_slot tbl i m cs) = k tt (at_slot tbl i m (cs ++ [c])).
Proof. reflexivity. Qed.

Lemma at_slot_update_last f m cs :
  update i f (at_slot tbl i m cs) = Some (tt, at_slot tbl i (f m) cs).
Proof.
  unfold update, at_slot. cbn [agent_mtps calls].
  rewrite list_lookup_insert_eq by exact Hi.
  rewrite list_insert_insert_eq. reflexivity.
Qed.
End AtSlot.

Lemma at_slot_here w i m :
  agent_mtps w !! i = Some m -> w = at_slot (agent_mtps w) i m (calls w).
Proof.
  intros Hm. unfold at_slot. rewrite list_insert_id by exact Hm.
  destruct w; reflexivity.
Qed.

Ltac at_slot_step Hi :=
  repeat first
    [ rewrite (at_slot_load _ _ Hi)
    | rewrite (at_slot_update _ _ Hi)
    | rewrite (at_slot_update_last _ _ Hi)
    | rewrite at_slot_emit
    | rewrite bind_ret
    | progress cbn [when negb is_ok andb fst snd enable protocol instance
                    stomp_connection_instance stomp_agent_queue coap_port coap_path
                    set_enable set_protocol set_instance set_stomp_connection_instance
                    set_stomp_agent_queue set_coap_port set_coap_path protocol_eqb] ].

Ltac ok_case e :=
  let H := fresh "Hok" in
  destruct (is_ok e) eqn:H;
  [apply is_ok_true in H; subst e | apply is_ok_false in H].

Ltac population_stops :=
  eexists _, _, []; rewrite app_nil_r; split; [reflexivity|];
  split; [unfold destroyed;
          repeat match goal with
                 | |- context [if ?b then _ else _] => is_var b; destruct b
                 end; reflexivity|];
  split; [reflexivity|];
  split; [intros _; reflexivity|];
  split; [first [intros; reflexivity | congruence]|];
  cbn; intuition congruence.

Lemma ProcessAgentMtpAdded_reads_run INVALID ENABLE_COAP E tbl i inst cs :
  (i < length tbl)%nat ->
  exists err m' cs',
    ProcessAgentMtpAdded_reads INVALID ENABLE_COAP E i inst
      (at_slot tbl i (set_stomp_connection_instance INVALID (set_instance inst zeroed_mtp)) cs)
    = Some (err, at_slot tbl i m' (cs ++ cs')) /\
    destroyed INVALID ENABLE_COAP m' = released_mtp INVALID /\
    List.filter is_reconnect cs' = [] /\
    (protocol m' <> kMtpProtocol_CoAP -> cs' = []) /\
    (err = USP_ERR_OK -> m' = resolved_mtp INVALID ENABLE_COAP E inst) /\
    (population_fails INVALID ENABLE_COAP E inst <-> err <> USP_ERR_OK).
Proof.
  intros Hi. unfold ProcessAgentMtpAdded_reads, population_fails, resolved_mtp.
  destruct (DM_ACCESS_GetBool E (MTP_path inst Param_Enable)) as [e1 v1].
  destruct (DM_ACCESS_GetEnum E (MTP_path inst Param_Protocol)) as [e2 v2].
  destruct (DEVICE_MTP_GetStompReference INVALID E (MTP_path inst Param_STOMP_Reference))
    as [e3 v3].
  destruct (DM_ACCESS_GetString E (MTP_path inst Param_STOMP_Destination)) as [e4 v4].
  destruct (DM_ACCESS_GetUnsigned E (MTP_path inst Param_CoAP_Port)) as [e5 v5].
  destruct (DM_ACCESS_GetString E (MTP_path inst Param_CoAP_Path)) as [e6 v6].
  cbn [fst snd].
  ok_case e1; at_slot_step Hi; [|population_stops].
  ok_case e2; at_slot_step Hi; [|population_stops].
  ok_case e3; at_slot_step Hi; [|population_stops].
  ok_case e4; at_slot_step Hi; [|population_stops].
  destruct ENABLE_COAP; [|population_stops].
  at_slot_step Hi.
  ok_case e5; at_slot_step Hi; [|population_stops].
  ok_case e6; at_slot_step Hi; [|population_stops].
  destruct v2, v1; at_slot_step Hi; try population_stops.
  unfold COAP_StartServer. rewrite bind_assoc, at_slot_emit, bind_ret.
  destruct (is_ok (COAP_StartServer_result E inst v5 v6)) eqn:Hs; cbn [negb];
    [apply is_ok_true in Hs | apply is_ok_false in Hs].
  - eexists _, _, [_]. split; [reflexivity|]. rewrite Hs.
    repeat split; try reflexivity; try tauto; intuition congruence.
  - eexists _, _, [_]. split; [reflexivity|].
    repeat split; try reflexivity; try tauto; intuition congruence.
Qed.

Lemma FindUnusedAgentMtp_Some INVALID w i w' :
  FindUnusedAgentMtp INVALID w = Some (Some i, w') ->
  w' = w /\ exists m, agent_mtps w !! i = Some m /\ instance m = INVALID.
Proof.
  unfold FindUnusedAgentMtp, bind, get_table. cbv beta iota.
  destruct (find_slot _ (agent_mtps w) 0 MAX_AGENT_MTPS) as [k|] eqn:Hf.
  - unfold ret. intros H. assert (k = i) by congruence. assert (w' = w) by congruence.
    subst k. split; [assumption|].
    apply find_slot_Some in Hf as (_ & (m & Hm & Hp) & _).
    exists m. split; [exact Hm|]. apply Z.eqb_eq. exact Hp.
  - unfold USP_ERR_SetMessage, emit, ret. intros H. discriminate H.
Qed.

Lemma ProcessAgentMtpAdded_run INVALID ENABLE_COAP E w inst i :
  FindUnusedAgentMtp INVALID w = Some (Some i, w) ->
  exists err m' cs1 cs2,
    ProcessAgentMtpAdded INVALID ENABLE_COAP E inst w
    = Some (err, Build_world (<[i := m']> (agent_mtps w)) (calls w ++ cs1 ++ cs2)) /\
    List.filter is_reconnect cs1 = [] /\
    (population_fails INVALID ENABLE_COAP E inst <-> err <> USP_ERR_OK) /\
    (err <> USP_ERR_OK -> m' = released_mtp INVALID /\ cs2 = []) /\
    (err = USP_ERR_OK ->
     m' = resolved_mtp INVALID ENABLE_COAP E inst /\
     (protocol m' <> kMtpProtocol_CoAP -> cs1 = []) /\
     cs2 = if affects_STOMP_connection INVALID m'
           then [Call_DEVICE_STOMP_ScheduleReconnect (stomp_connection_instance m')]
           else []).
Proof.
  intros Hfind. pose proof (FindUnusedAgentMtp_Some _ _ _ _ Hfind) as (_ & m0 & Hm0 & _).
  assert (Hi : (i < length (agent_mtps w))%nat) by (eapply lookup_lt_Some, Hm0).
  unfold ProcessAgentMtpAdded. rewrite (bind_Some _ _ _ _ _ Hfind). cbv beta iota.
  destruct w as [tbl cs]. cbn [agent_mtps calls] in *.
  replace (Build_world tbl cs) with (at_slot tbl i m0 cs)
    by (symmetry; apply (at_slot_here (Build_world tbl cs) i m0 Hm0)).
  rewrite (at_slot_update _ _ Hi).
  destruct (ProcessAgentMtpAdded_reads_run INVALID ENABLE_COAP E tbl i inst cs Hi) as (err & m' & cs' & Hrun & Hdes & Hnore & Hcs & Hres & Hfail).
  rewrite (bind_Some _ _ _ _ _ Hrun).
  destruct (is_ok err) eqn:Hok; cbn [when negb];
    [apply is_ok_true in Hok | apply is_ok_false in Hok].
  - rewrite bind_ret, (at_slot_load _ _ Hi).
    exists err, m', cs',
      (if affects_STOMP_connection INVALID m'
       then [Call_DEVICE_STOMP_ScheduleReconnect (stomp_connection_instance m')]
       else []).
    split.
    + unfold affects_STOMP_connection.
      destruct (enable m' && protocol_eqb (protocol m') kMtpProtocol_STOMP
                && negb (stomp_connection_instance m' =? INVALID));
        cbn [when]; unfold DEVICE_STOMP_ScheduleReconnect.
      * rewrite at_slot_emit, <- app_assoc. reflexivity.
      * rewrite bind_ret, app_nil_r. reflexivity.
    + repeat split; auto; tauto.
  - unfold DestroyAgentMtp. rewrite (at_slot_update _ _ Hi), Hdes, (at_slot_load _ _ Hi).
    cbn [released_mtp enable andb when]. rewrite bind_ret.
    exists err, (released_mtp INVALID), cs', []. rewrite app_nil_r.
    repeat split; auto; try tauto; try contradiction.
Qed.

(** C6: when a read of the population run fails, or the CoAP server of an
    enabled CoAP row does not start, the run returns the error and the slot
    it had taken is free again: the table is the one before the run with
    that slot released, so the only slots that carry the instance are
    slots that carried it before, and a search for an instance that was
    not in the table finds nothing. *)
Theorem ProcessAgentMtpAdded_failure_releases_slot
    (INVALID : Z) (ENABLE_COAP : bool) (E : dm_env) (w : world) (inst : Z) (i : nat) :
  FindUnusedAgentMtp INVALID w = Some (Some i, w) ->
  population_fails INVALID ENABLE_COAP E inst ->
  exists err w',
    ProcessAgentMtpAdded INVALID ENABLE_COAP E inst w = Some (err, w') /\
    err <> USP_ERR_OK /\
    agent_mtps w' = <[i := released_mtp INVALID]> (agent_mtps w) /\
    (inst <> INVALID ->
     (forall j m, agent_mtps w' !! j = Some m -> instance m = inst ->
                  j <> i /\ agent_mtps w !! j = Some m) /\
     ((forall j m, agent_mtps w !! j = Some m -> instance m <> inst) ->
      FindAgentMtpByInstance inst w' = Some (None, w'))).
Proof.
  intros Hfind Hfails.
  destruct (ProcessAgentMtpAdded_run INVALID ENABLE_COAP E w inst i Hfind)
    as (err & m' & cs1 & cs2 & Hrun & _ & Hiff & Herr & _).
  apply Hiff in Hfails. destruct (Herr Hfails) as [-> _].
  eexists _, _. split; [exact Hrun|]. split; [exact Hfails|].
  cbn [agent_mtps]. split; [reflexivity|]. intros Hinst.
  assert (Hold : forall j m,
             <[i := released_mtp INVALID]> (agent_mtps w) !! j = Some m ->
             instance m = inst -> j <> i /\ agent_mtps w !! j = Some m).
  { intros j m Hj Hm. destruct (decide (j = i)) as [->|Hne].
    - apply list_lookup_insert_Some in Hj as [(_ & <- & _)|(Hne & _)];
        [elim Hinst; symmetry; exact Hm | elim Hne; reflexivity].
    - split; [exact Hne|]. rewrite list_lookup_insert_ne in Hj by auto. exact Hj. }
  split; [exact Hold|]. intros Hfresh.
  unfold FindAgentMtpByInstance, bind, get_table, ret. cbv beta iota. cbn [agent_mtps].
  destruct (find_slot _ (<[i := released_mtp INVALID]> (agent_mtps w)) 0 MAX_AGENT_MTPS)
    as [k|] eqn:Hf; [|reflexivity].
  apply find_slot_Some in Hf as (_ & (m & Hk & Hp) & _). apply Z.eqb_eq in Hp.
  destruct (Hold k m Hk Hp) as [_ Hw]. elim (Hfresh k m Hw Hp).
Qed.

Lemma ProcessAgentMtpAdded_failure_releases_slot_witness :
  exists err w',
    ProcessAgentMtpAdded (-1) true failing_env 7 partial_world = Some (err, w') /\
    err <> USP_ERR_OK /\
    agent_mtps w' = <[2%nat := released_mtp (-1)]> (agent_mtps partial_world) /\
    (7 <> -1 ->
     (forall j m, agent_mtps w' !! j = Some m -> instance m = 7 ->
                  j <> 2%nat /\ agent_mtps partial_world !! j = Some m) /\
     ((forall j m, agent_mtps partial_world !! j = Some m -> instance m <> 7) ->
      FindAgentMtpByInstance 7 w' = Some (None, w'))).
Proof.
  apply (ProcessAgentMtpAdded_failure_releases_slot (-1) true failing_env partial_world 7 2%nat).
  - reflexivity.
  - right. right. right. left. discriminate.
Defined.

(** On [partial_world] the failed run of row 7 leaves the table as it was. *)
Example ProcessAgentMtpAdded_failure_partial_world :
  ProcessAgentMtpAdded (-1) true failing_env 7 partial_world
  = Some (USP_ERR_INTERNAL_ERROR, partial_world).
Proof. reflexivity. Qed.

(** Every used slot owns its queue name from the start, and a population
    run keeps it so, provided that a successful read of a string gives a
    string. *)
Lemma queues_owned_initial INVALID :
  queues_owned INVALID (agent_mtps (initial_world INVALID)).
Proof.
  intros i mtp Hi Hused. cbn [initial_world agent_mtps] in Hi.
  apply lookup_replicate in Hi as [-> _]. elim Hused. reflexivity.
Qed.

Lemma ProcessAgentMtpAdded_queues_owned INVALID ENABLE_COAP E w inst i err w' :
  (forall p, fst (DM_ACCESS_GetString E p) = USP_ERR_OK ->
             snd (DM_ACCESS_GetString E p) <> None) ->
  queues_owned INVALID (agent_mtps w) ->
  FindUnusedAgentMtp INVALID w = Some (Some i, w) ->
  ProcessAgentMtpAdded INVALID ENABLE_COAP E inst w = Some (err, w') ->
  queues_owned INVALID (agent_mtps w').
Proof.
  intros Hstr Howned Hfind Hrun.
  destruct (ProcessAgentMtpAdded_run INVALID ENABLE_COAP E w inst i Hfind)
    as (err0 & m' & cs1 & cs2 & Hrun0 & _ & Hiff & Herr & Hok).
  rewrite Hrun0 in Hrun. assert (Hw : w' = Build_world (<[i := m']> (agent_mtps w))
                                                       (calls w ++ cs1 ++ cs2))
    by congruence.
  subst w'. cbn [agent_mtps]. clear Hrun Hrun0.
  intros j m Hj Hused. destruct (decide (j = i)) as [->|Hne].
  - apply list_lookup_insert_Some in Hj as [(_ & <- & _)|(Hne & _)];
      [|elim Hne; reflexivity].
    destruct (is_ok err0) eqn:He; [apply is_ok_true in He | apply is_ok_false in He].
    + destruct (Hok He) as (-> & _). cbn [resolved_mtp stomp_agent_queue].
      apply Hstr.
      destruct (is_ok (fst (DM_ACCESS_GetString E (MTP_path inst Param_STOMP_Destination))))
        eqn:Hd; [apply is_ok_true in Hd; exact Hd | apply is_ok_false in Hd].
      exfalso. apply (proj1 Hiff); [|exact He]. right. right. right. left. exact Hd.
    + destruct (Herr He) as (-> & _). elim Hused. reflexivity.
  - rewrite list_lookup_insert_ne in Hj by auto. apply (Howned j m Hj Hused).
Qed.

(** C2, as the code has it: a population run that succeeds with the row
    resolved to enabled, on STOMP and with a reference that is set schedules
    one reconnect, for that connection, and makes no other call; a run that
    fails releases the slot before the test of the resolved state, and
    schedules no reconnect. *)
Theorem ProcessAgentMtpAdded_reconnect_after_success
    (INVALID : Z) (ENABLE_COAP : bool) (E : dm_env) (w : world) (inst : Z) (i : nat) :
  FindUnusedAgentMtp INVALID w = Some (Some i, w) ->
  exists err w' made,
    ProcessAgentMtpAdded INVALID ENABLE_COAP E inst w = Some (err, w') /\
    calls w' = (calls w ++ made)%list /\
    (err = USP_ERR_OK ->
     let r := resolved_mtp INVALID ENABLE_COAP E inst in
     agent_mtps w' !! i = Some r /\
     (enable r = true -> protocol r = kMtpProtocol_STOMP ->
      stomp_connection_instance r <> INVALID ->
      made = [Call_DEVICE_STOMP_ScheduleReconnect (stomp_connection_instance r)])) /\
    (err <> USP_ERR_OK ->
     agent_mtps w' !! i = Some (released_mtp INVALID) /\
     List.filter is_reconnect made = []).
Proof.
  intros Hfind.
  pose proof (FindUnusedAgentMtp_Some _ _ _ _ Hfind) as (_ & m0 & Hm0 & _).
  destruct (ProcessAgentMtpAdded_run INVALID ENABLE_COAP E w inst i Hfind)
    as (err & m' & cs1 & cs2 & Hrun & Hnore & _ & Herr & Hok).
  eexists err, _, (cs1 ++ cs2)%list. split; [exact Hrun|].
  cbn [agent_mtps calls]. split; [reflexivity|]. split.
  - intros He. destruct (Hok He) as (-> & Hcs1 & ->). cbv zeta.
    split; [eapply lookup_updated, Hm0|].
    intros Hen Hp Href. rewrite Hcs1 by congruence.
    unfold affects_STOMP_connection. rewrite Hen, Hp.
    apply Z.eqb_neq in Href. rewrite Href. reflexivity.
  - intros He. destruct (Herr He) as (-> & ->).
    split; [eapply lookup_updated, Hm0|]. rewrite app_nil_r. exact Hnore.
Qed.

Lemma ProcessAgentMtpAdded_reconnect_after_success_witness :
  exists err w' made,
    ProcessAgentMtpAdded (-1) true example_env 7 partial_world = Some (err, w') /\
    calls w' = (calls partial_world ++ made)%list /\
    (err = USP_ERR_OK ->
     let r := resolved_mtp (-1) true example_env 7 in
     agent_mtps w' !! 2%nat = Some r /\
     (enable r = true -> protocol r = kMtpProtocol_STOMP ->
      stomp_connection_instance r <> -1 ->
      made = [Call_DEVICE_STOMP_ScheduleReconnect (stomp_connection_instance r)])) /\
    (err <> USP_ERR_OK ->
     agent_mtps w' !! 2%nat = Some (released_mtp (-1)) /\
     List.filter is_reconnect made = []).
Proof.
  apply (ProcessAgentMtpAdded_reconnect_after_success (-1) true example_env partial_world
           7 2%nat).
  reflexivity.
Defined.

(** C2, as it is stated, fails: the reads of row 7 resolve it to enabled, on
    STOMP, with the reference to connection 1, the read of its destination
    then fails, and the run ends without a reconnect for connection 1. *)
Lemma ProcessAgentMtpAdded_no_reconnect_after_failure :
  ~ (forall (E : dm_env) (w : world) (inst : Z) (err : usp_err) (w' : world),
       let r := resolved_mtp (-1) true E inst in
       ProcessAgentMtpAdded (-1) true E inst w = Some (err, w') ->
       enable r = true -> protocol r = kMtpProtocol_STOMP ->
       stomp_connection_instance r <> -1 ->
       In (Call_DEVICE_STOMP_ScheduleReconnect (stomp_connection_instance r)) (calls w')).
Proof.
  intros H.
  specialize (H failing_env (initial_world (-1)) 7 USP_ERR_INTERNAL_ERROR
                (Build_world (<[0%nat := released_mtp (-1)]> (agent_mtps (initial_world (-1))))
                             [])).
  cbv zeta in H. apply H; try reflexivity. discriminate.
Qed.

Example ProcessAgentMtpAdded_failing_env_outcome :
  resolved_mtp (-1) true failing_env 7
  = Build_agent_mtp 7 true kMtpProtocol_STOMP 1 None 5683 (Some EmptyString)
  /\ outcome (ProcessAgentMtpAdded (-1) true failing_env 7 (initial_world (-1)))
     = Some (USP_ERR_INTERNAL_ERROR, []).
Proof. split; reflexivity. Qed.

(** ** Deletion of an MTP *)

Lemma Notify_AgentMtpDeleted_absent INVALID ENABLE_COAP w inst1 :
  FindAgentMtpByInstance inst1 w = Some (None, w) ->
  Notify_AgentMtpDeleted INVALID ENABLE_COAP inst1 w = Some (USP_ERR_OK, w).
Proof.
  intros Hfind. unfold Notify_AgentMtpDeleted.
  rewrite (bind_Some _ _ _ _ _ Hfind). reflexivity.
Qed.

(** An enabled slot is torn down and released. *)
Lemma Notify_AgentMtpDeleted_enabled INVALID ENABLE_COAP w inst1 i m :
  FindAgentMtpByInstance inst1 w = Some (Some i, w) ->
  agent_mtps w !! i = Some m ->
  enable m = true ->
  Notify_AgentMtpDeleted INVALID ENABLE_COAP inst1 w
  = Some (USP_ERR_OK,
          Build_world (<[i := destroyed INVALID ENABLE_COAP m]> (agent_mtps w))
                      (calls w ++ teardown INVALID ENABLE_COAP m)).
Proof.
  intros Hfind Hm Hen.
  assert (Hi : (i < length (agent_mtps w))%nat) by (eapply lookup_lt_Some, Hm).
  unfold Notify_AgentMtpDeleted. rewrite (bind_Some _ _ _ _ _ Hfind). cbv beta iota.
  destruct w as [tbl cs]. cbn [agent_mtps calls] in *.
  replace (Build_world tbl cs) with (at_slot tbl i m cs)
    by (symmetry; apply (at_slot_here (Build_world tbl cs) i m Hm)).
  rewrite (at_slot_load _ _ Hi), Hen. cbn [negb].
  unfold teardown, reconnect_if_set, DestroyAgentMtp, DEVICE_STOMP_ScheduleReconnect,
    COAP_StopServer.
  destruct (protocol m); [| destruct (stomp_connection_instance m =? INVALID)
                          | destruct ENABLE_COAP ];
    cbn [when negb];
    rewrite ?at_slot_emit, ?bind_ret, (at_slot_update _ _ Hi), ?app_nil_r;
    reflexivity.
Qed.

(** A slot that is not enabled is left as it is: the handler returns before
    [DestroyAgentMtp]. *)
Lemma Notify_AgentMtpDeleted_disabled INVALID ENABLE_COAP w inst1 i m :
  FindAgentMtpByInstance inst1 w = Some (Some i, w) ->
  agent_mtps w !! i = Some m ->
  enable m = false ->
  Notify_AgentMtpDeleted INVALID ENABLE_COAP inst1 w = Some (USP_ERR_OK, w).
Proof.
  intros Hfind Hm Hen. unfold Notify_AgentMtpDeleted.
  rewrite (bind_Some _ _ _ _ _ Hfind). cbv beta iota.
  rewrite (bind_Some _ _ _ _ _ (load_Some _ _ _ Hm)), Hen. reflexivity.
Qed.

(** C1, at the input on which the code departs from it: row 7 is added
    while disabled and deleted at once. The delete handler returns success
    without releasing the slot, which keeps instance 7 and its strings and
    is still found by the search. *)
Theorem Notify_AgentMtpDeleted_keeps_disabled_slot :
  exists w1,
    ProcessAgentMtpAdded (-1) true disabled_env 7 (initial_world (-1))
    = Some (USP_ERR_OK, w1) /\
    Notify_AgentMtpDeleted (-1) true 7 w1 = Some (USP_ERR_OK, w1) /\
    agent_mtps w1 !! 0%nat
    = Some (Build_agent_mtp 7 false kMtpProtocol_STOMP 1 (Some "agent/7") 5683 (Some EmptyString)) /\
    FindAgentMtpByInstance 7 w1 = Some (Some 0%nat, w1).
Proof.
  eexists. split; [reflexivity|]. repeat split.
Qed.

(** The same run with the row enabled: the slot is released. *)
Example Notify_AgentMtpDeleted_releases_enabled_slot :
  (_ <- ProcessAgentMtpAdded (-1) true example_env 7 ;;
   Notify_AgentMtpDeleted (-1) true 7) (initial_world (-1))
  = Some (USP_ERR_OK,
          Build_world (<[0%nat := released_mtp (-1)]> (agent_mtps (initial_world (-1))))
                      [Call_DEVICE_STOMP_ScheduleReconnect 1;
                       Call_DEVICE_STOMP_ScheduleReconnect 1]).
Proof. reflexivity. Qed.

(** ** The CoAP port and path *)

Lemma restart_CoAP_server_run E tbl i inst1 m cs :
  (i < length tbl)%nat ->
  exists err,
    restart_CoAP_server E inst1 i (at_slot tbl i m cs)
    = Some (err, at_slot tbl i m (cs ++ restart inst1 m)) /\
    (restart inst1 m = [] -> err = USP_ERR_OK) /\
    (restart inst1 m <> [] ->
     let r := COAP_StartServer_result E (instance m) (coap_port m) (coap_path m) in
     (r = USP_ERR_OK -> err = USP_ERR_OK) /\ (r <> USP_ERR_OK -> err = r)).
Proof.
  intros Hi. unfold restart_CoAP_server, restart. rewrite (at_slot_load _ _ Hi).
  destruct (protocol_eqb (protocol m) kMtpProtocol_CoAP && enable m).
  - unfold COAP_StopServer, COAP_StartServer.
    rewrite at_slot_emit, bind_assoc, at_slot_emit, bind_ret, <- app_assoc.
    cbn [app].
    destruct (is_ok (COAP_StartServer_result E (instance m) (coap_port m) (coap_path m)))
      eqn:Hok; cbn [negb];
      [apply is_ok_true in Hok | apply is_ok_false in Hok].
    + exists USP_ERR_OK. split; [reflexivity|]. split; [reflexivity|].
      intros _. cbv zeta. split; [reflexivity|]. intros Hne. contradiction.
    + eexists. split; [reflexivity|]. split; [discriminate|].
      intros _. cbv zeta. split; [intros Heq; contradiction|reflexivity].
  - exists USP_ERR_OK. rewrite app_nil_r. split; [reflexivity|].
    split; [reflexivity|]. intros Hne. elim Hne. reflexivity.
Qed.

(** The port handler compares before it acts: an unchanged port is a no-op,
    a changed port is stored and the server of an enabled CoAP slot is
    stopped and started on the new port. *)
Lemma NotifyChange_AgentMtpCoAPPort_run E w inst1 val_uint i m :
  FindAgentMtpByInstance inst1 w = Some (Some i, w) ->
  agent_mtps w !! i = Some m ->
  (val_uint = coap_port m ->
   NotifyChange_AgentMtpCoAPPort E inst1 val_uint w = Some (USP_ERR_OK, w)) /\
  (val_uint <> coap_port m ->
   let m' := set_coap_port val_uint m in
   exists err,
     NotifyChange_AgentMtpCoAPPort E inst1 val_uint w
     = Some (err, Build_world (<[i := m']> (agent_mtps w)) (calls w ++ restart inst1 m')) /\
     (restart inst1 m' = [] -> err = USP_ERR_OK) /\
     (restart inst1 m' <> [] ->
      let r := COAP_StartServer_result E (instance m') (coap_port m') (coap_path m') in
      (r = USP_ERR_OK -> err = USP_ERR_OK) /\ (r <> USP_ERR_OK -> err = r))).
Proof.
  intros Hfind Hm.
  assert (Hi : (i < length (agent_mtps w))%nat) by (eapply lookup_lt_Some, Hm).
  unfold NotifyChange_AgentMtpCoAPPort. rewrite (bind_Some _ _ _ _ _ Hfind).
  cbn [USP_ASSERT_not_NULL]. rewrite bind_ret.
  rewrite (bind_Some _ _ _ _ _ (load_Some _ _ _ Hm)).
  split.
  - intros ->. rewrite Z.eqb_refl. reflexivity.
  - intros Hne. apply Z.eqb_neq in Hne. rewrite Hne. cbv zeta.
    destruct w as [tbl cs]. cbn [agent_mtps calls] in *.
    replace (Build_world tbl cs) with (at_slot tbl i m cs)
      by (symmetry; apply (at_slot_here (Build_world tbl cs) i m Hm)).
    rewrite (at_slot_update _ _ Hi).
    apply (restart_CoAP_server_run E tbl i inst1 (set_coap_port val_uint m) cs Hi).
Qed.

(** The path handler does not compare: it stores the value it is given and
    restarts the server of an enabled CoAP slot, also when the value is the
    stored one. *)
Lemma NotifyChange_AgentMtpCoAPPath_run E w inst1 value i m :
  FindAgentMtpByInstance inst1 w = Some (Some i, w) ->
  agent_mtps w !! i = Some m ->
  let m' := set_coap_path (Some value) m in
  exists err,
    NotifyChange_AgentMtpCoAPPath E inst1 value w
    = Some (err, Build_world (<[i := m']> (agent_mtps w)) (calls w ++ restart inst1 m')) /\
    (restart inst1 m' = [] -> err = USP_ERR_OK) /\
    (restart inst1 m' <> [] ->
     let r := COAP_StartServer_result E (instance m') (coap_port m') (coap_path m') in
     (r = USP_ERR_OK -> err = USP_ERR_OK) /\ (r <> USP_ERR_OK -> err = r)).
Proof.
  intros Hfind Hm.
  assert (Hi : (i < length (agent_mtps w))%nat) by (eapply lookup_lt_Some, Hm).
  unfold NotifyChange_AgentMtpCoAPPath. rewrite (bind_Some _ _ _ _ _ Hfind).
  cbn [USP_ASSERT_not_NULL]. rewrite bind_ret. cbv zeta.
  destruct w as [tbl cs]. cbn [agent_mtps calls] in *.
  replace (Build_world tbl cs) with (at_slot tbl i m cs)
    by (symmetry; apply (at_slot_here (Build_world tbl cs) i m Hm)).
  rewrite !(at_slot_update _ _ Hi).
  apply (restart_CoAP_server_run E tbl i inst1 (set_coap_path (Some value)
                                                 (set_coap_path None m)) cs Hi).
Qed.

(** C3, at the input on which the code departs from it: slot 3 of
    [full_world] is enabled on CoAP with the path "usp". Writing that same
    path again stops and restarts its server, and a failure of the restart
    is returned, where an unchanged value should be a no-op; writing the
    port it already has is a no-op. *)
Theorem NotifyChange_AgentMtpCoAPPath_restarts_on_unchanged_path :
  agent_mtps full_world !! 2%nat = Some (coap_mtp 3 true 5683 "usp") /\
  outcome (NotifyChange_AgentMtpCoAPPath example_env 3 "usp" full_world)
  = Some (USP_ERR_OK,
          [Call_COAP_StopServer 3; Call_COAP_StartServer 3 5683 (Some "usp")]) /\
  outcome (NotifyChange_AgentMtpCoAPPath
             (example_env_with true (USP_ERR_OK, None) USP_ERR_INTERNAL_ERROR)
             3 "usp" full_world)
  = Some (USP_ERR_INTERNAL_ERROR,
          [Call_COAP_StopServer 3; Call_COAP_StartServer 3 5683 (Some "usp")]) /\
  NotifyChange_AgentMtpCoAPPort example_env 3 5683 full_world
  = Some (USP_ERR_OK, full_world).
Proof. repeat split. Qed.

(** ** Deletion of a STOMP connection *)

Lemma refers_to_spec INVALID c m :
  refers_to INVALID c m = true <->
  instance m <> INVALID /\ protocol m = kMtpProtocol_STOMP /\
  stomp_connection_instance m = c.
Proof.
  unfold refers_to. rewrite !andb_true_iff, negb_true_iff, Z.eqb_neq, Z.eqb_eq,
    protocol_eqb_eq. tauto.
Qed.

Lemma reconnect_if_set_no_write INVALID a :
  List.filter is_write (reconnect_if_set INVALID a) = [].
Proof. unfold reconnect_if_set. destruct (a =? INVALID); reflexivity. Qed.

(** Clearing the reference of the slot [i] through the data model comes
    back into [NotifyChange_AgentMtpStompReference], which changes the first
    slot with that instance: no slot after [i] is touched, and the only
    write to the data model is the one requested. *)
Lemma DATA_MODEL_SetParameterValue_reference_run INVALID E w i mi :
  agent_mtps w !! i = Some mi ->
  (i < MAX_AGENT_MTPS)%nat ->
  exists err w' rs,
    DATA_MODEL_SetParameterValue INVALID E
      (MTP_path (instance mi) Param_STOMP_Reference) EmptyString w = Some (err, w') /\
    length (agent_mtps w') = length (agent_mtps w) /\
    (forall j, (i < j)%nat -> agent_mtps w' !! j = agent_mtps w !! j) /\
    calls w' = (calls w ++ clear_reference mi :: rs)%list /\
    List.filter is_write rs = [].
Proof.
  intros Hmi Hi. unfold DATA_MODEL_SetParameterValue.
  set (path := MTP_path (instance mi) Param_STOMP_Reference).
  set (w1 := Build_world (agent_mtps w) (calls w ++ [clear_reference mi])).
  change (bind (emit (Call_DATA_MODEL_SetParameterValue path EmptyString))
               (fun _ =>
                  if negb (is_ok (DATA_MODEL_SetParameterValue_result E path EmptyString))
                  then ret (DATA_MODEL_SetParameterValue_result E path EmptyString)
                  else NotifyChange_AgentMtpStompReference INVALID E (instance mi) EmptyString) w)
    with ((if negb (is_ok (DATA_MODEL_SetParameterValue_result E path EmptyString))
           then ret (DATA_MODEL_SetParameterValue_result E path EmptyString)
           else NotifyChange_AgentMtpStompReference INVALID E (instance mi) EmptyString) w1).
  destruct (is_ok (DATA_MODEL_SetParameterValue_result E path EmptyString)); cbn [negb].
  2:{ eexists _, w1, []. split; [reflexivity|]. cbn [agent_mtps calls].
      repeat split; auto. }
  destruct (find_slot_exists (fun m => instance m =? instance mi) (agent_mtps w)
              0 MAX_AGENT_MTPS i mi) as [j Hf]; [lia|exact Hmi|apply Z.eqb_refl|].
  assert (Hfind : FindAgentMtpByInstance (instance mi) w1 = Some (Some j, w1)).
  { unfold FindAgentMtpByInstance, bind, get_table, ret. cbv beta iota.
    subst w1. cbn [agent_mtps]. rewrite Hf. reflexivity. }
  apply find_slot_Some in Hf as (_ & (mj & Hmj & _) & Hbefore).
  assert (Hji : (j <= i)%nat).
  { destruct (decide (j <= i)%nat) as [|Hgt]; [assumption|]. exfalso.
    assert (Hp : (instance mi =? instance mi) = false)
      by (apply (Hbefore i mi); [lia|exact Hmi]).
    rewrite Z.eqb_refl in Hp. discriminate Hp. }
  destruct (DEVICE_MTP_GetStompReference INVALID E (MTP_path (instance mi) Param_STOMP_Reference))
    as [err new_ref] eqn:Hget.
  destruct (NotifyChange_AgentMtpStompReference_run INVALID E w1 (instance mi) EmptyString j mj
              err new_ref Hfind Hmj Hget) as [Hfail Hsucc].
  destruct (is_ok err) eqn:Hok; [apply is_ok_true in Hok | apply is_ok_false in Hok].
  - destruct (Hsucc Hok) as (scheduled & Hrun & Hyes & Hno).
    eexists _, _, scheduled. split; [exact Hrun|]. cbn [agent_mtps calls].
    split; [apply length_insert|].
    split; [intros k Hk; apply list_lookup_insert_ne; lia|].
    split; [subst w1; cbn [calls]; rewrite <- app_assoc; reflexivity|].
    destruct (enable mj) eqn:Hen; [|rewrite Hno; auto].
    destruct (protocol_eqb (protocol mj) kMtpProtocol_STOMP) eqn:Hp;
      [apply protocol_eqb_eq in Hp | apply protocol_eqb_neq in Hp; rewrite Hno; auto].
    destruct (decide (stomp_connection_instance mj = new_ref)) as [Heq|Hne];
      [rewrite Hno; auto|].
    rewrite (Hyes eq_refl Hp Hne), List.filter_app, !reconnect_if_set_no_write.
    reflexivity.
  - eexists _, _, []. split; [exact (Hfail Hok)|]. cbn [agent_mtps calls].
    split; [apply length_insert|].
    split; [intros k Hk; apply list_lookup_insert_ne; lia|].
    split; reflexivity.
Qed.

Lemma DEVICE_MTP_NotifyStompConnDeleted_loop_run INVALID E c tbl0 :
  length tbl0 = MAX_AGENT_MTPS ->
  forall n i w,
    (i + n = MAX_AGENT_MTPS)%nat ->
    length (agent_mtps w) = MAX_AGENT_MTPS ->
    (forall j, (i <= j)%nat -> agent_mtps w !! j = tbl0 !! j) ->
    exists w' made,
      DEVICE_MTP_NotifyStompConnDeleted_loop INVALID E c i n w = Some (tt, w') /\
      length (agent_mtps w') = MAX_AGENT_MTPS /\
      calls w' = (calls w ++ made)%list /\
      List.filter is_write made
      = map clear_reference (List.filter (refers_to INVALID c) (drop i tbl0)).
Proof.
  intros Hlen0. induction n as [|n IH]; intros i w Hin Hlen Hsame.
  - exists w, []. cbn [DEVICE_MTP_NotifyStompConnDeleted_loop].
    rewrite drop_ge by lia. rewrite app_nil_r. repeat split; auto.
  - cbn [DEVICE_MTP_NotifyStompConnDeleted_loop].
    destruct (lookup_lt_is_Some_2 tbl0 i) as [mi Hmi0]; [lia|].
    assert (Hmi : agent_mtps w !! i = Some mi) by (rewrite Hsame by lia; exact Hmi0).
    rewrite (bind_Some _ _ _ _ _ (load_Some _ _ _ Hmi)).
    rewrite (drop_S tbl0 mi i Hmi0). cbn [List.filter].
    fold (refers_to INVALID c mi).
    destruct (refers_to INVALID c mi); cbn [when].
    + destruct (DATA_MODEL_SetParameterValue_reference_run INVALID E w i mi Hmi)
        as (err & w1 & rs & Hrun & Hlen1 & Hafter & Hcalls & Hrs); [lia|].
      rewrite bind_assoc, (bind_Some _ _ _ _ _ Hrun). cbv beta. rewrite ?bind_ret.
      destruct (IH (S i) w1) as (w' & made & Hloop & Hlen' & Hcalls' & Hmade);
        [lia | congruence | intros j Hj; rewrite Hafter by lia; apply Hsame; lia |].
      exists w', (clear_reference mi :: rs ++ made)%list.
      split; [exact Hloop|]. split; [exact Hlen'|].
      split; [rewrite Hcalls', Hcalls, <- app_assoc; reflexivity|].
      cbn [List.filter clear_reference is_write map].
      rewrite List.filter_app, Hrs, Hmade. reflexivity.
    + rewrite bind_ret.
      destruct (IH (S i) w) as (w' & made & Hloop & Hlen' & Hcalls' & Hmade);
        [lia | exact Hlen | intros j Hj; apply Hsame; lia |].
      exists w', made. repeat split; auto.
Qed.

(** C9: when a STOMP connection is deleted, the empty value is written to
    the persisted reference of the slots that are in use, on STOMP, and
    refer to that connection: one write for each such slot, in the order of
    the table, and no write to the data model for any other slot. *)
Theorem DEVICE_MTP_NotifyStompConnDeleted_clears_references
    (INVALID : Z) (E : dm_env) (stomp_instance : Z) (w : world) :
  table_ok w ->
  exists w' made,
    DEVICE_MTP_NotifyStompConnDeleted INVALID E stomp_instance w = Some (tt, w') /\
    calls w' = (calls w ++ made)%list /\
    List.filter is_write made
    = map clear_reference
          (List.filter (fun mtp => negb (instance mtp =? INVALID)
                                   && protocol_eqb (protocol mtp) kMtpProtocol_STOMP
                                   && (stomp_connection_instance mtp =? stomp_instance))
                       (agent_mtps w)).
Proof.
  intros Hlen.
  destruct (DEVICE_MTP_NotifyStompConnDeleted_loop_run INVALID E stomp_instance
              (agent_mtps w) Hlen MAX_AGENT_MTPS 0%nat w)
    as (w' & made & Hrun & _ & Hcalls & Hmade); [reflexivity | exact Hlen | reflexivity |].
  exists w', made. split; [exact Hrun|]. split; [exact Hcalls|]. exact Hmade.
Qed.

Lemma DEVICE_MTP_NotifyStompConnDeleted_clears_references_witness :
  exists w' made,
    DEVICE_MTP_NotifyStompConnDeleted (-1) example_env 2 full_world = Some (tt, w') /\
    calls w' = (calls full_world ++ made)%list /\
    List.filter is_write made
    = map clear_reference
          (List.filter (fun mtp => negb (instance mtp =? -1)
                                   && protocol_eqb (protocol mtp) kMtpProtocol_STOMP
                                   && (stomp_connection_instance mtp =? 2))
                       (agent_mtps full_world)).
Proof.
  apply (DEVICE_MTP_NotifyStompConnDeleted_clears_references (-1) example_env 2 full_world).
  reflexivity.
Defined.

(** On [full_world] the slots 4 and 5 refer to connection 2. Each write comes
    back as a change of the reference, which [example_env] resolves to
    connection 1: two reconnects follow each write. *)
Example DEVICE_MTP_NotifyStompConnDeleted_full_world :
  outcome (DEVICE_MTP_NotifyStompConnDeleted (-1) example_env 2 full_world)
  = Some (tt,
          [Call_DATA_MODEL_SetParameterValue (MTP_path 4 Param_STOMP_Reference) EmptyString;
           Call_DEVICE_STOMP_ScheduleReconnect 2;
           Call_DEVICE_STOMP_ScheduleReconnect 1;
           Call_DATA_MODEL_SetParameterValue (MTP_path 5 Param_STOMP_Reference) EmptyString;
           Call_DEVICE_STOMP_ScheduleReconnect 2;
           Call_DEVICE_STOMP_ScheduleReconnect 1]).
Proof. reflexivity. Qed.

(** ** The table over its life *)

Local Open Scope list_scope.

Lemma find_slot_none (p : agent_mtp_t -> bool) (tbl : list agent_mtp_t) i n :
  (forall j m, tbl !! j = Some m -> p m = false) ->
  find_slot p tbl i n = None.
Proof.
  intros Hall. destruct (find_slot p tbl i n) as [k|] eqn:Hf; [|reflexivity].
  apply find_slot_Some in Hf as (_ & (m & Hk & Hp) & _).
  rewrite (Hall k m Hk) in Hp. discriminate Hp.
Qed.

Lemma FindAgentMtpByInstance_None inst w :
  (forall j m, agent_mtps w !! j = Some m -> instance m <> inst) ->
  FindAgentMtpByInstance inst w = Some (None, w).
Proof.
  intros Hall. unfold FindAgentMtpByInstance, bind, get_table, ret. cbv beta iota.
  rewrite find_slot_none; [reflexivity|].
  intros j m Hj. apply Z.eqb_neq. apply (Hall j m Hj).
Qed.

Lemma FindAgentMtpByInstance_first inst w i m :
  (i < MAX_AGENT_MTPS)%nat ->
  agent_mtps w !! i = Some m -> instance m = inst ->
  (forall j mj, (j < i)%nat -> agent_mtps w !! j = Some mj -> instance mj <> inst) ->
  FindAgentMtpByInstance inst w = Some (Some i, w).
Proof.
  intros Hi Hm Hinst Hbefore.
  unfold FindAgentMtpByInstance, bind, get_table, ret. cbv beta iota.
  rewrite (find_slot_first _ _ 0 MAX_AGENT_MTPS i m); [reflexivity|lia|exact Hm| |].
  - apply Z.eqb_eq. exact Hinst.
  - intros j mj Hj Hmj. apply Z.eqb_neq. apply (Hbefore j mj); [lia|exact Hmj].
Qed.

(** X1: whatever the table held before, [DEVICE_MTP_Init] returns with a
    table of [MAX_AGENT_MTPS] slots that are all free and disabled, also
    when a registration fails and the result is the internal error: after
    it no instance is found and no STOMP connection has a queue. *)
Theorem DEVICE_MTP_Init_empties_table (INVALID : Z) (E : dm_env) (w : world) :
  exists err w',
    DEVICE_MTP_Init INVALID E w = Some (err, w') /\
    err = (if is_ok (USP_REGISTER_result E) then USP_ERR_OK else USP_ERR_INTERNAL_ERROR) /\
    table_ok w' /\ calls w' = calls w /\
    (forall i m, agent_mtps w' !! i = Some m -> instance m = INVALID /\ enable m = false) /\
    (forall inst, inst <> INVALID -> FindAgentMtpByInstance inst w' = Some (None, w')) /\
    (forall c, DEVICE_MTP_GetAgentStompQueue INVALID c w' = Some (None, w')).
Proof.
  exists (if is_ok (USP_REGISTER_result E) then USP_ERR_OK else USP_ERR_INTERNAL_ERROR),
    (Build_world (agent_mtps (initial_world INVALID)) (calls w)).
  assert (Hfree : forall i m, agent_mtps (initial_world INVALID) !! i = Some m ->
                              instance m = INVALID /\ enable m = false).
  { intros i m Hi. cbn [initial_world agent_mtps] in Hi.
    apply lookup_replicate in Hi as [-> _]. split; reflexivity. }
  split; [|split; [reflexivity|split; [reflexivity|split; [reflexivity|split; [exact Hfree|split]]]]].
  - unfold DEVICE_MTP_Init, memset_agent_mtps, bind. cbn.
    destruct (is_ok (USP_REGISTER_result E)); reflexivity.
  - intros inst Hne. apply FindAgentMtpByInstance_None. cbn [agent_mtps].
    intros j m Hj Heq. apply Hfree in Hj as [Hj _]. congruence.
  - intros c. unfold DEVICE_MTP_GetAgentStompQueue, bind, get_table. cbn.
    rewrite Z.eqb_refl. reflexivity.
Qed.

(** X2: on a table with no free slot, the population of a new row fails
    with [USP_ERR_RESOURCES_EXCEEDED] before any read of the database: no
    slot changes and the only call is the one that sets the error
    message. *)
Theorem ProcessAgentMtpAdded_full_table
    (INVALID : Z) (ENABLE_COAP : bool) (E : dm_env) (w : world) (inst : Z) :
  (forall i m, agent_mtps w !! i = Some m -> instance m <> INVALID) ->
  ProcessAgentMtpAdded INVALID ENABLE_COAP E inst w
  = Some (USP_ERR_RESOURCES_EXCEEDED,
          Build_world (agent_mtps w)
            (calls w ++ [Call_USP_ERR_SetMessage
                           "FindUnusedAgentMtp: Only 5 agent MTPs are supported."])).
Proof.
  intros Hfull. unfold ProcessAgentMtpAdded, FindUnusedAgentMtp, bind, get_table.
  cbv beta iota. rewrite find_slot_none; [reflexivity|].
  intros j m Hj. apply Z.eqb_neq. apply (Hfull j m Hj).
Qed.

Lemma ProcessAgentMtpAdded_full_table_witness :
  ProcessAgentMtpAdded (-1) true example_env 7 full_world
  = Some (USP_ERR_RESOURCES_EXCEEDED,
          Build_world (agent_mtps full_world)
            (calls full_world ++ [Call_USP_ERR_SetMessage
                           "FindUnusedAgentMtp: Only 5 agent MTPs are supported."])).
Proof.
  apply (ProcessAgentMtpAdded_full_table (-1) true example_env full_world 7).
  intros i m Hi.
  destruct i as [|[|[|[|[|i]]]]]; simpl in Hi; inversion Hi; subst m; discriminate.
Defined.

Lemma ProcessAgentMtpAdded_reads_success INVALID ENABLE_COAP E tbl i inst cs :
  (i < length tbl)%nat ->
  ~ population_fails INVALID ENABLE_COAP E inst ->
  ProcessAgentMtpAdded_reads INVALID ENABLE_COAP E i inst
    (at_slot tbl i (set_stomp_connection_instance INVALID (set_instance inst zeroed_mtp)) cs)
  = Some (USP_ERR_OK,
          at_slot tbl i (resolved_mtp INVALID ENABLE_COAP E inst)
                  (cs ++ population_start INVALID ENABLE_COAP E inst)).
Proof.
  intros Hi Hgood.
  unfold ProcessAgentMtpAdded_reads, population_fails, population_start, resolved_mtp in *.
  destruct (DM_ACCESS_GetBool E (MTP_path inst Param_Enable)) as [e1 v1].
  destruct (DM_ACCESS_GetEnum E (MTP_path inst Param_Protocol)) as [e2 v2].
  destruct (DEVICE_MTP_GetStompReference INVALID E (MTP_path inst Param_STOMP_Reference))
    as [e3 v3].
  destruct (DM_ACCESS_GetString E (MTP_path inst Param_STOMP_Destination)) as [e4 v4].
  destruct (DM_ACCESS_GetUnsigned E (MTP_path inst Param_CoAP_Port)) as [e5 v5].
  destruct (DM_ACCESS_GetString E (MTP_path inst Param_CoAP_Path)) as [e6 v6].
  cbn [fst snd] in *.
  ok_case e1; [|tauto]. ok_case e2; [|tauto]. ok_case e3; [|tauto]. ok_case e4; [|tauto].
  at_slot_step Hi.
  destruct ENABLE_COAP; cbn [andb]; [|rewrite app_nil_r; reflexivity].
  ok_case e5; [|tauto]. ok_case e6; [|tauto]. at_slot_step Hi.
  destruct v2, v1; at_slot_step Hi; rewrite ?app_nil_r; try reflexivity.
  unfold COAP_StartServer. rewrite bind_assoc, at_slot_emit, bind_ret.
  destruct (is_ok (COAP_StartServer_result E inst v5 v6)) eqn:Hs; [reflexivity|].
  apply is_ok_false in Hs. exfalso. apply Hgood. tauto.
Qed.

Lemma population_succeeds INVALID ENABLE_COAP E w inst i :
  FindUnusedAgentMtp INVALID w = Some (Some i, w) ->
  ~ population_fails INVALID ENABLE_COAP E inst ->
  ProcessAgentMtpAdded INVALID ENABLE_COAP E inst w
  = Some (USP_ERR_OK,
          Build_world (<[i := resolved_mtp INVALID ENABLE_COAP E inst]> (agent_mtps w))
                      (calls w ++ population_start INVALID ENABLE_COAP E inst
                               ++ population_reconnect INVALID ENABLE_COAP E inst)).
Proof.
  intros Hfind Hgood.
  pose proof (FindUnusedAgentMtp_Some _ _ _ _ Hfind) as (_ & m0 & Hm0 & _).
  assert (Hi : (i < length (agent_mtps w))%nat) by (eapply lookup_lt_Some, Hm0).
  unfold ProcessAgentMtpAdded. rewrite (bind_Some _ _ _ _ _ Hfind). cbv beta iota.
  destruct w as [tbl cs]. cbn [agent_mtps calls] in *.
  replace (Build_world tbl cs) with (at_slot tbl i m0 cs)
    by (symmetry; apply (at_slot_here (Build_world tbl cs) i m0 Hm0)).
  rewrite (at_slot_update _ _ Hi).
  rewrite (bind_Some _ _ _ _ _
             (ProcessAgentMtpAdded_reads_success INVALID ENABLE_COAP E tbl i inst cs Hi Hgood)).
  cbn [is_ok negb when]. rewrite bind_ret, (at_slot_load _ _ Hi).
  unfold population_reconnect, affects_STOMP_connection. cbv zeta.
  destruct (enable _ && protocol_eqb _ kMtpProtocol_STOMP && negb (_ =? INVALID));
    cbn [when]; unfold DEVICE_STOMP_ScheduleReconnect.
  - rewrite at_slot_emit, <- app_assoc. reflexivity.
  - rewrite bind_ret, app_nil_r. reflexivity.
Qed.

(** X3: a population run that takes slot [i] and meets no failure returns
    success with the slot holding the values read from the database, every
    other slot as before, and exactly these calls: the start of the CoAP
    server when the row is enabled on CoAP, then one reconnect when it is
    enabled on STOMP with a reference that is set. *)
Theorem ProcessAgentMtpAdded_success
    (INVALID : Z) (ENABLE_COAP : bool) (E : dm_env) (w : world) (inst : Z) (i : nat) :
  FindUnusedAgentMtp INVALID w = Some (Some i, w) ->
  ~ population_fails INVALID ENABLE_COAP E inst ->
  ProcessAgentMtpAdded INVALID ENABLE_COAP E inst w
  = Some (USP_ERR_OK,
          Build_world (<[i := resolved_mtp INVALID ENABLE_COAP E inst]> (agent_mtps w))
                      (calls w ++ population_start INVALID ENABLE_COAP E inst
                               ++ population_reconnect INVALID ENABLE_COAP E inst)).
Proof. apply population_succeeds. Qed.

Lemma example_env_population_ok inst : ~ population_fails (-1) true example_env inst.
Proof.
  unfold population_fails. cbn.
  intros [H|[H|[H|[H|(_ & [H|[H|(H & _)]])]]]]; congruence.
Qed.

Lemma ProcessAgentMtpAdded_success_witness :
  ProcessAgentMtpAdded (-1) true example_env 7 partial_world
  = Some (USP_ERR_OK,
          Build_world (<[2%nat := resolved_mtp (-1) true example_env 7]>
                         (agent_mtps partial_world))
                      (calls partial_world ++ population_start (-1) true example_env 7
                               ++ population_reconnect (-1) true example_env 7)).
Proof.
  apply (ProcessAgentMtpAdded_success (-1) true example_env partial_world 7 2%nat).
  - reflexivity.
  - apply example_env_population_ok.
Defined.

Lemma population_then_found INVALID ENABLE_COAP E w inst i :
  table_ok w ->
  FindUnusedAgentMtp INVALID w = Some (Some i, w) ->
  (forall j m, agent_mtps w !! j = Some m -> instance m <> inst) ->
  forall cs,
    let w' := Build_world (<[i := resolved_mtp INVALID ENABLE_COAP E inst]> (agent_mtps w)) cs in
    table_ok w' /\
    agent_mtps w' !! i = Some (resolved_mtp INVALID ENABLE_COAP E inst) /\
    FindAgentMtpByInstance inst w' = Some (Some i, w').
Proof.
  intros Hlen Hfind Hfresh cs w'.
  pose proof (FindUnusedAgentMtp_Some _ _ _ _ Hfind) as (_ & m0 & Hm0 & _).
  assert (Hi : (i < length (agent_mtps w))%nat) by (eapply lookup_lt_Some, Hm0).
  assert (Hslot : agent_mtps w' !! i = Some (resolved_mtp INVALID ENABLE_COAP E inst))
    by (eapply lookup_updated, Hm0).
  split; [unfold table_ok, w'; cbn [agent_mtps]; rewrite length_insert; exact Hlen|].
  split; [exact Hslot|].
  apply (FindAgentMtpByInstance_first inst w' i (resolved_mtp INVALID ENABLE_COAP E inst));
    [rewrite <- Hlen; exact Hi|exact Hslot|reflexivity|].
  intros j mj Hj Hmj. unfold w' in Hmj. cbn [agent_mtps] in Hmj.
  rewrite list_lookup_insert_ne in Hmj by lia. apply (Hfresh j mj Hmj).
Qed.

(** X4: after a successful population of a row whose instance number was
    not in the table, the search by instance finds the row in the slot that
    the run took, holding the values read; the table keeps its size. *)
Theorem ProcessAgentMtpAdded_then_FindAgentMtpByInstance
    (INVALID : Z) (ENABLE_COAP : bool) (E : dm_env) (w : world) (inst : Z) (i : nat) :
  table_ok w ->
  FindUnusedAgentMtp INVALID w = Some (Some i, w) ->
  ~ population_fails INVALID ENABLE_COAP E inst ->
  (forall j m, agent_mtps w !! j = Some m -> instance m <> inst) ->
  exists w',
    ProcessAgentMtpAdded INVALID ENABLE_COAP E inst w = Some (USP_ERR_OK, w') /\
    table_ok w' /\
    agent_mtps w' !! i = Some (resolved_mtp INVALID ENABLE_COAP E inst) /\
    FindAgentMtpByInstance inst w' = Some (Some i, w').
Proof.
  intros Hlen Hfind Hgood Hfresh.
  eexists. split; [apply (population_succeeds _ _ _ _ _ _ Hfind Hgood)|].
  apply (population_then_found INVALID ENABLE_COAP E w inst i Hlen Hfind Hfresh).
Qed.

Lemma partial_world_fresh_7 :
  forall j m, agent_mtps partial_world !! j = Some m -> instance m <> 7.
Proof.
  intros j m Hj.
  destruct j as [|[|[|[|[|j]]]]]; simpl in Hj; inversion Hj; subst m; discriminate.
Qed.

Lemma ProcessAgentMtpAdded_then_FindAgentMtpByInstance_witness :
  exists w',
    ProcessAgentMtpAdded (-1) true example_env 7 partial_world = Some (USP_ERR_OK, w') /\
    table_ok w' /\
    agent_mtps w' !! 2%nat = Some (resolved_mtp (-1) true example_env 7) /\
    FindAgentMtpByInstance 7 w' = Some (Some 2%nat, w').
Proof.
  apply (ProcessAgentMtpAdded_then_FindAgentMtpByInstance (-1) true example_env
           partial_world 7 2%nat).
  - reflexivity.
  - reflexivity.
  - apply example_env_population_ok.
  - apply partial_world_fresh_7.
Defined.





Lemma full_world_instances_unique : instances_unique (-1) (agent_mtps full_world).
Proof.
  intros j k mj mk Hj Hk _ Heq.
  destruct j as [|[|[|[|[|j]]]]]; simpl in Hj; inversion Hj; subst mj;
    destruct k as [|[|[|[|[|k]]]]]; simpl in Hk; inversion Hk; subst mk;
      solve [reflexivity | discriminate Heq].
Qed.


Lemma insert_middle {A} (l1 l2 : list A) (x y : A) :
  <[length l1 := x]> (l1 ++ y :: l2) = l1 ++ x :: l2.
Proof. rewrite insert_app_r_alt by lia. rewrite Nat.sub_diag. reflexivity. Qed.

Lemma DEVICE_MTP_Stop_loop_run INVALID ENABLE_COAP cs :
  forall todo done,
    DEVICE_MTP_Stop_loop INVALID ENABLE_COAP (length done) (length todo)
      (Build_world (done ++ todo) cs)
    = Some (tt, Build_world (done ++ map (stopped_mtp INVALID ENABLE_COAP) todo) cs).
Proof.
  induction todo as [|m todo IH]; intros done; [reflexivity|].
  cbn [length DEVICE_MTP_Stop_loop map].
  assert (Hm : (done ++ m :: todo) !! length done = Some m) by apply list_lookup_middle, eq_refl.
  rewrite (bind_Some _ _ _ _ _ (load_Some _ (Build_world (done ++ m :: todo) cs) _ Hm)).
  assert (Hnext : forall x, done ++ x :: todo = (done ++ [x]) ++ todo)
    by (intros x; rewrite <- app_assoc; reflexivity).
  assert (Hlen : S (length done) = length (done ++ [m])) by (rewrite length_app; cbn; lia).
  unfold stopped_mtp at 1. destruct (instance m =? INVALID); cbn [negb when].
  - rewrite bind_ret, (Hnext m), Hlen. rewrite IH, <- app_assoc. reflexivity.
  - unfold DestroyAgentMtp.
    rewrite (bind_Some _ _ _ _ _ (update_Some _ _ (Build_world (done ++ m :: todo) cs) _ Hm)).
    cbn [agent_mtps calls]. rewrite insert_middle.
    rewrite (Hnext (destroyed INVALID ENABLE_COAP m)).
    replace (S (length done)) with (length (done ++ [destroyed INVALID ENABLE_COAP m]))
      by (rewrite length_app; cbn; lia).
    rewrite IH, <- app_assoc. reflexivity.
Qed.

(** X7: [DEVICE_MTP_Stop] releases every slot in use and leaves the free
    ones as they are, whether the slots are enabled or not; afterwards
    every slot of the table is free. It stops no CoAP server and schedules
    no reconnect: it makes no call at all. *)
Theorem DEVICE_MTP_Stop_releases_every_slot
    (INVALID : Z) (ENABLE_COAP : bool) (w : world) :
  table_ok w ->
  DEVICE_MTP_Stop INVALID ENABLE_COAP w
  = Some (tt, Build_world (map (stopped_mtp INVALID ENABLE_COAP) (agent_mtps w)) (calls w))
  /\ (forall m, In m (map (stopped_mtp INVALID ENABLE_COAP) (agent_mtps w)) ->
                instance m = INVALID).
Proof.
  intros Hlen. split.
  - unfold DEVICE_MTP_Stop. rewrite <- Hlen. destruct w as [tbl cs].
    apply (DEVICE_MTP_Stop_loop_run INVALID ENABLE_COAP cs tbl []).
  - intros m Hin. apply in_map_iff in Hin as (m0 & <- & _).
    unfold stopped_mtp. destruct (instance m0 =? INVALID) eqn:Hfree.
    + apply Z.eqb_eq. exact Hfree.
    + unfold destroyed. destruct ENABLE_COAP; reflexivity.
Qed.

Lemma DEVICE_MTP_Stop_releases_every_slot_witness :
  DEVICE_MTP_Stop (-1) true partial_world
  = Some (tt, Build_world (map (stopped_mtp (-1) true) (agent_mtps partial_world))
                          (calls partial_world))
  /\ (forall m, In m (map (stopped_mtp (-1) true) (agent_mtps partial_world)) ->
                instance m = -1).
Proof. apply (DEVICE_MTP_Stop_releases_every_slot (-1) true partial_world). reflexivity. Defined.

(** ** The references to STOMP connections *)

(** X8: a reference that [DEVICE_MTP_ValidateStompReference] accepts and
    that the database holds is resolved by [DEVICE_MTP_GetStompReference]
    without error: to [INVALID] when it is empty, without asking the
    connection table, and else to the instance that the connection table
    gives for it. *)
Theorem DEVICE_MTP_GetStompReference_of_validated
    (INVALID : Z) (E : dm_env) (path : dm_path) (value : string) :
  DATA_MODEL_GetParameterValue E path = (USP_ERR_OK, value) ->
  DEVICE_MTP_ValidateStompReference E value = USP_ERR_OK ->
  exists c,
    DEVICE_MTP_GetStompReference INVALID E path = (USP_ERR_OK, c) /\
    (value = EmptyString -> c = INVALID) /\
    (value <> EmptyString -> c = snd (DM_ACCESS_ValidateReference E value)).
Proof.
  intros Hget Hval. unfold DEVICE_MTP_GetStompReference, DEVICE_MTP_ValidateStompReference in *.
  rewrite Hget. cbn [is_ok negb]. destruct value as [|a s]; cbn [is_empty] in *.
  - exists INVALID. repeat split; auto. intros H. elim H. reflexivity.
  - destruct (DM_ACCESS_ValidateReference E (String a s)) as [err c]. cbn [fst snd] in *.
    subst err. exists c. repeat split; auto. discriminate.
Qed.

Lemma DEVICE_MTP_GetStompReference_of_validated_witness :
  exists c,
    DEVICE_MTP_GetStompReference (-1) example_env (MTP_path 7 Param_STOMP_Reference)
    = (USP_ERR_OK, c) /\
    ("Device.STOMP.Connection.1"%string = EmptyString -> c = -1) /\
    ("Device.STOMP.Connection.1"%string <> EmptyString ->
     c = snd (DM_ACCESS_ValidateReference example_env "Device.STOMP.Connection.1")).
Proof.
  apply (DEVICE_MTP_GetStompReference_of_validated (-1) example_env
           (MTP_path 7 Param_STOMP_Reference) "Device.STOMP.Connection.1"); reflexivity.
Defined.

(** ** The handlers of the other parameters *)

Lemma handler_enter {A} inst1 w i m (k : nat -> M A) :
  FindAgentMtpByInstance inst1 w = Some (Some i, w) ->
  agent_mtps w !! i = Some m ->
  bind (FindAgentMtpByInstance inst1) (fun mtp => bind (USP_ASSERT_not_NULL mtp) k) w
  = k i (at_slot (agent_mtps w) i m (calls w)).
Proof.
  intros Hfind Hm. rewrite (bind_Some _ _ _ _ _ Hfind). cbn [USP_ASSERT_not_NULL].
  rewrite bind_ret, <- (at_slot_here w i m Hm). reflexivity.
Qed.

Lemma handler_aborts {A} inst1 w (k : nat -> M A) :
  FindAgentMtpByInstance inst1 w = Some (None, w) ->
  bind (FindAgentMtpByInstance inst1) (fun mtp => bind (USP_ASSERT_not_NULL mtp) k) w = None.
Proof. intros Hfind. rewrite (bind_Some _ _ _ _ _ Hfind). reflexivity. Qed.

Lemma NotifyChange_AgentMtpEnable_run INVALID ENABLE_COAP E w inst1 val_bool i m :
  FindAgentMtpByInstance inst1 w = Some (Some i, w) ->
  agent_mtps w !! i = Some m ->
  (val_bool = enable m ->
   NotifyChange_AgentMtpEnable INVALID ENABLE_COAP E inst1 val_bool w
   = Some (USP_ERR_OK, w)) /\
  (val_bool <> enable m ->
   exists err made,
     NotifyChange_AgentMtpEnable INVALID ENABLE_COAP E inst1 val_bool w
     = Some (err, Build_world (<[i := set_enable val_bool m]> (agent_mtps w))
                              (calls w ++ made)) /\
     (protocol m = kMtpProtocol_STOMP ->
      err = USP_ERR_OK /\ made = reconnect_if_set INVALID (stomp_connection_instance m)) /\
     (protocol m = kMtpProtocol_None -> err = USP_ERR_OK /\ made = []) /\
     (protocol m = kMtpProtocol_CoAP -> ENABLE_COAP = false ->
      err = USP_ERR_OK /\ made = []) /\
     (protocol m = kMtpProtocol_CoAP -> ENABLE_COAP = true -> val_bool = false ->
      err = USP_ERR_OK /\ made = [Call_COAP_StopServer (instance m)]) /\
     (protocol m = kMtpProtocol_CoAP -> ENABLE_COAP = true -> val_bool = true ->
      made = [Call_COAP_StartServer (instance m) (coap_port m) (coap_path m)] /\
      let r := COAP_StartServer_result E (instance m) (coap_port m) (coap_path m) in
      (r = USP_ERR_OK -> err = USP_ERR_OK) /\ (r <> USP_ERR_OK -> err = r))).
Proof.
  intros Hfind Hm.
  assert (Hi : (i < length (agent_mtps w))%nat) by (eapply lookup_lt_Some, Hm).
  unfold NotifyChange_AgentMtpEnable. rewrite (handler_enter _ _ _ _ _ Hfind Hm).
  rewrite (at_slot_load _ _ Hi). split.
  - intros ->. rewrite eqb_reflx, <- (at_slot_here w i m Hm). reflexivity.
  - intros Hne. apply eqb_false_iff in Hne. rewrite Hne.
    rewrite (at_slot_update _ _ Hi), (at_slot_load _ _ Hi).
    cbn [set_enable protocol stomp_connection_instance enable instance coap_port coap_path].
    unfold at_slot.
    destruct (protocol m) eqn:Hp.
    + exists USP_ERR_OK, []. rewrite app_nil_r. split; [reflexivity|].
      repeat split; intros; congruence.
    + unfold reconnect_if_set, DEVICE_STOMP_ScheduleReconnect.
      destruct (stomp_connection_instance m =? INVALID); cbn [negb when].
      * exists USP_ERR_OK, []. rewrite app_nil_r. split; [reflexivity|].
        repeat split; intros; congruence.
      * eexists USP_ERR_OK, [_]. split; [reflexivity|].
        repeat split; intros; congruence.
    + destruct ENABLE_COAP.
      * destruct val_bool.
        -- unfold COAP_StartServer. fold (at_slot (agent_mtps w) i (set_enable true m) (calls w)).
           rewrite bind_assoc, at_slot_emit, bind_ret. unfold at_slot.
           destruct (is_ok (COAP_StartServer_result E (instance m) (coap_port m) (coap_path m)))
             eqn:Hs; cbn [negb];
             [apply is_ok_true in Hs | apply is_ok_false in Hs].
           ++ eexists USP_ERR_OK, [_]. split; [reflexivity|].
              repeat split; intros; try congruence.
           ++ eexists _, [_]. split; [reflexivity|].
              repeat split; intros; try congruence.
        -- eexists USP_ERR_OK, [_]. split; [reflexivity|].
           repeat split; intros; congruence.
      * exists USP_ERR_OK, []. rewrite app_nil_r. split; [reflexivity|].
        repeat split; intros; congruence.
Qed.

Lemma NotifyChange_AgentMtpProtocol_run
    INVALID ENABLE_COAP E w inst1 value i m new_protocol :
  FindAgentMtpByInstance inst1 w = Some (Some i, w) ->
  agent_mtps w !! i = Some m ->
  TEXT_UTILS_StringToEnum E value (mtp_protocols ENABLE_COAP) = Some new_protocol ->
  exists err made,
    NotifyChange_AgentMtpProtocol INVALID ENABLE_COAP E inst1 value w
    = Some (err, Build_world (<[i := set_protocol new_protocol m]> (agent_mtps w))
                             (calls w ++ made)) /\
    (enable m = false \/ new_protocol = protocol m -> err = USP_ERR_OK /\ made = []) /\
    (enable m = true -> new_protocol <> protocol m ->
     made = reconnect_if_set INVALID (stomp_connection_instance m)
            ++ protocol_switch ENABLE_COAP (protocol m) (set_protocol new_protocol m) /\
     let r := COAP_StartServer_result E (instance m) (coap_port m) (coap_path m) in
     (ENABLE_COAP = true -> new_protocol = kMtpProtocol_CoAP ->
      (r = USP_ERR_OK -> err = USP_ERR_OK) /\ (r <> USP_ERR_OK -> err = r)) /\
     (ENABLE_COAP = false \/ new_protocol <> kMtpProtocol_CoAP -> err = USP_ERR_OK)).
Proof.
  intros Hfind Hm Henum.
  assert (Hi : (i < length (agent_mtps w))%nat) by (eapply lookup_lt_Some, Hm).
  unfold NotifyChange_AgentMtpProtocol. rewrite (handler_enter _ _ _ _ _ Hfind Hm).
  rewrite (at_slot_load _ _ Hi). cbv zeta. rewrite Henum.
  rewrite (at_slot_update _ _ Hi), (at_slot_load _ _ Hi).
  cbn [set_protocol protocol stomp_connection_instance enable instance coap_port coap_path].
  unfold reconnect_if_set, protocol_switch, DEVICE_STOMP_ScheduleReconnect, COAP_StopServer,
    COAP_StartServer.
  cbn [set_protocol protocol stomp_connection_instance enable instance coap_port coap_path].
  destruct (enable m) eqn:Hen; cbn [negb andb].
  2:{ unfold at_slot. exists USP_ERR_OK, []. rewrite app_nil_r. split; [reflexivity|].
      split; [auto|]. intros; discriminate. }
  destruct (stomp_connection_instance m =? INVALID) eqn:Href,
           (is_ok (COAP_StartServer_result E (instance m) (coap_port m) (coap_path m)))
             eqn:Hs,
           ENABLE_COAP, (protocol m) eqn:Hp, new_protocol;
    cbn [protocol_eqb negb andb when app];
    rewrite ?bind_assoc, ?at_slot_emit, ?bind_ret, ?bind_assoc, ?at_slot_emit, ?bind_ret,
      ?bind_assoc, ?at_slot_emit, ?bind_ret;
    try rewrite Hs; cbn [negb]; unfold at_slot; rewrite <- ?app_assoc; cbn [app];
    (apply is_ok_true in Hs || apply is_ok_false in Hs);
    (first [ exists USP_ERR_OK, []; rewrite app_nil_r; split; [reflexivity|]
           | eexists _, _; split; [reflexivity|] ]);
    (split;
     [ intros [Hf|Hf]; first [discriminate Hf | split; reflexivity]
     | intros _ Hne;
       first
         [ solve [elim Hne; reflexivity]
         | split;
           [ reflexivity
           | cbv zeta; split;
             [ intros Hc1 Hc2;
               first [discriminate Hc1 | discriminate Hc2 | split; intros; congruence]
             | intros [Hf|Hf];
               first [discriminate Hf | reflexivity | solve [elim Hf; reflexivity]] ] ] ] ]).
Qed.

(** X9: a change of Enable to the value that is stored does nothing. A
    change to another value is stored and then acts on the protocol of the
    slot: on STOMP a reconnect of its connection if the reference is set; on
    CoAP the server is started when the slot becomes enabled and stopped
    when it becomes disabled; with no protocol nothing is done. A failure
    to start the server is returned, and the slot stays enabled. *)
Theorem NotifyChange_AgentMtpEnable_acts_on_change
    (INVALID : Z) (ENABLE_COAP : bool) (E : dm_env) (w : world) (inst1 : Z)
    (val_bool : bool) (i : nat) (m : agent_mtp_t) :
  FindAgentMtpByInstance inst1 w = Some (Some i, w) ->
  agent_mtps w !! i = Some m ->
  (val_bool = enable m ->
   NotifyChange_AgentMtpEnable INVALID ENABLE_COAP E inst1 val_bool w
   = Some (USP_ERR_OK, w)) /\
  (val_bool <> enable m ->
   exists err made,
     NotifyChange_AgentMtpEnable INVALID ENABLE_COAP E inst1 val_bool w
     = Some (err, Build_world (<[i := set_enable val_bool m]> (agent_mtps w))
                              (calls w ++ made)) /\
     (protocol m = kMtpProtocol_STOMP ->
      err = USP_ERR_OK /\ made = reconnect_if_set INVALID (stomp_connection_instance m)) /\
     (protocol m = kMtpProtocol_None -> err = USP_ERR_OK /\ made = []) /\
     (protocol m = kMtpProtocol_CoAP -> ENABLE_COAP = false ->
      err = USP_ERR_OK /\ made = []) /\
     (protocol m = kMtpProtocol_CoAP -> ENABLE_COAP = true -> val_bool = false ->
      err = USP_ERR_OK /\ made = [Call_COAP_StopServer (instance m)]) /\
     (protocol m = kMtpProtocol_CoAP -> ENABLE_COAP = true -> val_bool = true ->
      made = [Call_COAP_StartServer (instance m) (coap_port m) (coap_path m)] /\
      let r := COAP_StartServer_result E (instance m) (coap_port m) (coap_path m) in
      (r = USP_ERR_OK -> err = USP_ERR_OK) /\ (r <> USP_ERR_OK -> err = r))).
Proof. apply NotifyChange_AgentMtpEnable_run. Qed.

Lemma NotifyChange_AgentMtpEnable_acts_on_change_witness :
  (false = enable (coap_mtp 3 true 5683 "usp") ->
   NotifyChange_AgentMtpEnable (-1) true example_env 3 false full_world
   = Some (USP_ERR_OK, full_world)) /\
  (false <> enable (coap_mtp 3 true 5683 "usp") ->
   exists err made,
     NotifyChange_AgentMtpEnable (-1) true example_env 3 false full_world
     = Some (err, Build_world (<[2%nat := set_enable false (coap_mtp 3 true 5683 "usp")]>
                                 (agent_mtps full_world))
                              (calls full_world ++ made)) /\
     (protocol (coap_mtp 3 true 5683 "usp") = kMtpProtocol_STOMP ->
      err = USP_ERR_OK /\
      made = reconnect_if_set (-1) (stomp_connection_instance (coap_mtp 3 true 5683 "usp"))) /\
     (protocol (coap_mtp 3 true 5683 "usp") = kMtpProtocol_None ->
      err = USP_ERR_OK /\ made = []) /\
     (protocol (coap_mtp 3 true 5683 "usp") = kMtpProtocol_CoAP -> true = false ->
      err = USP_ERR_OK /\ made = []) /\
     (protocol (coap_mtp 3 true 5683 "usp") = kMtpProtocol_CoAP -> true = true ->
      false = false ->
      err = USP_ERR_OK /\
      made = [Call_COAP_StopServer (instance (coap_mtp 3 true 5683 "usp"))]) /\
     (protocol (coap_mtp 3 true 5683 "usp") = kMtpProtocol_CoAP -> true = true ->
      false = true ->
      made = [Call_COAP_StartServer (instance (coap_mtp 3 true 5683 "usp"))
                (coap_port (coap_mtp 3 true 5683 "usp"))
                (coap_path (coap_mtp 3 true 5683 "usp"))] /\
      let r := COAP_StartServer_result example_env
                 (instance (coap_mtp 3 true 5683 "usp"))
                 (coap_port (coap_mtp 3 true 5683 "usp"))
                 (coap_path (coap_mtp 3 true 5683 "usp")) in
      (r = USP_ERR_OK -> err = USP_ERR_OK) /\ (r <> USP_ERR_OK -> err = r))).
Proof.
  apply (NotifyChange_AgentMtpEnable_acts_on_change (-1) true example_env full_world 3 false
           2%nat (coap_mtp 3 true 5683 "usp")); reflexivity.
Defined.

(** X10: a change of Protocol is always stored. On a disabled slot, or when
    the protocol is the one already stored, nothing else is done. On an
    enabled slot whose protocol changes, a reconnect of the STOMP connection
    is scheduled if the reference is set, whichever way the switch goes,
    then the CoAP server is stopped if the previous protocol was CoAP and
    started if the new one is, and a failure to start it is returned. *)
Theorem NotifyChange_AgentMtpProtocol_switches_transport
    (INVALID : Z) (ENABLE_COAP : bool) (E : dm_env) (w : world) (inst1 : Z)
    (value : string) (i : nat) (m : agent_mtp_t) (new_protocol : mtp_protocol_t) :
  FindAgentMtpByInstance inst1 w = Some (Some i, w) ->
  agent_mtps w !! i = Some m ->
  TEXT_UTILS_StringToEnum E value (mtp_protocols ENABLE_COAP) = Some new_protocol ->
  exists err made,
    NotifyChange_AgentMtpProtocol INVALID ENABLE_COAP E inst1 value w
    = Some (err, Build_world (<[i := set_protocol new_protocol m]> (agent_mtps w))
                             (calls w ++ made)) /\
    (enable m = false \/ new_protocol = protocol m -> err = USP_ERR_OK /\ made = []) /\
    (enable m = true -> new_protocol <> protocol m ->
     made = reconnect_if_set INVALID (stomp_connection_instance m)
            ++ protocol_switch ENABLE_COAP (protocol m) (set_protocol new_protocol m) /\
     let r := COAP_StartServer_result E (instance m) (coap_port m) (coap_path m) in
     (ENABLE_COAP = true -> new_protocol = kMtpProtocol_CoAP ->
      (r = USP_ERR_OK -> err = USP_ERR_OK) /\ (r <> USP_ERR_OK -> err = r)) /\
     (ENABLE_COAP = false \/ new_protocol <> kMtpProtocol_CoAP -> err = USP_ERR_OK)).
Proof. apply NotifyChange_AgentMtpProtocol_run. Qed.

Lemma NotifyChange_AgentMtpProtocol_switches_transport_witness :
  exists err made,
    NotifyChange_AgentMtpProtocol (-1) true cleared_env 1 "CoAP" full_world
    = Some (err, Build_world (<[0%nat := set_protocol kMtpProtocol_CoAP
                                           (stomp_mtp 1 true 1 "agent/1")]>
                                (agent_mtps full_world))
                             (calls full_world ++ made)) /\
    (enable (stomp_mtp 1 true 1 "agent/1") = false \/
     kMtpProtocol_CoAP = protocol (stomp_mtp 1 true 1 "agent/1") ->
     err = USP_ERR_OK /\ made = []) /\
    (enable (stomp_mtp 1 true 1 "agent/1") = true ->
     kMtpProtocol_CoAP <> protocol (stomp_mtp 1 true 1 "agent/1") ->
     made = reconnect_if_set (-1) (stomp_connection_instance (stomp_mtp 1 true 1 "agent/1"))
            ++ protocol_switch true (protocol (stomp_mtp 1 true 1 "agent/1"))
                 (set_protocol kMtpProtocol_CoAP (stomp_mtp 1 true 1 "agent/1")) /\
     let r := COAP_StartServer_result cleared_env
                (instance (stomp_mtp 1 true 1 "agent/1"))
                (coap_port (stomp_mtp 1 true 1 "agent/1"))
                (coap_path (stomp_mtp 1 true 1 "agent/1")) in
     (true = true -> kMtpProtocol_CoAP = kMtpProtocol_CoAP ->
      (r = USP_ERR_OK -> err = USP_ERR_OK) /\ (r <> USP_ERR_OK -> err = r)) /\
     (true = false \/ kMtpProtocol_CoAP <> kMtpProtocol_CoAP -> err = USP_ERR_OK)).
Proof.
  apply (NotifyChange_AgentMtpProtocol_switches_transport (-1) true cleared_env full_world 1
           "CoAP" 0%nat (stomp_mtp 1 true 1 "agent/1") kMtpProtocol_CoAP); reflexivity.
Defined.

(** The scenario of an enabled STOMP slot switched to CoAP: one reconnect of
    its connection, then one start of the server on the stored port. *)
Example NotifyChange_AgentMtpProtocol_STOMP_to_CoAP :
  outcome (NotifyChange_AgentMtpProtocol (-1) true cleared_env 1 "CoAP" full_world)
  = Some (USP_ERR_OK,
          [Call_DEVICE_STOMP_ScheduleReconnect 1;
           Call_COAP_StartServer 1 5683 (Some EmptyString)]).
Proof. reflexivity. Qed.

(** X11: the validation of Protocol and the change handler agree. A value
    that [Validate_AgentMtpProtocol] accepts passes the assertion of
    [NotifyChange_AgentMtpProtocol], which then returns; a value that it
    rejects, with [USP_ERR_INVALID_VALUE] and without touching a slot, is one
    on which the handler would stop the process at its assertion. *)
Theorem Validate_AgentMtpProtocol_guards_NotifyChange
    (INVALID : Z) (ENABLE_COAP : bool) (E : dm_env) (w0 w : world) (inst1 : Z)
    (value : string) (i : nat) :
  FindAgentMtpByInstance inst1 w = Some (Some i, w) ->
  exists verr w0',
    Validate_AgentMtpProtocol ENABLE_COAP E value w0 = Some (verr, w0') /\
    agent_mtps w0' = agent_mtps w0 /\
    (verr = USP_ERR_OK ->
     exists err w', NotifyChange_AgentMtpProtocol INVALID ENABLE_COAP E inst1 value w
                    = Some (err, w')) /\
    (verr <> USP_ERR_OK ->
     verr = USP_ERR_INVALID_VALUE /\
     NotifyChange_AgentMtpProtocol INVALID ENABLE_COAP E inst1 value w = None).
Proof.
  intros Hfind.
  pose proof (FindAgentMtpByInstance_Some _ _ _ _ Hfind) as (_ & m & Hm & _).
  assert (Hi : (i < length (agent_mtps w))%nat) by (eapply lookup_lt_Some, Hm).
  unfold Validate_AgentMtpProtocol.
  destruct (TEXT_UTILS_StringToEnum E value (mtp_protocols ENABLE_COAP)) as [p|] eqn:Henum.
  - exists USP_ERR_OK, w0. split; [reflexivity|]. split; [reflexivity|]. split.
    + intros _.
      destruct (NotifyChange_AgentMtpProtocol_run INVALID ENABLE_COAP E w inst1 value i m p
                  Hfind Hm Henum) as (err & made & Hrun & _).
      eexists _, _. exact Hrun.
    + intros H. elim H. reflexivity.
  - eexists USP_ERR_INVALID_VALUE, _. split; [reflexivity|]. split; [reflexivity|]. split.
    + discriminate.
    + intros _. split; [reflexivity|].
      unfold NotifyChange_AgentMtpProtocol. rewrite (handler_enter _ _ _ _ _ Hfind Hm).
      rewrite (at_slot_load _ _ Hi). cbv zeta. rewrite Henum. reflexivity.
Qed.

Lemma Validate_AgentMtpProtocol_guards_NotifyChange_witness :
  exists verr w0',
    Validate_AgentMtpProtocol true cleared_env "MQTT" full_world = Some (verr, w0') /\
    agent_mtps w0' = agent_mtps full_world /\
    (verr = USP_ERR_OK ->
     exists err w', NotifyChange_AgentMtpProtocol (-1) true cleared_env 1 "MQTT" full_world
                    = Some (err, w')) /\
    (verr <> USP_ERR_OK ->
     verr = USP_ERR_INVALID_VALUE /\
     NotifyChange_AgentMtpProtocol (-1) true cleared_env 1 "MQTT" full_world = None).
Proof.
  apply (Validate_AgentMtpProtocol_guards_NotifyChange (-1) true cleared_env full_world
           full_world 1 "MQTT" 0%nat).
  reflexivity.
Defined.

Lemma NotifyChange_AgentMtpStompDestination_run INVALID w inst1 value i m :
  FindAgentMtpByInstance inst1 w = Some (Some i, w) ->
  agent_mtps w !! i = Some m ->
  (enable m = true -> protocol m = kMtpProtocol_STOMP -> stomp_agent_queue m <> None) ->
  exists made,
    NotifyChange_AgentMtpStompDestination INVALID inst1 value w
    = Some (USP_ERR_OK,
            Build_world (<[i := set_stomp_agent_queue (Some value) m]> (agent_mtps w))
                        (calls w ++ made)) /\
    (enable m = true -> protocol m = kMtpProtocol_STOMP ->
     stomp_connection_instance m <> INVALID -> stomp_agent_queue m <> Some value ->
     made = [Call_DEVICE_STOMP_ScheduleReconnect (stomp_connection_instance m)]) /\
    (enable m = false \/ protocol m <> kMtpProtocol_STOMP \/
     stomp_connection_instance m = INVALID \/ stomp_agent_queue m = Some value ->
     made = []).
Proof.
  intros Hfind Hm Hq.
  assert (Hi : (i < length (agent_mtps w))%nat) by (eapply lookup_lt_Some, Hm).
  unfold NotifyChange_AgentMtpStompDestination. rewrite (handler_enter _ _ _ _ _ Hfind Hm).
  rewrite (at_slot_load _ _ Hi).
  assert (Hdone : forall b,
    (schedule_reconnect <- ret b ;;
     update i (set_stomp_agent_queue None) ;;;
     update i (set_stomp_agent_queue (Some value)) ;;;
     m0 <- load i ;;
     when schedule_reconnect
       (DEVICE_STOMP_ScheduleReconnect (stomp_connection_instance m0)) ;;;
     ret USP_ERR_OK)%mtp (at_slot (agent_mtps w) i m (calls w))
    = Some (USP_ERR_OK,
            Build_world (<[i := set_stomp_agent_queue (Some value) m]> (agent_mtps w))
              (calls w ++ (if b then [Call_DEVICE_STOMP_ScheduleReconnect
                                        (stomp_connection_instance m)] else [])))).
  { intros b. rewrite bind_ret, !(at_slot_update _ _ Hi), (at_slot_load _ _ Hi).
    destruct b; cbn [when]; unfold DEVICE_STOMP_ScheduleReconnect.
    - rewrite at_slot_emit. reflexivity.
    - rewrite bind_ret, app_nil_r. reflexivity. }
  destruct (enable m) eqn:Hen; cbn [andb].
  2:{ rewrite Hdone. eexists. split; [reflexivity|]. split; [discriminate|reflexivity]. }
  destruct (protocol_eqb (protocol m) kMtpProtocol_STOMP) eqn:Hp;
    [apply protocol_eqb_eq in Hp | apply protocol_eqb_neq in Hp].
  2:{ rewrite Hdone. eexists. split; [reflexivity|]. split; [intros; congruence|reflexivity]. }
  destruct (stomp_agent_queue m) as [q|] eqn:Hqm; [|elim (Hq eq_refl Hp); reflexivity].
  rewrite Hdone. eexists. split; [reflexivity|].
  destruct (String.eqb_spec q value) as [->|Hne], (Z.eqb_spec (stomp_connection_instance m) INVALID);
    cbn [negb andb]; split; try reflexivity; intros; try congruence.
  destruct H as [H|[H|[H|H]]]; congruence.
Qed.

(** X12: a change of STOMP.Destination always replaces the stored queue
    name and returns success. It schedules one reconnect, of the connection
    of the slot, when the slot is enabled, on STOMP, its reference is set
    and the name differs from the stored one, and makes no call in every
    other case. *)
Theorem NotifyChange_AgentMtpStompDestination_reconnects
    (INVALID : Z) (w : world) (inst1 : Z) (value : string) (i : nat) (m : agent_mtp_t) :
  FindAgentMtpByInstance inst1 w = Some (Some i, w) ->
  agent_mtps w !! i = Some m ->
  (enable m = true -> protocol m = kMtpProtocol_STOMP -> stomp_agent_queue m <> None) ->
  exists made,
    NotifyChange_AgentMtpStompDestination INVALID inst1 value w
    = Some (USP_ERR_OK,
            Build_world (<[i := set_stomp_agent_queue (Some value) m]> (agent_mtps w))
                        (calls w ++ made)) /\
    (enable m = true -> protocol m = kMtpProtocol_STOMP ->
     stomp_connection_instance m <> INVALID -> stomp_agent_queue m <> Some value ->
     made = [Call_DEVICE_STOMP_ScheduleReconnect (stomp_connection_instance m)]) /\
    (enable m = false \/ protocol m <> kMtpProtocol_STOMP \/
     stomp_connection_instance m = INVALID \/ stomp_agent_queue m = Some value ->
     made = []).
Proof. apply NotifyChange_AgentMtpStompDestination_run. Qed.

Lemma NotifyChange_AgentMtpStompDestination_reconnects_witness :
  exists made,
    NotifyChange_AgentMtpStompDestination (-1) 4 "agent/4" full_world
    = Some (USP_ERR_OK,
            Build_world (<[3%nat := set_stomp_agent_queue (Some "agent/4"%string)
                                      (stomp_mtp 4 true 2 EmptyString)]>
                           (agent_mtps full_world))
                        (calls full_world ++ made)) /\
    (enable (stomp_mtp 4 true 2 EmptyString) = true ->
     protocol (stomp_mtp 4 true 2 EmptyString) = kMtpProtocol_STOMP ->
     stomp_connection_instance (stomp_mtp 4 true 2 EmptyString) <> -1 ->
     stomp_agent_queue (stomp_mtp 4 true 2 EmptyString) <> Some "agent/4"%string ->
     made = [Call_DEVICE_STOMP_ScheduleReconnect
               (stomp_connection_instance (stomp_mtp 4 true 2 EmptyString))]) /\
    (enable (stomp_mtp 4 true 2 EmptyString) = false \/
     protocol (stomp_mtp 4 true 2 EmptyString) <> kMtpProtocol_STOMP \/
     stomp_connection_instance (stomp_mtp 4 true 2 EmptyString) = -1 \/
     stomp_agent_queue (stomp_mtp 4 true 2 EmptyString) = Some "agent/4"%string ->
     made = []).
Proof.
  apply (NotifyChange_AgentMtpStompDestination_reconnects (-1) full_world 4 "agent/4"
           3%nat (stomp_mtp 4 true 2 EmptyString)); try reflexivity.
  intros _ _. discriminate.
Defined.

(** X13: the queue name written by a change of STOMP.Destination is the
    one that the STOMP connection of the slot gets from
    [DEVICE_MTP_GetAgentStompQueue] once the handler has returned, so the
    reconnect that the handler schedules subscribes with the new name: this
    holds for an enabled STOMP slot in use, a non-empty name, and no slot
    before it in the table that answers for the same connection. *)
Theorem NotifyChange_AgentMtpStompDestination_then_GetAgentStompQueue
    (INVALID : Z) (w : world) (inst1 : Z) (value : string) (i : nat) (m : agent_mtp_t) :
  table_ok w ->
  queues_owned INVALID (agent_mtps w) ->
  FindAgentMtpByInstance inst1 w = Some (Some i, w) ->
  agent_mtps w !! i = Some m ->
  inst1 <> INVALID ->
  enable m = true ->
  protocol m = kMtpProtocol_STOMP ->
  value <> EmptyString ->
  (forall j mj q, (j < i)%nat -> agent_mtps w !! j = Some mj ->
                  ~ queue_candidate INVALID (stomp_connection_instance m) mj q) ->
  exists w',
    NotifyChange_AgentMtpStompDestination INVALID inst1 value w = Some (USP_ERR_OK, w') /\
    DEVICE_MTP_GetAgentStompQueue INVALID (stomp_connection_instance m) w'
    = Some (Some value, w').
Proof.
  intros Hlen Howned Hfind Hm Hinst Hen Hp Hval Hbefore.
  pose proof (FindAgentMtpByInstance_Some _ _ _ _ Hfind) as (_ & m1 & Hm1 & Hmi).
  rewrite Hm in Hm1. inversion Hm1; subst m1. clear Hm1.
  assert (Hi : (i < length (agent_mtps w))%nat) by (eapply lookup_lt_Some, Hm).
  assert (Hused : instance m <> INVALID) by congruence.
  destruct (NotifyChange_AgentMtpStompDestination_run INVALID w inst1 value i m Hfind Hm)
    as (made & Hrun & _); [intros _ _; apply (Howned i m Hm Hused)|].
  eexists. split; [exact Hrun|].
  set (m' := set_stomp_agent_queue (Some value) m).
  set (tbl' := <[i := m']> (agent_mtps w)).
  assert (Hm' : tbl' !! i = Some m') by (eapply lookup_updated, Hm).
  assert (Howned' : queues_owned INVALID tbl').
  { intros j mj Hj Hu. destruct (decide (j = i)) as [->|Hne].
    - rewrite Hm' in Hj. inversion Hj; subst mj. discriminate.
    - unfold tbl' in Hj. rewrite list_lookup_insert_ne in Hj by auto.
      apply (Howned j mj Hj Hu). }
  assert (Hcand : queue_candidate INVALID (stomp_connection_instance m) m' value)
    by (unfold queue_candidate, m'; cbn; repeat split; auto).
  destruct (DEVICE_MTP_GetAgentStompQueue_loop_spec INVALID tbl'
              (stomp_connection_instance m) Howned' 0 MAX_AGENT_MTPS) as (r & Hr & Hspec).
  unfold DEVICE_MTP_GetAgentStompQueue, bind, get_table. cbv beta iota.
  cbn [agent_mtps]. fold m'. fold tbl'. rewrite Hr.
  assert (Hrange : (0 <= i < 0 + MAX_AGENT_MTPS)%nat) by (rewrite <- Hlen; lia).
  destruct r as [q|].
  - destruct Hspec as (k & mk & Hk & Hlk & Hck & Hb).
    destruct (Nat.lt_trichotomy k i) as [Hlt|[Heq|Hgt]].
    + exfalso. unfold tbl' in Hlk. rewrite list_lookup_insert_ne in Hlk by lia.
      apply (Hbefore k mk q Hlt Hlk Hck).
    + subst k. rewrite Hm' in Hlk. inversion Hlk; subst mk.
      destruct Hck as (_ & _ & _ & _ & Hq & _). cbn in Hq. inversion Hq; subst q.
      reflexivity.
    + exfalso. apply (Hb i m' value); [lia|exact Hm'|exact Hcand].
  - exfalso. apply (Hspec i m' value Hrange Hm' Hcand).
Qed.

Lemma NotifyChange_AgentMtpStompDestination_then_GetAgentStompQueue_witness :
  exists w',
    NotifyChange_AgentMtpStompDestination (-1) 1 "agent/new" partial_world
    = Some (USP_ERR_OK, w') /\
    DEVICE_MTP_GetAgentStompQueue (-1)
      (stomp_connection_instance (stomp_mtp 1 true 1 EmptyString)) w'
    = Some (Some "agent/new"%string, w').
Proof.
  apply (NotifyChange_AgentMtpStompDestination_then_GetAgentStompQueue (-1) partial_world 1
           "agent/new" 0%nat (stomp_mtp 1 true 1 EmptyString)); try reflexivity;
    try discriminate.
  - intros i mtp Hi Hused.
    destruct i as [|[|[|[|[|i]]]]]; simpl in Hi; inversion Hi; subst mtp;
      solve [discriminate | elim Hused; reflexivity].
  - intros j mj q Hj. lia.
Defined.

(** ** What the change handlers keep *)

Lemma protocol_switch_no_write ENABLE_COAP old m :
  List.filter is_write (protocol_switch ENABLE_COAP old m) = [].
Proof.
  unfold protocol_switch.
  destruct (ENABLE_COAP && protocol_eqb old kMtpProtocol_CoAP),
           (ENABLE_COAP && protocol_eqb (protocol m) kMtpProtocol_CoAP); reflexivity.
Qed.

Lemma restart_no_write inst1 m : List.filter is_write (restart inst1 m) = [].
Proof.
  unfold restart. destruct (protocol_eqb (protocol m) kMtpProtocol_CoAP && enable m);
    reflexivity.
Qed.

Lemma find_cases inst1 w :
  (exists i m, FindAgentMtpByInstance inst1 w = Some (Some i, w) /\
               agent_mtps w !! i = Some m) \/
  FindAgentMtpByInstance inst1 w = Some (None, w).
Proof.
  destruct (FindAgentMtpByInstance inst1 w) as [[[i|] w0]|] eqn:Hfind.
  - left. apply FindAgentMtpByInstance_Some in Hfind as Hf.
    destruct Hf as (-> & m & Hm & _). eauto.
  - right. unfold FindAgentMtpByInstance, bind, get_table, ret in Hfind. congruence.
  - unfold FindAgentMtpByInstance, bind, get_table, ret in Hfind. discriminate Hfind.
Qed.

Lemma unchanged_slot w i m :
  agent_mtps w !! i = Some m -> changed_slot w w i m m [].
Proof.
  intros Hm. split; [exact Hm|]. split; [|reflexivity].
  rewrite list_insert_id by exact Hm. rewrite app_nil_r. destruct w; reflexivity.
Qed.

Lemma change_handler_changes_slot INVALID ENABLE_COAP E inst1 h w err w' :
  change_handler INVALID ENABLE_COAP E inst1 h ->
  h w = Some (err, w') ->
  exists i m m' made,
    changed_slot w w' i m m' made /\
    List.filter is_write made = [] /\
    (stomp_agent_queue m <> None -> stomp_agent_queue m' <> None).
Proof.
  intros Hh Hrun.
  destruct (find_cases inst1 w) as [(i & m & Hfind & Hm)|Hnone].
  2:{ exfalso. destruct Hh;
        [ unfold NotifyChange_AgentMtpEnable in Hrun
        | unfold NotifyChange_AgentMtpProtocol in Hrun
        | unfold NotifyChange_AgentMtpStompReference in Hrun
        | unfold NotifyChange_AgentMtpStompDestination in Hrun
        | unfold NotifyChange_AgentMtpCoAPPort in Hrun
        | unfold NotifyChange_AgentMtpCoAPPath in Hrun ];
        rewrite (handler_aborts _ _ _ Hnone) in Hrun; discriminate Hrun. }
  assert (Hi : (i < length (agent_mtps w))%nat) by (eapply lookup_lt_Some, Hm).
  exists i, m. destruct Hh.
  - destruct (NotifyChange_AgentMtpEnable_run INVALID ENABLE_COAP E w inst1 val_bool i m
                Hfind Hm) as [Hsame Hdiff].
    destruct (Bool.bool_dec val_bool (enable m)) as [Heq|Hne].
    + rewrite (Hsame Heq) in Hrun. inversion Hrun; subst. exists m, [].
      split; [apply unchanged_slot, Hm|]. split; [reflexivity|auto].
    + destruct (Hdiff Hne) as (e & made & Hr & Hs & Hn & Hc0 & Hc1 & Hc2).
      rewrite Hr in Hrun. inversion Hrun; subst. exists (set_enable val_bool m), made.
      split; [repeat split; auto|]. split; [|auto].
      destruct (protocol m) eqn:Hp.
      * destruct (Hn eq_refl) as [_ ->]. reflexivity.
      * destruct (Hs eq_refl) as [_ ->]. apply reconnect_if_set_no_write.
      * destruct ENABLE_COAP.
        -- destruct val_bool.
           ++ destruct (Hc2 eq_refl eq_refl eq_refl) as [-> _]. reflexivity.
           ++ destruct (Hc1 eq_refl eq_refl eq_refl) as [_ ->]. reflexivity.
        -- destruct (Hc0 eq_refl eq_refl) as [_ ->]. reflexivity.
  - destruct (TEXT_UTILS_StringToEnum E value (mtp_protocols ENABLE_COAP)) as [p|] eqn:Henum.
    + destruct (NotifyChange_AgentMtpProtocol_run INVALID ENABLE_COAP E w inst1 value i m p
                  Hfind Hm Henum) as (e & made & Hr & Hoff & Hon).
      rewrite Hr in Hrun. inversion Hrun; subst. exists (set_protocol p m), made.
      split; [repeat split; auto|]. split; [|auto].
      destruct (enable m) eqn:Hen; [|destruct (Hoff (or_introl eq_refl)) as [_ ->]; reflexivity].
      destruct (protocol_eqb p (protocol m)) eqn:Hp;
        [apply protocol_eqb_eq in Hp; destruct (Hoff (or_intror Hp)) as [_ ->]; reflexivity|].
      apply protocol_eqb_neq in Hp. destruct (Hon eq_refl Hp) as [-> _].
      rewrite List.filter_app, reconnect_if_set_no_write, protocol_switch_no_write.
      reflexivity.
    + exfalso. unfold NotifyChange_AgentMtpProtocol in Hrun.
      rewrite (handler_enter _ _ _ _ _ Hfind Hm), (at_slot_load _ _ Hi) in Hrun.
      cbv zeta in Hrun. rewrite Henum in Hrun. discriminate Hrun.
  - destruct (DEVICE_MTP_GetStompReference INVALID E (MTP_path inst1 Param_STOMP_Reference))
      as [e new_ref] eqn:Hget.
    destruct (NotifyChange_AgentMtpStompReference_run INVALID E w inst1 value i m e new_ref
                Hfind Hm Hget) as [Hfail Hsucc].
    destruct (is_ok e) eqn:Hok; [apply is_ok_true in Hok | apply is_ok_false in Hok].
    + destruct (Hsucc Hok) as (scheduled & Hr & Hyes & Hno).
      rewrite Hr in Hrun. inversion Hrun; subst.
      exists (set_stomp_connection_instance new_ref m), scheduled.
      split; [repeat split; auto|]. split; [|auto].
      destruct (enable m) eqn:Hen; [|rewrite Hno; auto].
      destruct (protocol_eqb (protocol m) kMtpProtocol_STOMP) eqn:Hp;
        [apply protocol_eqb_eq in Hp | apply protocol_eqb_neq in Hp; rewrite Hno; auto].
      destruct (decide (stomp_connection_instance m = new_ref)) as [Heq|Hne];
        [rewrite Hno; auto|].
      rewrite (Hyes eq_refl Hp Hne), List.filter_app, !reconnect_if_set_no_write.
      reflexivity.
    + rewrite (Hfail Hok) in Hrun. inversion Hrun; subst.
      exists (set_stomp_connection_instance INVALID m), [].
      split; [|split; [reflexivity|auto]].
      split; [exact Hm|]. split; [rewrite app_nil_r; reflexivity|reflexivity].
  - destruct (enable m && protocol_eqb (protocol m) kMtpProtocol_STOMP) eqn:Hlive.
    + destruct (stomp_agent_queue m) as [q|] eqn:Hq.
      * destruct (NotifyChange_AgentMtpStompDestination_run INVALID w inst1 value i m
                    Hfind Hm) as (made & Hr & Hyes & Hno); [intros _ _; congruence|].
        rewrite Hr in Hrun. inversion Hrun; subst.
        exists (set_stomp_agent_queue (Some value) m), made.
        split; [repeat split; auto|]. split; [|intros _; discriminate].
        apply andb_true_iff in Hlive as [Hen Hp]. apply protocol_eqb_eq in Hp.
        destruct (decide (stomp_connection_instance m = INVALID)) as [Href|Href];
          [rewrite Hno; auto|].
        destruct (String.eqb_spec q value) as [->|Hne]; [rewrite Hno; auto|].
        rewrite Hyes; auto. congruence.
      * exfalso. unfold NotifyChange_AgentMtpStompDestination in Hrun.
        rewrite (handler_enter _ _ _ _ _ Hfind Hm), (at_slot_load _ _ Hi) in Hrun.
        rewrite Hlive, Hq in Hrun. discriminate Hrun.
    + destruct (NotifyChange_AgentMtpStompDestination_run INVALID w inst1 value i m
                  Hfind Hm) as (made & Hr & Hyes & Hno).
      { intros Hen Hp. rewrite Hen, Hp in Hlive. discriminate Hlive. }
      rewrite Hr in Hrun. inversion Hrun; subst.
      exists (set_stomp_agent_queue (Some value) m), made.
      split; [repeat split; auto|]. split; [|intros _; discriminate].
      rewrite Hno; [reflexivity|]. apply andb_false_iff in Hlive as [Hen|Hp]; [auto|].
      apply protocol_eqb_neq in Hp. auto.
  - destruct (NotifyChange_AgentMtpCoAPPort_run E w inst1 val_uint i m Hfind Hm)
      as [Hsame Hdiff].
    destruct (decide (val_uint = coap_port m)) as [Heq|Hne].
    + rewrite (Hsame Heq) in Hrun. inversion Hrun; subst. exists m, [].
      split; [apply unchanged_slot, Hm|]. split; [reflexivity|auto].
    + destruct (Hdiff Hne) as (e & Hr & _). rewrite Hr in Hrun. inversion Hrun; subst.
      eexists _, _. split; [repeat split; eauto|].
      split; [apply restart_no_write|auto].
  - destruct (NotifyChange_AgentMtpCoAPPath_run E w inst1 value i m Hfind Hm)
      as (e & Hr & _).
    rewrite Hr in Hrun. inversion Hrun; subst.
    eexists _, _. split; [repeat split; eauto|].
    split; [apply restart_no_write|auto].
Qed.

(** X14: a handler of a parameter change never takes or frees a slot. If
    it returns, every slot has the instance number it had, so the table has
    the same slots in use and the same size; every slot in use that owned
    its queue name still owns one; and the handler has written nothing to
    the data model. *)
Theorem change_handler_keeps_slots
    (INVALID : Z) (ENABLE_COAP : bool) (E : dm_env) (inst1 : Z) (h : M usp_err)
    (w : world) (err : usp_err) (w' : world) :
  change_handler INVALID ENABLE_COAP E inst1 h ->
  h w = Some (err, w') ->
  fmap instance (agent_mtps w') = fmap instance (agent_mtps w) /\
  (table_ok w -> table_ok w') /\
  (queues_owned INVALID (agent_mtps w) -> queues_owned INVALID (agent_mtps w')) /\
  exists made, calls w' = calls w ++ made /\ List.filter is_write made = [].
Proof.
  intros Hh Hrun.
  destruct (change_handler_changes_slot _ _ _ _ _ _ _ _ Hh Hrun)
    as (i & m & m' & made & (Hm & -> & Hinst) & Hnw & Hq).
  cbn [agent_mtps calls]. split; [|split; [|split]].
  - rewrite list_fmap_insert, Hinst. apply list_insert_id.
    rewrite list_lookup_fmap, Hm. reflexivity.
  - unfold table_ok. cbn [agent_mtps]. rewrite length_insert. auto.
  - intros Howned j mj Hj Hused. destruct (decide (j = i)) as [->|Hne].
    + apply list_lookup_insert_Some in Hj as [(_ & <- & _)|(Hne & _)];
        [|elim Hne; reflexivity].
      apply Hq. apply (Howned i m Hm). congruence.
    + rewrite list_lookup_insert_ne in Hj by auto. apply (Howned j mj Hj Hused).
  - exists made. split; [reflexivity|exact Hnw].
Qed.

Lemma change_handler_keeps_slots_witness :
  fmap instance (agent_mtps (Build_world
                   (<[2%nat := set_enable false (coap_mtp 3 true 5683 "usp")]>
                      (agent_mtps full_world))
                   [Call_COAP_StopServer 3]))
  = fmap instance (agent_mtps full_world) /\
  (table_ok full_world ->
   table_ok (Build_world (<[2%nat := set_enable false (coap_mtp 3 true 5683 "usp")]>
                            (agent_mtps full_world))
                         [Call_COAP_StopServer 3])) /\
  (queues_owned (-1) (agent_mtps full_world) ->
   queues_owned (-1) (<[2%nat := set_enable false (coap_mtp 3 true 5683 "usp")]>
                        (agent_mtps full_world))) /\
  exists made, [Call_COAP_StopServer 3] = calls full_world ++ made /\
               List.filter is_write made = [].
Proof.
  apply (change_handler_keeps_slots (-1) true example_env 3
           (NotifyChange_AgentMtpEnable (-1) true example_env 3 false)
           full_world USP_ERR_OK
           (Build_world (<[2%nat := set_enable false (coap_mtp 3 true 5683 "usp")]>
                           (agent_mtps full_world))
                        [Call_COAP_StopServer 3])).
  - apply change_Enable.
  - reflexivity.
Defined.

(** ** The cascade on a store that takes the write *)

Lemma instances_unique_middle INVALID done m m' todo :
  instance m' = instance m ->
  instances_unique INVALID (done ++ m :: todo) ->
  instances_unique INVALID (done ++ m' :: todo).
Proof.
  intros Hinst Huniq.
  assert (Hold : forall j x, (done ++ m' :: todo) !! j = Some x ->
                 exists y, (done ++ m :: todo) !! j = Some y /\ instance y = instance x).
  { intros j x Hj. rewrite <- (insert_middle done todo m' m) in Hj.
    apply list_lookup_insert_Some in Hj as [(Hij & <- & _)|(Hne & Hj)].
    - subst j. exists m. split; [apply list_lookup_middle; reflexivity|congruence].
    - exists x. split; [exact Hj|reflexivity]. }
  intros j k mj mk Hj Hk Hused Heq.
  destruct (Hold j mj Hj) as (yj & Hyj & Hij). destruct (Hold k mk Hk) as (yk & Hyk & Hik).
  apply (Huniq j k yj yk Hyj Hyk); congruence.
Qed.

Section Cascade.
Variable INVALID : Z.
Variable E : dm_env.
Variable c : Z.
Hypothesis Hc : c <> INVALID.
Hypothesis Hstore : forall inst,
  DATA_MODEL_SetParameterValue_result E (MTP_path inst Param_STOMP_Reference) EmptyString
  = USP_ERR_OK.
Hypothesis Hread : forall inst,
  DATA_MODEL_GetParameterValue E (MTP_path inst Param_STOMP_Reference)
  = (USP_ERR_OK, EmptyString).

Lemma cascade_write_run done m todo cs :
  (length done < MAX_AGENT_MTPS)%nat ->
  instances_unique INVALID (done ++ m :: todo) ->
  refers_to INVALID c m = true ->
  DATA_MODEL_SetParameterValue INVALID E (MTP_path (instance m) Param_STOMP_Reference)
    EmptyString (Build_world (done ++ m :: todo) cs)
  = Some (USP_ERR_OK,
          Build_world (done ++ cascaded_mtp INVALID c m :: todo)
                      (cs ++ cascade_calls INVALID c m)).
Proof.
  intros Hlen Huniq Href. unfold cascaded_mtp, cascade_calls. rewrite Href.
  apply refers_to_spec in Href as (Hused & Hp & Hrefc).
  set (w1 := Build_world (done ++ m :: todo) (cs ++ [clear_reference m])).
  assert (Hm : agent_mtps w1 !! length done = Some m)
    by (apply list_lookup_middle; reflexivity).
  assert (Hfind : FindAgentMtpByInstance (instance m) w1 = Some (Some (length done), w1)).
  { apply (FindAgentMtpByInstance_first _ w1 _ m Hlen Hm eq_refl).
    intros j mj Hj Hmj Heq.
    assert (j = length done) by (apply (Huniq j (length done) mj m Hmj Hm); congruence).
    lia. }
  assert (Hget : DEVICE_MTP_GetStompReference INVALID E
                   (MTP_path (instance m) Param_STOMP_Reference) = (USP_ERR_OK, INVALID)).
  { unfold DEVICE_MTP_GetStompReference. rewrite Hread. reflexivity. }
  destruct (NotifyChange_AgentMtpStompReference_run INVALID E w1 (instance m) EmptyString
              (length done) m USP_ERR_OK INVALID Hfind Hm Hget) as [_ Hsucc].
  destruct (Hsucc eq_refl) as (scheduled & Hrun & Hyes & Hno).
  unfold DATA_MODEL_SetParameterValue.
  change (bind (emit (Call_DATA_MODEL_SetParameterValue
                        (MTP_path (instance m) Param_STOMP_Reference) EmptyString)) ?k
               (Build_world (done ++ m :: todo) cs))
    with (k tt w1).
  cbv beta. rewrite Hstore. cbn [is_ok negb path_param path_instance]. rewrite Hrun.
  cbn [agent_mtps calls w1]. rewrite insert_middle, <- app_assoc. cbn [app].
  assert (Hs : scheduled = if enable m then [Call_DEVICE_STOMP_ScheduleReconnect c] else []).
  { destruct (enable m) eqn:Hen; [|apply Hno; auto].
    rewrite Hyes by congruence. unfold reconnect_if_set. rewrite Hrefc, Z.eqb_refl.
    apply Z.eqb_neq in Hc. rewrite Hc. reflexivity. }
  rewrite Hs. reflexivity.
Qed.

Lemma cascade_loop_run :
  forall todo done cs,
    (length done + length todo = MAX_AGENT_MTPS)%nat ->
    instances_unique INVALID (done ++ todo) ->
    DEVICE_MTP_NotifyStompConnDeleted_loop INVALID E c (length done) (length todo)
      (Build_world (done ++ todo) cs)
    = Some (tt, Build_world (done ++ map (cascaded_mtp INVALID c) todo)
                            (cs ++ flat_map (cascade_calls INVALID c) todo)).
Proof.
  induction todo as [|m todo IH]; intros done cs Hlen Huniq.
  - cbn. rewrite !app_nil_r. reflexivity.
  - cbn [length DEVICE_MTP_NotifyStompConnDeleted_loop map flat_map].
    cbn [length] in Hlen.
    assert (Hm : (done ++ m :: todo) !! length done = Some m)
      by (apply list_lookup_middle; reflexivity).
    rewrite (bind_Some _ _ _ _ _ (load_Some _ (Build_world (done ++ m :: todo) cs) _ Hm)).
    fold (refers_to INVALID c m).
    assert (Hnext : forall x, done ++ x :: todo = (done ++ [x]) ++ todo)
      by (intros x; rewrite <- app_assoc; reflexivity).
    assert (Hstep : forall x cs',
      instance x = instance m ->
      DEVICE_MTP_NotifyStompConnDeleted_loop INVALID E c (S (length done)) (length todo)
        (Build_world (done ++ x :: todo) cs')
      = Some (tt, Build_world (done ++ x :: map (cascaded_mtp INVALID c) todo)
                              (cs' ++ flat_map (cascade_calls INVALID c) todo))).
    { intros x cs' Hx. rewrite (Hnext x).
      replace (S (length done)) with (length (done ++ [x]))
        by (rewrite length_app; cbn; lia).
      rewrite IH.
      - rewrite <- app_assoc. reflexivity.
      - rewrite length_app. cbn. lia.
      - rewrite <- Hnext. apply (instances_unique_middle INVALID done m x todo Hx Huniq). }
    destruct (refers_to INVALID c m) eqn:Href; cbn [when].
    + rewrite bind_assoc.
      rewrite (bind_Some _ _ _ _ _ (cascade_write_run done m todo cs ltac:(lia) Huniq Href)).
      cbv beta. rewrite !bind_ret. rewrite Hstep.
      * rewrite <- app_assoc. reflexivity.
      * unfold cascaded_mtp. rewrite Href. reflexivity.
    + rewrite bind_ret. unfold cascaded_mtp, cascade_calls. rewrite Href.
      rewrite Hstep by reflexivity. reflexivity.
Qed.

End Cascade.

(** X15: on a store that accepts the empty write and then reads every
    reference back as empty, with distinct instance numbers in the table,
    the deletion of the STOMP connection [c] unsets the reference of every
    slot in use on STOMP that referred to it and changes no other slot; for
    each of these slots, in the order of the table, it writes the empty
    reference and, if the slot is enabled, schedules a reconnect of [c].
    Afterwards no slot refers to [c]. *)
Theorem DEVICE_MTP_NotifyStompConnDeleted_unsets_references
    (INVALID : Z) (E : dm_env) (c : Z) (w : world) :
  table_ok w ->
  instances_unique INVALID (agent_mtps w) ->
  c <> INVALID ->
  (forall inst,
     DATA_MODEL_SetParameterValue_result E (MTP_path inst Param_STOMP_Reference) EmptyString
     = USP_ERR_OK) ->
  (forall inst,
     DATA_MODEL_GetParameterValue E (MTP_path inst Param_STOMP_Reference)
     = (USP_ERR_OK, EmptyString)) ->
  DEVICE_MTP_NotifyStompConnDeleted INVALID E c w
  = Some (tt, Build_world (map (cascaded_mtp INVALID c) (agent_mtps w))
                          (calls w ++ flat_map (cascade_calls INVALID c) (agent_mtps w)))
  /\ (forall m, In m (map (cascaded_mtp INVALID c) (agent_mtps w)) ->
                refers_to INVALID c m = false).
Proof.
  intros Hlen Huniq Hc Hstore Hread. split.
  - unfold DEVICE_MTP_NotifyStompConnDeleted. rewrite <- Hlen. destruct w as [tbl cs].
    apply (cascade_loop_run INVALID E c Hc Hstore Hread tbl [] cs); [exact Hlen|exact Huniq].
  - intros m Hin. apply in_map_iff in Hin as (m0 & <- & _).
    unfold cascaded_mtp. destruct (refers_to INVALID c m0) eqn:Href; [|exact Href].
    unfold refers_to. cbn [set_stomp_connection_instance instance protocol
                           stomp_connection_instance].
    apply Z.eqb_neq in Hc. rewrite Z.eqb_sym in Hc. rewrite Hc. apply andb_false_r.
Qed.

Lemma DEVICE_MTP_NotifyStompConnDeleted_unsets_references_witness :
  DEVICE_MTP_NotifyStompConnDeleted (-1) cleared_env 2 full_world
  = Some (tt, Build_world (map (cascaded_mtp (-1) 2) (agent_mtps full_world))
                          (calls full_world
                           ++ flat_map (cascade_calls (-1) 2) (agent_mtps full_world)))
  /\ (forall m, In m (map (cascaded_mtp (-1) 2) (agent_mtps full_world)) ->
                refers_to (-1) 2 m = false).
Proof.
  apply (DEVICE_MTP_NotifyStompConnDeleted_unsets_references (-1) cleared_env 2 full_world).
  - reflexivity.
  - apply full_world_instances_unique.
  - discriminate.
  - intros inst. reflexivity.
  - intros inst. reflexivity.
Defined.

(** On [full_world] the slots 4 and 5 referred to connection 2 and are
    enabled. *)
Example DEVICE_MTP_NotifyStompConnDeleted_cleared_env :
  outcome (DEVICE_MTP_NotifyStompConnDeleted (-1) cleared_env 2 full_world)
  = Some (tt,
          [Call_DATA_MODEL_SetParameterValue (MTP_path 4 Param_STOMP_Reference) EmptyString;
           Call_DEVICE_STOMP_ScheduleReconnect 2;
           Call_DATA_MODEL_SetParameterValue (MTP_path 5 Param_STOMP_Reference) EmptyString;
           Call_DEVICE_STOMP_ScheduleReconnect 2]).
Proof. reflexivity. Qed.

(** ** The start of the component *)

Lemma FindUnusedAgentMtp_first INVALID w i m :
  (i < MAX_AGENT_MTPS)%nat ->
  agent_mtps w !! i = Some m -> instance m = INVALID ->
  (forall j mj, (j < i)%nat -> agent_mtps w !! j = Some mj -> instance mj <> INVALID) ->
  FindUnusedAgentMtp INVALID w = Some (Some i, w).
Proof.
  intros Hi Hm Hfree Hbefore. unfold FindUnusedAgentMtp, bind, get_table. cbv beta iota.
  rewrite (find_slot_first _ _ 0 MAX_AGENT_MTPS i m); [reflexivity|lia|exact Hm| |].
  - apply Z.eqb_eq. exact Hfree.
  - intros j mj Hj Hmj. apply Z.eqb_neq. apply (Hbefore j mj); [lia|exact Hmj].
Qed.







(** With a database whose three rows cannot be populated, the start deletes
    the three of them and succeeds with a table of free slots: each failed
    run took and released slot 0. *)
Example DEVICE_MTP_Start_failing_env :
  DEVICE_MTP_Start (-1) true failing_env example_table_env (initial_world (-1))
  = Some ((USP_ERR_OK, [7; 8; 9]),
          Build_world (<[0%nat := released_mtp (-1)]> (agent_mtps (initial_world (-1)))) []).
Proof. reflexivity. Qed.

Section StartOfValidRows.
Variable INVALID : Z.
Variable ENABLE_COAP : bool.
Variable E : dm_env.
Variable T : dm_table_env.

Lemma DEVICE_MTP_Start_loop_valid :
  forall iv done free cs deleted,
    (length done + length free = MAX_AGENT_MTPS)%nat ->
    (forall m, In m done -> instance m <> INVALID) ->
    (forall m, In m free -> instance m = INVALID) ->
    (length iv <= length free)%nat ->
    (forall inst, In inst iv ->
                  inst <> INVALID /\ ~ population_fails INVALID ENABLE_COAP E inst) ->
    DEVICE_MTP_Start_loop INVALID ENABLE_COAP E T iv deleted (Build_world (done ++ free) cs)
    = Some ((USP_ERR_OK, deleted),
            Build_world (done ++ map (resolved_mtp INVALID ENABLE_COAP E) iv
                              ++ drop (length iv) free)
                        (cs ++ flat_map (fun inst =>
                                           population_start INVALID ENABLE_COAP E inst
                                           ++ population_reconnect INVALID ENABLE_COAP E inst)
                                        iv)).
Proof.
  induction iv as [|inst rest IH]; intros done free cs deleted Hlen Hdone Hfree Hfit Hrows.
  - cbn. rewrite app_nil_r. reflexivity.
  - destruct free as [|f free]; [cbn in Hfit; lia|].
    cbn [length] in Hlen, Hfit. cbn [DEVICE_MTP_Start_loop map flat_map length drop].
    destruct (Hrows inst (or_introl eq_refl)) as [Hinst Hgood].
    set (w := Build_world (done ++ f :: free) cs).
    assert (Hf : agent_mtps w !! length done = Some f)
      by (apply list_lookup_middle; reflexivity).
    assert (Hfind : FindUnusedAgentMtp INVALID w = Some (Some (length done), w)).
    { apply (FindUnusedAgentMtp_first INVALID w (length done) f); [lia|exact Hf| |].
      - apply Hfree. left. reflexivity.
      - intros j mj Hj Hmj. apply Hdone. cbn [w agent_mtps] in Hmj.
        rewrite lookup_app_l in Hmj by exact Hj.
        apply list_elem_of_In. apply list_elem_of_lookup. eauto. }
    rewrite (bind_Some _ _ _ _ _ (population_succeeds INVALID ENABLE_COAP E w inst
                                    (length done) Hfind Hgood)).
    cbn [is_ok negb w agent_mtps calls]. rewrite insert_middle.
    replace (done ++ resolved_mtp INVALID ENABLE_COAP E inst :: free)
      with ((done ++ [resolved_mtp INVALID ENABLE_COAP E inst]) ++ free)
      by (rewrite <- app_assoc; reflexivity).
    rewrite IH.
    + rewrite <- !app_assoc. reflexivity.
    + rewrite length_app. cbn. lia.
    + intros m Hm. apply in_app_iff in Hm as [Hm|[<-|[]]]; [apply (Hdone m Hm)|exact Hinst].
    + intros m Hm. apply Hfree. right. exact Hm.
    + lia.
    + intros x Hx. apply Hrows. right. exact Hx.
Qed.

End StartOfValidRows.

(** X17: started on a table whose slots are all free, with a database of
    at most [MAX_AGENT_MTPS] rows that all populate, [DEVICE_MTP_Start]
    succeeds and deletes nothing: the rows fill the first slots of the
    table in the order listed, each with the values read for it, the other
    slots are untouched, and the calls are those of each population in
    turn. *)
Theorem DEVICE_MTP_Start_populates_valid_rows
    (INVALID : Z) (ENABLE_COAP : bool) (E : dm_env) (T : dm_table_env) (w : world)
    (iv : list Z) :
  table_ok w ->
  (forall m, In m (agent_mtps w) -> instance m = INVALID) ->
  DATA_MODEL_GetInstances T = (USP_ERR_OK, iv) ->
  (length iv <= MAX_AGENT_MTPS)%nat ->
  (forall inst, In inst iv ->
                inst <> INVALID /\ ~ population_fails INVALID ENABLE_COAP E inst) ->
  DEVICE_MTP_Start INVALID ENABLE_COAP E T w
  = Some ((USP_ERR_OK, []),
          Build_world (map (resolved_mtp INVALID ENABLE_COAP E) iv
                         ++ drop (length iv) (agent_mtps w))
                      (calls w ++ flat_map (fun inst =>
                                              population_start INVALID ENABLE_COAP E inst
                                              ++ population_reconnect INVALID ENABLE_COAP E inst)
                                           iv)).
Proof.
  intros Hlen Hfree Hget Hfit Hrows. unfold DEVICE_MTP_Start. rewrite Hget.
  cbn [is_ok negb]. destruct w as [tbl cs]. cbn [agent_mtps calls] in *.
  destruct iv as [|inst rest].
  - cbn. rewrite app_nil_r. reflexivity.
  - apply (DEVICE_MTP_Start_loop_valid INVALID ENABLE_COAP E T (inst :: rest) [] tbl cs []).
    + exact Hlen.
    + intros m Hm. destruct Hm.
    + exact Hfree.
    + unfold table_ok in Hlen. cbn [agent_mtps] in Hlen. rewrite Hlen. exact Hfit.
    + exact Hrows.
Qed.

Lemma DEVICE_MTP_Start_populates_valid_rows_witness :
  DEVICE_MTP_Start (-1) true example_env example_table_env (initial_world (-1))
  = Some ((USP_ERR_OK, []),
          Build_world (map (resolved_mtp (-1) true example_env) [7; 8; 9]
                         ++ drop (length [7; 8; 9]) (agent_mtps (initial_world (-1))))
                      (calls (initial_world (-1))
                       ++ flat_map (fun inst =>
                                      population_start (-1) true example_env inst
                                      ++ population_reconnect (-1) true example_env inst)
                                   [7; 8; 9])).
Proof.
  apply (DEVICE_MTP_Start_populates_valid_rows (-1) true example_env example_table_env
           (initial_world (-1)) [7; 8; 9]).
  - reflexivity.
  - intros m Hm. cbn in Hm. intuition (subst; reflexivity).
  - reflexivity.
  - unfold MAX_AGENT_MTPS, MAX_CONTROLLERS. cbn. lia.
  - intros inst Hin. split; [|apply example_env_population_ok].
    cbn in Hin. intuition (subst; discriminate).
Defined.

(** ** The destination given by the STOMP server *)

(** X18: for a slot that is found, [Get_StompDestFromServer] returns
    success and changes nothing. The text is empty when the slot is
    disabled or not on STOMP, whatever the STOMP module holds for its
    connection, and is what the STOMP module gives for the connection of the
    slot when it is enabled on STOMP. *)
Theorem Get_StompDestFromServer_by_enable_and_protocol
    (T : dm_table_env) (w : world) (inst1 len : Z) (i : nat) (m : agent_mtp_t) :
  FindAgentMtpByInstance inst1 w = Some (Some i, w) ->
  agent_mtps w !! i = Some m ->
  exists buf,
    Get_StompDestFromServer T inst1 len w = Some ((USP_ERR_OK, buf), w) /\
    (enable m = false \/ protocol m <> kMtpProtocol_STOMP -> buf = EmptyString) /\
    (enable m = true -> protocol m = kMtpProtocol_STOMP ->
     buf = DEVICE_STOMP_GetDestinationFromServer T (stomp_connection_instance m) len).
Proof.
  intros Hfind Hm. unfold Get_StompDestFromServer. cbv zeta.
  rewrite (bind_Some _ _ _ _ _ Hfind). cbn [USP_ASSERT_not_NULL]. rewrite bind_ret.
  rewrite (bind_Some _ _ _ _ _ (load_Some _ _ _ Hm)).
  destruct (enable m) eqn:Hen; cbn [andb].
  - destruct (protocol_eqb (protocol m) kMtpProtocol_STOMP) eqn:Hp;
      [apply protocol_eqb_eq in Hp | apply protocol_eqb_neq in Hp].
    + eexists. split; [reflexivity|]. split; [intros [H|H]; congruence|reflexivity].
    + eexists. split; [reflexivity|]. split; [reflexivity|intros; congruence].
  - eexists. split; [reflexivity|]. split; [reflexivity|intros; congruence].
Qed.

Lemma Get_StompDestFromServer_by_enable_and_protocol_witness :
  exists buf,
    Get_StompDestFromServer example_table_env 2 64 full_world
    = Some ((USP_ERR_OK, buf), full_world) /\
    (enable (stomp_mtp 2 false 1 "agent/2") = false \/
     protocol (stomp_mtp 2 false 1 "agent/2") <> kMtpProtocol_STOMP -> buf = EmptyString) /\
    (enable (stomp_mtp 2 false 1 "agent/2") = true ->
     protocol (stomp_mtp 2 false 1 "agent/2") = kMtpProtocol_STOMP ->
     buf = DEVICE_STOMP_GetDestinationFromServer example_table_env
             (stomp_connection_instance (stomp_mtp 2 false 1 "agent/2")) 64).
Proof.
  apply (Get_StompDestFromServer_by_enable_and_protocol example_table_env full_world 2 64
           1%nat (stomp_mtp 2 false 1 "agent/2")); reflexivity.
Defined.

Lemma ProcessAgentMtpAdded_no_slot INVALID ENABLE_COAP E w inst :
  (forall i m, agent_mtps w !! i = Some m -> instance m <> INVALID) ->
  ProcessAgentMtpAdded INVALID ENABLE_COAP E inst w
  = Some (USP_ERR_RESOURCES_EXCEEDED,
          Build_world (agent_mtps w) (calls w ++ [no_slot_message])).
Proof.
  intros Hfull. unfold ProcessAgentMtpAdded, FindUnusedAgentMtp, bind, get_table.
  cbv beta iota. rewrite find_slot_none; [reflexivity|].
  intros j m Hj. apply Z.eqb_neq. apply (Hfull j m Hj).
Qed.

Section StartOfCrowdedTable.
Variable INVALID : Z.
Variable ENABLE_COAP : bool.
Variable E : dm_env.
Variable T : dm_table_env.

Lemma DEVICE_MTP_Start_loop_full :
  forall iv tbl cs deleted,
    (forall m, In m tbl -> instance m <> INVALID /\ ~ In (instance m) iv) ->
    (forall inst, In inst iv -> DATA_MODEL_DeleteInstance_result T inst = USP_ERR_OK) ->
    DEVICE_MTP_Start_loop INVALID ENABLE_COAP E T iv deleted (Build_world tbl cs)
    = Some ((USP_ERR_OK, deleted ++ iv),
            Build_world tbl (cs ++ map (fun _ => no_slot_message) iv)).
Proof.
  induction iv as [|inst rest IH]; intros tbl cs deleted Htbl Hdel.
  - cbn. rewrite !app_nil_r. reflexivity.
  - cbn [DEVICE_MTP_Start_loop map].
    assert (Hin : forall j m, tbl !! j = Some m -> In m tbl)
      by (intros j m Hj; apply list_elem_of_In, list_elem_of_lookup; eauto).
    rewrite (bind_Some _ _ _ _ _
               (ProcessAgentMtpAdded_no_slot INVALID ENABLE_COAP E (Build_world tbl cs) inst
                  (fun j m Hj => proj1 (Htbl m (Hin j m Hj))))).
    cbn [is_ok negb agent_mtps calls]. unfold DATA_MODEL_DeleteInstance.
    rewrite (Hdel inst (or_introl eq_refl)). cbn [is_ok negb].
    rewrite (bind_Some _ _ _ _ _
               (Notify_AgentMtpDeleted_absent INVALID ENABLE_COAP
                  (Build_world tbl (cs ++ [no_slot_message])) inst
                  (FindAgentMtpByInstance_None inst
                     (Build_world tbl (cs ++ [no_slot_message]))
                     (fun j m Hj Heq =>
                        proj2 (Htbl m (Hin j m Hj)) (or_introl (eq_sym Heq)))))).
    cbv beta. cbn [is_ok negb]. rewrite IH.
    + rewrite <- !app_assoc. reflexivity.
    + intros m Hm. destruct (Htbl m Hm) as [Hu Hn]. split; [exact Hu|].
      intros Hr. apply Hn. right. exact Hr.
    + intros x Hx. apply Hdel. right. exact Hx.
Qed.

Lemma DEVICE_MTP_Start_loop_rows :
  forall iv done free cs deleted,
    (length done + length free = MAX_AGENT_MTPS)%nat ->
    (forall m, In m done -> instance m <> INVALID /\ ~ In (instance m) iv) ->
    (forall m, In m free -> instance m = INVALID) ->
    NoDup iv ->
    (forall inst, In inst iv ->
                  inst <> INVALID /\ ~ population_fails INVALID ENABLE_COAP E inst /\
                  DATA_MODEL_DeleteInstance_result T inst = USP_ERR_OK) ->
    DEVICE_MTP_Start_loop INVALID ENABLE_COAP E T iv deleted (Build_world (done ++ free) cs)
    = Some ((USP_ERR_OK, deleted ++ drop (length free) iv),
            Build_world (done ++ map (resolved_mtp INVALID ENABLE_COAP E)
                                     (take (length free) iv)
                              ++ drop (length iv) free)
                        (cs ++ flat_map (population_calls INVALID ENABLE_COAP E)
                                        (take (length free) iv)
                            ++ map (fun _ => no_slot_message) (drop (length free) iv))).
Proof.
  induction iv as [|inst rest IH]; intros done free cs deleted Hlen Hdone Hfree Hnodup Hrows.
  - rewrite take_nil, drop_nil. cbn. rewrite !app_nil_r. reflexivity.
  - destruct free as [|f free].
    + cbn [length take drop map flat_map]. rewrite !app_nil_r. cbn [app].
      apply DEVICE_MTP_Start_loop_full; [exact Hdone|].
      intros x Hx. apply (Hrows x Hx).
    + cbn [length] in Hlen.
      cbn [DEVICE_MTP_Start_loop map flat_map length drop take].
      destruct (Hrows inst (or_introl eq_refl)) as (Hinst & Hgood & _).
      set (w := Build_world (done ++ f :: free) cs).
      assert (Hf : agent_mtps w !! length done = Some f)
        by (apply list_lookup_middle; reflexivity).
      assert (Hfind : FindUnusedAgentMtp INVALID w = Some (Some (length done), w)).
      { apply (FindUnusedAgentMtp_first INVALID w (length done) f); [lia|exact Hf| |].
        - apply Hfree. left. reflexivity.
        - intros j mj Hj Hmj. apply Hdone. cbn [w agent_mtps] in Hmj.
          rewrite lookup_app_l in Hmj by exact Hj.
          apply list_elem_of_In. apply list_elem_of_lookup. eauto. }
      rewrite (bind_Some _ _ _ _ _ (population_succeeds INVALID ENABLE_COAP E w inst
                                      (length done) Hfind Hgood)).
      cbn [is_ok negb w agent_mtps calls]. rewrite insert_middle.
      replace (done ++ resolved_mtp INVALID ENABLE_COAP E inst :: free)
        with ((done ++ [resolved_mtp INVALID ENABLE_COAP E inst]) ++ free)
        by (rewrite <- app_assoc; reflexivity).
      apply NoDup_cons in Hnodup as [Hnotin Hnodup].
      rewrite IH.
      * unfold population_calls. rewrite <- !app_assoc. reflexivity.
      * rewrite length_app. cbn. lia.
      * intros m Hm. apply in_app_iff in Hm as [Hm|[<-|[]]].
        -- destruct (Hdone m Hm) as [Hu Hn]. split; [exact Hu|].
           intros Hr. apply Hn. right. exact Hr.
        -- split; [exact Hinst|]. cbn [resolved_mtp instance].
           intros Hr. apply Hnotin. apply list_elem_of_In. exact Hr.
      * intros m Hm. apply Hfree. right. exact Hm.
      * exact Hnodup.
      * intros x Hx. apply Hrows. right. exact Hx.
Qed.

End StartOfCrowdedTable.

(** X19: started on a table whose slots are all free, with distinct rows
    that all populate and a data model that accepts deletions,
    [DEVICE_MTP_Start] succeeds whatever the number of rows. The first
    [MAX_AGENT_MTPS] rows fill the table in the order listed; each row
    beyond them finds no slot, sets the error message, and is deleted from
    the database, without any change to the table. *)
Theorem DEVICE_MTP_Start_deletes_surplus_rows
    (INVALID : Z) (ENABLE_COAP : bool) (E : dm_env) (T : dm_table_env) (w : world)
    (iv : list Z) :
  table_ok w ->
  (forall m, In m (agent_mtps w) -> instance m = INVALID) ->
  DATA_MODEL_GetInstances T = (USP_ERR_OK, iv) ->
  NoDup iv ->
  (forall inst, In inst iv ->
                inst <> INVALID /\ ~ population_fails INVALID ENABLE_COAP E inst /\
                DATA_MODEL_DeleteInstance_result T inst = USP_ERR_OK) ->
  DEVICE_MTP_Start INVALID ENABLE_COAP E T w
  = Some ((USP_ERR_OK, drop MAX_AGENT_MTPS iv),
          Build_world (map (resolved_mtp INVALID ENABLE_COAP E) (take MAX_AGENT_MTPS iv)
                         ++ drop (length iv) (agent_mtps w))
                      (calls w ++ flat_map (population_calls INVALID ENABLE_COAP E)
                                           (take MAX_AGENT_MTPS iv)
                               ++ map (fun _ => no_slot_message) (drop MAX_AGENT_MTPS iv))).
Proof.
  intros Hlen Hfree Hget Hnodup Hrows. unfold DEVICE_MTP_Start. rewrite Hget.
  cbn [is_ok negb]. destruct w as [tbl cs]. unfold table_ok in Hlen.
  cbn [agent_mtps calls] in *.
  destruct iv as [|inst rest].
  - rewrite take_nil, drop_nil. cbn. rewrite !app_nil_r. reflexivity.
  - rewrite <- Hlen.
    apply (DEVICE_MTP_Start_loop_rows INVALID ENABLE_COAP E T (inst :: rest) [] tbl cs []).
    + exact Hlen.
    + intros m Hm. destruct Hm.
    + exact Hfree.
    + exact Hnodup.
    + exact Hrows.
Qed.

Lemma DEVICE_MTP_Start_deletes_surplus_rows_witness :
  DEVICE_MTP_Start (-1) true example_env crowded_table_env (initial_world (-1))
  = Some ((USP_ERR_OK, drop MAX_AGENT_MTPS [1; 2; 3; 4; 5; 6]),
          Build_world (map (resolved_mtp (-1) true example_env)
                           (take MAX_AGENT_MTPS [1; 2; 3; 4; 5; 6])
                         ++ drop (length [1; 2; 3; 4; 5; 6]) (agent_mtps (initial_world (-1))))
                      (calls (initial_world (-1))
                       ++ flat_map (population_calls (-1) true example_env)
                                   (take MAX_AGENT_MTPS [1; 2; 3; 4; 5; 6])
                       ++ map (fun _ => no_slot_message)
                              (drop MAX_AGENT_MTPS [1; 2; 3; 4; 5; 6]))).
Proof.
  apply (DEVICE_MTP_Start_deletes_surplus_rows (-1) true example_env crowded_table_env
           (initial_world (-1)) [1; 2; 3; 4; 5; 6]).
  - reflexivity.
  - intros m Hm. cbn in Hm. intuition (subst; reflexivity).
  - reflexivity.
  - repeat (apply NoDup_cons_2; [rewrite list_elem_of_In; cbn; intuition discriminate|]).
    apply NoDup_nil_2.
  - intros inst Hin. split; [|split; [apply example_env_population_ok|reflexivity]].
    cbn in Hin. intuition (subst; discriminate).
Defined.

(** Six rows for five slots: row 6 is deleted from the database. *)
Example DEVICE_MTP_Start_crowded :
  option_map fst (DEVICE_MTP_Start (-1) true example_env crowded_table_env
                    (initial_world (-1)))
  = Some (USP_ERR_OK, [6]).
Proof. reflexivity. Qed.

(** X20: what [ValidateAdd_AgentMtp] accepts, the population can commit.
    When the validation of an add succeeds, the population run that follows
    on the same table takes a slot, and if the reads of the row meet no
    failure it returns success with the row stored in that slot. *)
Theorem ValidateAdd_AgentMtp_then_ProcessAgentMtpAdded
    (INVALID : Z) (ENABLE_COAP : bool) (E : dm_env) (w w0 : world) (inst : Z) :
  ValidateAdd_AgentMtp INVALID w = Some (USP_ERR_OK, w0) ->
  ~ population_fails INVALID ENABLE_COAP E inst ->
  w0 = w /\
  exists i w',
    FindUnusedAgentMtp INVALID w = Some (Some i, w) /\
    ProcessAgentMtpAdded INVALID ENABLE_COAP E inst w = Some (USP_ERR_OK, w') /\
    agent_mtps w' !! i = Some (resolved_mtp INVALID ENABLE_COAP E inst).
Proof.
  intros Hval Hgood.
  assert (Hfind : exists i, FindUnusedAgentMtp INVALID w = Some (Some i, w) /\ w0 = w).
  { unfold ValidateAdd_AgentMtp, FindUnusedAgentMtp, bind, get_table in *.
    cbv beta iota in *.
    destruct (find_slot _ (agent_mtps w) 0 MAX_AGENT_MTPS) as [i|].
    - unfold ret in Hval. exists i. split; [reflexivity|congruence].
    - cbn in Hval. discriminate Hval. }
  destruct Hfind as (i & Hfind & ->). split; [reflexivity|].
  pose proof (FindUnusedAgentMtp_Some _ _ _ _ Hfind) as (_ & m0 & Hm0 & _).
  eexists i, _. split; [exact Hfind|].
  split; [apply (population_succeeds _ _ _ _ _ _ Hfind Hgood)|].
  cbn [agent_mtps]. eapply lookup_updated, Hm0.
Qed.

Lemma ValidateAdd_AgentMtp_then_ProcessAgentMtpAdded_witness :
  partial_world = partial_world /\
  exists i w',
    FindUnusedAgentMtp (-1) partial_world = Some (Some i, partial_world) /\
    ProcessAgentMtpAdded (-1) true example_env 7 partial_world = Some (USP_ERR_OK, w') /\
    agent_mtps w' !! i = Some (resolved_mtp (-1) true example_env 7).
Proof.
  apply (ValidateAdd_AgentMtp_then_ProcessAgentMtpAdded (-1) true example_env partial_world
           partial_world 7).
  - reflexivity.
  - apply example_env_population_ok.
Defined.

(** ** What population and deletion keep *)

Lemma instances_unique_released INVALID tbl i m' :
  instance m' = INVALID ->
  instances_unique INVALID tbl ->
  instances_unique INVALID (<[i := m']> tbl).
Proof.
  intros Hfree Huniq j k mj mk Hj Hk Hused Heq.
  apply list_lookup_insert_Some in Hj as [(_ & <- & _)|(Hnj & Hj)]; [congruence|].
  apply list_lookup_insert_Some in Hk as [(_ & <- & _)|(Hnk & Hk)]; [congruence|].
  apply (Huniq j k mj mk Hj Hk Hused Heq).
Qed.

Lemma instances_unique_fresh INVALID tbl i m' :
  (forall j m, tbl !! j = Some m -> instance m <> instance m') ->
  instances_unique INVALID tbl ->
  instances_unique INVALID (<[i := m']> tbl).
Proof.
  intros Hfresh Huniq j k mj mk Hj Hk Hused Heq.
  apply list_lookup_insert_Some in Hj as [(Hij & <- & _)|(Hnj & Hj)];
    apply list_lookup_insert_Some in Hk as [(Hik & <- & _)|(Hnk & Hk)].
  - congruence.
  - elim (Hfresh k mk Hk). congruence.
  - elim (Hfresh j mj Hj). congruence.
  - apply (Huniq j k mj mk Hj Hk Hused Heq).
Qed.

Lemma queues_owned_insert INVALID tbl i m' :
  (instance m' <> INVALID -> stomp_agent_queue m' <> None) ->
  queues_owned INVALID tbl ->
  queues_owned INVALID (<[i := m']> tbl).
Proof.
  intros Hm' Howned j mj Hj Hused.
  apply list_lookup_insert_Some in Hj as [(_ & <- & _)|(_ & Hj)];
    [apply Hm', Hused|apply (Howned j mj Hj Hused)].
Qed.

(** X21: a population run keeps the table well formed, whether it succeeds
    or fails: the table keeps its size, the instance numbers of the slots
    in use stay pairwise distinct when the instance of the new row was not
    in the table, and every slot in use owns its queue name when the reads
    of strings that succeed give a string. *)
Theorem ProcessAgentMtpAdded_keeps_table_well_formed
    (INVALID : Z) (ENABLE_COAP : bool) (E : dm_env) (w : world) (inst : Z)
    (err : usp_err) (w' : world) :
  ProcessAgentMtpAdded INVALID ENABLE_COAP E inst w = Some (err, w') ->
  (forall j m, agent_mtps w !! j = Some m -> instance m <> inst) ->
  (forall p, fst (DM_ACCESS_GetString E p) = USP_ERR_OK ->
             snd (DM_ACCESS_GetString E p) <> None) ->
  (table_ok w -> table_ok w') /\
  (instances_unique INVALID (agent_mtps w) -> instances_unique INVALID (agent_mtps w')) /\
  (queues_owned INVALID (agent_mtps w) -> queues_owned INVALID (agent_mtps w')).
Proof.
  intros Hrun Hfresh Hstr.
  destruct (find_slot (fun mtp => instance mtp =? INVALID) (agent_mtps w) 0 MAX_AGENT_MTPS)
    as [i|] eqn:Hf.
  - assert (Hfind : FindUnusedAgentMtp INVALID w = Some (Some i, w))
      by (unfold FindUnusedAgentMtp, bind, get_table; cbv beta iota; rewrite Hf; reflexivity).
    split; [|split].
    + destruct (ProcessAgentMtpAdded_run INVALID ENABLE_COAP E w inst i Hfind)
        as (e & m' & cs1 & cs2 & Hrun' & _).
      rewrite Hrun' in Hrun. inversion Hrun; subst. unfold table_ok. cbn [agent_mtps].
      rewrite length_insert. auto.
    + destruct (ProcessAgentMtpAdded_run INVALID ENABLE_COAP E w inst i Hfind)
        as (e & m' & cs1 & cs2 & Hrun' & _ & _ & Herr & Hok).
      rewrite Hrun' in Hrun. inversion Hrun; subst. cbn [agent_mtps]. intros Huniq.
      destruct (is_ok err) eqn:He; [apply is_ok_true in He | apply is_ok_false in He].
      * destruct (Hok He) as (-> & _). apply instances_unique_fresh; [|exact Huniq].
        exact Hfresh.
      * destruct (Herr He) as (-> & _). apply instances_unique_released; [reflexivity|].
        exact Huniq.
    + intros Howned.
      apply (ProcessAgentMtpAdded_queues_owned INVALID ENABLE_COAP E w inst i err w'
               Hstr Howned Hfind Hrun).
  - unfold ProcessAgentMtpAdded, FindUnusedAgentMtp, bind, get_table in Hrun.
    cbv beta iota in Hrun. rewrite Hf in Hrun. cbn in Hrun. inversion Hrun; subst.
    cbn [agent_mtps]. auto.
Qed.

Lemma ProcessAgentMtpAdded_keeps_table_well_formed_witness :
  (table_ok partial_world -> table_ok partial_world) /\
  (instances_unique (-1) (agent_mtps partial_world) ->
   instances_unique (-1) (agent_mtps partial_world)) /\
  (queues_owned (-1) (agent_mtps partial_world) ->
   queues_owned (-1) (agent_mtps partial_world)).
Proof.
  apply (ProcessAgentMtpAdded_keeps_table_well_formed (-1) true failing_env partial_world 7
           USP_ERR_INTERNAL_ERROR partial_world).
  - reflexivity.
  - apply partial_world_fresh_7.
  - intros p. unfold failing_env, example_env_with. cbn.
    destruct (path_param p); cbn; intros H; discriminate.
Defined.

(** X22: a deletion keeps the table well formed: it always returns
    success, the table keeps its size, the instance numbers of the slots
    in use stay pairwise distinct, every slot in use still owns its queue
    name, and nothing is written to the data model. *)
Theorem Notify_AgentMtpDeleted_keeps_table_well_formed
    (INVALID : Z) (ENABLE_COAP : bool) (w : world) (inst1 : Z) :
  exists w' made,
    Notify_AgentMtpDeleted INVALID ENABLE_COAP inst1 w = Some (USP_ERR_OK, w') /\
    calls w' = calls w ++ made /\ List.filter is_write made = [] /\
    (table_ok w -> table_ok w') /\
    (instances_unique INVALID (agent_mtps w) -> instances_unique INVALID (agent_mtps w')) /\
    (queues_owned INVALID (agent_mtps w) -> queues_owned INVALID (agent_mtps w')).
Proof.
  assert (Hsame : forall (H : Notify_AgentMtpDeleted INVALID ENABLE_COAP inst1 w
                              = Some (USP_ERR_OK, w)),
    exists w' made,
      Notify_AgentMtpDeleted INVALID ENABLE_COAP inst1 w = Some (USP_ERR_OK, w') /\
      calls w' = calls w ++ made /\ List.filter is_write made = [] /\
      (table_ok w -> table_ok w') /\
      (instances_unique INVALID (agent_mtps w) -> instances_unique INVALID (agent_mtps w')) /\
      (queues_owned INVALID (agent_mtps w) -> queues_owned INVALID (agent_mtps w'))).
  { intros H. exists w, []. rewrite app_nil_r. repeat split; auto. }
  destruct (find_cases inst1 w) as [(i & m & Hfind & Hm)|Hnone].
  - destruct (enable m) eqn:Hen.
    + eexists _, _.
      split; [apply (Notify_AgentMtpDeleted_enabled _ _ _ _ _ _ Hfind Hm Hen)|].
      cbn [agent_mtps calls]. split; [reflexivity|].
      assert (Hfree : instance (destroyed INVALID ENABLE_COAP m) = INVALID)
        by (unfold destroyed; destruct ENABLE_COAP; reflexivity).
      split; [|split; [|split]].
      * unfold teardown. destruct (protocol m); [reflexivity| |destruct ENABLE_COAP; reflexivity].
        apply reconnect_if_set_no_write.
      * unfold table_ok. cbn [agent_mtps]. rewrite length_insert. auto.
      * apply instances_unique_released, Hfree.
      * apply queues_owned_insert. intros Hused. elim Hused. exact Hfree.
    + apply Hsame. apply (Notify_AgentMtpDeleted_disabled _ _ _ _ _ _ Hfind Hm Hen).
  - apply Hsame. apply Notify_AgentMtpDeleted_absent, Hnone.
Qed.
